(** * nbclassify trainer: codewords, classification and result files

    A shallow embedding of [src/script/trainer.py].  Python values are
    modelled as follows.

    - Class names and file paths are [string]s; Python 2 compares [str]
      values bytewise, which is [String.compare].
    - A number (the integers [-1] and [1] of the codewords, an output of
      the neural network, the error bound) is the rational [Qc] that the
      finite [int] or [float] stands for; [nan] and the infinities are
      left out.  The comparisons [==] and [<] are exact on these.  The
      results of [-], [*], [/] and [**2] are rounded when the operands
      are [float]s, and [**2] raises [OverflowError] out of range: these
      operations are parameters ([Runtime]).
    - A [dict] keyed by class names is a [gmap string _]; the order in
      which it lists its items is a parameter ([Runtime]).  A [list] is
      a [list]; [cw[i] = v] and [cw[i]] raise [IndexError] out of range.
    - A raised exception is the [Raise] branch of [result]. *)

From Stdlib Require Import QArith Qcanon OrderedTypeEx Sorted Permutation.
From stdpp Require Import gmap strings pretty list sorting fin_maps.

(** ** Python primitives *)

Module Py.

(** The exception classes the script raises or lets escape. *)
Inductive exn_class :=
| ValueError | IndexError | KeyError | TypeError | RuntimeError
| AssertionError | UnboundLocalError | AttributeError | IOError
| OverflowError | SystemExit.

Record exn := mk_exn { exn_cls : exn_class; exn_msg : string }.

Inductive result (A : Type) :=
| Ok (a : A)
| Raise (e : exn).
Arguments Ok {A} a.
Arguments Raise {A} e.

Global Instance result_ret : MRet result := λ A a, Ok a.
Global Instance result_bind : MBind result := λ A B k r,
  match r with
  | Ok a => k a
  | Raise e => Raise e
  end.

Definition raises {A} (r : result A) (c : exn_class) : Prop :=
  ∃ msg, r = Raise (mk_exn c msg).

Definition index_error : exn :=
  mk_exn IndexError "list index out of range".

(** [l[i]] for [0 <= i]. *)
Definition getitem {A} (l : list A) (i : nat) : result A :=
  match l !! i with
  | Some x => Ok x
  | None => Raise index_error
  end.

(** [l[i] = x] for [0 <= i]; the list is returned updated. *)
Definition setitem {A} (l : list A) (i : nat) (x : A) : result (list A) :=
  if decide (i < length l) then Ok (<[i:=x]> l) else Raise index_error.

(** [enumerate(l)], counting from [i]. *)
Fixpoint enumerate_from {A} (i : nat) (l : list A) : list (nat * A) :=
  match l with
  | [] => []
  | x :: l' => (i, x) :: enumerate_from (S i) l'
  end.

Definition enumerate {A} (l : list A) : list (nat * A) := enumerate_from 0 l.

(** A strict total order given by its boolean [<]. *)
Class StrictTotal {A} (ltb : A → A → bool) := {
  ltb_irrefl x : ltb x x = false;
  ltb_trans x y z : ltb x y = true → ltb y z = true → ltb x z = true;
  ltb_total x y : x = y ∨ ltb x y = true ∨ ltb y x = true
}.

Section Sort.
Context {A : Type} (ltb : A → A → bool).

(** Stable insertion: [x] stood before every element of [l] in the
    input, so it passes only the elements strictly below it. *)
Fixpoint insert_sorted (x : A) (l : list A) : list A :=
  match l with
  | [] => [x]
  | y :: l' => if ltb y x then y :: insert_sorted x l' else x :: y :: l'
  end.

(** [sorted(l)] with [<] given by [ltb]: a stable sort. *)
Definition sort_by (l : list A) : list A := foldr insert_sorted [] l.
End Sort.

(** [sorted(l)] *)
Definition sorted {A} (ltb : A → A → bool) (l : list A) : list A :=
  sort_by ltb l.

(** [sorted(l, reverse=True)]: every comparison is reversed, and equal
    elements keep their order. *)
Definition sorted_reverse {A} (ltb : A → A → bool) (l : list A) : list A :=
  sort_by (λ x y, ltb y x) l.

(** [<] on [str]. *)
Definition str_ltb (s1 s2 : string) : bool := String.ltb s1 s2.

(** [==] and [<] on numbers. *)
Definition num_eqb (x y : Qc) : bool := Qc_eq_bool x y.
Definition num_ltb (x y : Qc) : bool :=
  match (x ?= y)%Qc with Lt => true | _ => false end.

(** [<] on tuples [(number, str)]: the first components decide unless
    they are equal. *)
Definition tuple_ltb (p q : Qc * string) : bool :=
  if num_eqb p.1 q.1 then str_ltb p.2 q.2 else num_ltb p.1 q.1.

(** The number an [int] stands for. *)
Definition num_of_Z (a : Z) : Qc := Q2Qc (inject_Z a).

(** What [x ** 2] raises when the result is out of the range of
    [float]. *)
Definition overflow_error : exn :=
  mk_exn OverflowError "(34, 'Numerical result out of range')".

(** What the interpreter decides: the arithmetic, and the order in
    which a [dict] lists its items.  On [int]s the arithmetic is exact,
    on [float]s its results are rounded; all that is known of it here is
    that it is exact on integers of at most 26 bits, whose differences
    and squares a [float] holds without rounding, and that a square is
    not negative. *)
Class Runtime := {
  (** [x - y] *)
  num_sub : Qc → Qc → Qc;
  (** [x * y] *)
  num_mul : Qc → Qc → Qc;
  (** [x / y], for [y] other than [0] *)
  num_div : Qc → Qc → Qc;
  (** [x ** 2]; [None] when it raises [OverflowError] *)
  num_pow2 : Qc → option Qc;
  (** [d.items()] *)
  dict_items : gmap string (list Qc) → list (string * list Qc);
  num_sub_exact (a b : Z) :
    (- 2 ^ 26 ≤ a ≤ 2 ^ 26)%Z → (- 2 ^ 26 ≤ b ≤ 2 ^ 26)%Z →
    num_sub (num_of_Z a) (num_of_Z b) = num_of_Z (a - b);
  num_pow2_exact (a : Z) :
    (- 2 ^ 26 ≤ a ≤ 2 ^ 26)%Z →
    num_pow2 (num_of_Z a) = Some (num_of_Z (a * a));
  num_pow2_nonneg (x y : Qc) : num_pow2 x = Some y → (0 ≤ y)%Qc;
  dict_items_perm (d : gmap string (list Qc)) : dict_items d ≡ₚ map_to_list d
}.

(** [", ".join(l)] and the like. *)
Fixpoint join (sep : string) (l : list string) : string :=
  match l with
  | [] => ""
  | [s] => s
  | s :: l' => s +:+ sep +:+ join sep l'
  end.

End Py.

Import Py.

(** ** The world of the script: files, directories and the log *)

Module IO.

Inductive level := DEBUG | INFO | WARNING | ERROR.

Record world := mk_world {
  dirs : gset string;            (* the directories that exist *)
  files : gmap string string;    (* the files that exist, with their text *)
  logs : list (level * string)   (* what [logging] has printed *)
}.

Definition set_files (f : gmap string string → gmap string string)
    (w : world) : world :=
  mk_world (dirs w) (f (files w)) (logs w).

Definition add_log (entry : level * string) (w : world) : world :=
  mk_world (dirs w) (files w) (logs w ++ [entry]).

(** A statement of the script: it changes the world, and returns or
    raises. *)
Definition M (A : Type) : Type := world → world * result A.

Global Instance M_ret : MRet M := λ A a w, (w, Ok a).
Global Instance M_bind : MBind M := λ A B k m w,
  match m w with
  | (w', Ok a) => k a w'
  | (w', Raise e) => (w', Raise e)
  end.

Definition raise {A} (e : exn) : M A := λ w, (w, Raise e).

(** A computation that has no effect. *)
Definition lift {A} (r : result A) : M A := λ w, (w, r).

Definition logging (l : level) (msg : string) : M unit :=
  λ w, (add_log (l, msg) w, Ok tt).

(** [os.path.isdir], [os.path.isfile] *)
Definition isdir (path : string) : M bool := λ w, (w, Ok (bool_decide (path ∈ dirs w))).
Definition isfile (path : string) : M bool :=
  λ w, (w, Ok (bool_decide (is_Some (files w !! path)))).

(** The character [/]. *)
Definition is_slash (c : Ascii.ascii) : bool :=
  Ascii.eqb c (Ascii.ascii_of_nat 47).

(** [os.path.split(path)] before the slashes that end the head are
    stripped: the head ends with the last [/] of [path]. *)
Fixpoint split_path (path : string) : string * string :=
  match path with
  | EmptyString => ("", "")
  | String c rest =>
      let '(head, tail) := split_path rest in
      match head with
      | EmptyString =>
          if is_slash c then ("/", rest) else ("", String c rest)
      | _ => (String c head, tail)
      end
  end.

(** [s.rstrip('/')] *)
Fixpoint rstrip_slash (s : string) : string :=
  match s with
  | EmptyString => ""
  | String c rest =>
      match rstrip_slash rest with
      | EmptyString => if is_slash c then "" else String c ""
      | rest' => String c rest'
      end
  end.

(** [os.path.dirname(path)]: the directory a file at [path] is in;
    [""] is the current directory. *)
Definition dirname (path : string) : string :=
  let head := (split_path path).1 in
  match rstrip_slash head with
  | EmptyString => head
  | head' => head'
  end.

(** [os.path.basename(path)] *)
Definition basename (path : string) : string := (split_path path).2.

(** A file can be created or overwritten at [path]: the path names a
    file in a directory that exists, and is not itself a directory.
    The current directory exists.  Paths are compared as they are
    spelled, and every directory can be written to. *)
Definition can_open_w (path : string) (w : world) : bool :=
  bool_decide (path ∉ dirs w) && negb (bool_decide (basename path = ""))
  && bool_decide (dirname path = "" ∨ dirname path ∈ dirs w).

(** What [open] raises. *)
Definition is_a_directory (path : string) : exn :=
  mk_exn IOError ("[Errno 21] Is a directory: '" +:+ path +:+ "'").
Definition no_such_file_or_directory (path : string) : exn :=
  mk_exn IOError ("[Errno 2] No such file or directory: '" +:+ path +:+ "'").

(** [open(path, 'w')]: the file is created, or emptied; [IOError] when
    that cannot be. *)
Definition open_w (path : string) : M unit :=
  λ w, if can_open_w path w then (set_files (insert path "") w, Ok tt)
       else if bool_decide (path ∈ dirs w ∨
                            (basename path = "" ∧ dirname path ∈ dirs w))
       then (w, Raise (is_a_directory path))
       else (w, Raise (no_such_file_or_directory path)).

(** [fh.write(s)] on the file opened at [path]. *)
Definition fh_write (path : string) (s : string) : M unit :=
  λ w, (set_files (alter (λ text, text +:+ s) path) w, Ok tt).

(** [SystemExit] is the one exception here that [except Exception]
    lets through. *)
Definition is_Exception (e : exn) : bool :=
  match exn_cls e with SystemExit => false | _ => true end.

(** [try: body / except Exception as e: handler] *)
Definition try_except {A} (body : M A) (handler : exn → M A) : M A :=
  λ w, match body w with
       | (w', Raise e) => if is_Exception e then handler e w' else (w', Raise e)
       | r => r
       end.

(** [assert cond, msg]; Python drops the statement when [__debug__] is
    false (option [-O]). *)
Definition assert_ (debug : bool) (cond : bool) (msg : string) : M unit :=
  if debug && negb cond then raise (mk_exn AssertionError msg) else mret tt.

(** A line of a tab separated file: ["%s\n" % "\t".join(row)]. *)
Definition tab : string := String (Ascii.ascii_of_nat 9) "".
Definition newline : string := String (Ascii.ascii_of_nat 10) "".
Definition tsv_line (row : list string) : string := join tab row +:+ newline.

(** The text of a file that holds the lines [rows]. *)
Definition tsv (rows : list (list string)) : string :=
  foldr (λ row text, tsv_line row +:+ text) "" rows.

End IO.

Import IO.

(** ** The configuration and the libraries the script calls *)

Module Config.

(** The [class_query] of the YAML file: the rank under key [class],
    the filter under key [where], and the other keys it has, in the
    order [vars(query)] lists them. *)
Record class_query := mk_class_query {
  cq_class : option string;
  cq_where : option (list (string * string));
  cq_unknown : list string
}.

(** An entry of [output_functions] of feature [shape_360]. *)
Inductive output_function :=
| mean_sd
| of_color_histograms (f_args : list (string * list Z))
| other_function (f_name : string).

(** An entry of [features], with its arguments as [__make_header]
    reads them; an argument that is absent is [None]. *)
Inductive feature :=
| color_histograms (args : list (string * list Z))
| color_bgr_means (bins : option Z)
| shape_outline (k : option Z)
| shape_360 (step : option Z) (output_functions : option (list output_function))
| other_feature (name : string).

(** The configurations object, as far as the script reads it. *)
Record config := mk_config {
  cfg_class_query : option class_query;        (* config.class_query *)
  cfg_features : option (list feature);         (* config.features *)
  cfg_dependent_prefix : option string;         (* config.data.dependent_prefix *)
  cfg_output_folder : option string             (* config.preprocess.segmentation.output_folder *)
}.

(** A sample of [nbc.TrainData]: label, input and output. *)
Definition sample : Type := option string * list Qc * list Qc.

(** What the script runs on: the interpreter, and the libraries behind
    the script (the database, the feature extraction, numpy, the neural
    network and string formatting). *)
Class Externals := {
  runtime :: Runtime;
  (** entering [session_scope(db_path)] *)
  session_scope : string → result unit;
  (** [list(q)] for the query of [query_images_classes] *)
  run_images_query : string → class_query → result (list (string * string));
  (** [[x[1] for x in q]] for the query of [query_classes] *)
  run_classes_query : string → class_query → result (list string);
  (** [phenotyper.set_image(path); phenotyper.set_config(config)] *)
  phenotyper_set : config → string → result unit;
  (** [phenotyper.make()] for the image and configuration set *)
  phenotyper_make : config → string → result (list Qc);
  (** [self.ann.run(input)] for the network read from a file *)
  ann_run : string → list Qc → list Qc;
  (** numpy: rounding to 6 decimals, and [astype(str)] *)
  round6 : Qc → Qc;
  astype_str : Qc → string;
  (** ["%.3f" % x], ["%.1f%%" % x], ["%s" % class_query] *)
  format_3f : Qc → string;
  format_1f_percent : Qc → string;
  str_of_query : class_query → string;
  (** [os.path.join] *)
  path_join : string → string → string;
  (** [open_yaml(path)]: the YAML file read into a configurations object *)
  open_yaml : option string → M config;
  (** [MakeAnn(config, args).train(data, output)], which drives the
      training library *)
  MakeAnn_train : config → option Qc → option Qc → string → string → M unit;
  (** [TestAnn.test(ann_file, test_file)], which reads the test data
      and has the network of [ann_file] tested on it; the test data
      are returned *)
  TestAnn_test : config → string → string → M (list sample)
}.

End Config.

Import Config.

(** ** [class Common] *)

Module Common.

Section Codewords.
Context {V : Type}.

(** The body of the loop of [get_codewords], over what is left of
    [enumerate(sorted(classes))]. *)
Fixpoint codewords_loop (n : nat) (neg pos : V)
    (items : list (nat * string)) (codewords : gmap string (list V))
    : result (gmap string (list V)) :=
  match items with
  | [] => Ok codewords
  | (i, class_) :: rest =>
      cw ← setitem (replicate n neg) i pos;
      codewords_loop n neg pos rest (<[class_ := cw]> codewords)
  end.

(** [Common.get_codewords(classes, neg, pos)] *)
Definition get_codewords (classes : list string) (neg pos : V)
    : result (gmap string (list V)) :=
  let n := length classes in
  codewords_loop n neg pos (enumerate (sorted str_ltb classes)) ∅.
End Codewords.

(** The defaults [neg=-1, pos=1]. *)
Definition default_neg : Qc := (- 1)%Qc.
Definition default_pos : Qc := 1%Qc.

Definition value_error : exn :=
  mk_exn ValueError "Lenth of `codewords` must be equal to `codeword`".

Section Classification.
Context `{Runtime}.

(** [x ** 2] *)
Definition pow2 (x : Qc) : result Qc :=
  match num_pow2 x with
  | Some y => Ok y
  | None => Raise overflow_error
  end.

(** The inner loop of [get_classification], over what is left of
    [enumerate(cw)]; [classes] is the list being appended to. *)
Fixpoint scan_codeword (cls : string) (codeword : list Qc) (error : Qc)
    (items : list (nat * Qc)) (classes : list (Qc * string))
    : result (list (Qc * string)) :=
  match items with
  | [] => Ok classes
  | (i, code) :: rest =>
      if num_eqb code 1 then
        x ← getitem codeword i;
        square ← pow2 (num_sub code x);
        if num_ltb square error
        then scan_codeword cls codeword error rest (classes ++ [(x, cls)])
        else scan_codeword cls codeword error rest classes
      else scan_codeword cls codeword error rest classes
  end.

(** The outer loop, over what is left of [codewords.items()]. *)
Fixpoint scan_codewords (codeword : list Qc) (error : Qc)
    (items : list (string * list Qc)) (classes : list (Qc * string))
    : result (list (Qc * string)) :=
  match items with
  | [] => Ok classes
  | (cls, cw) :: rest =>
      classes' ← scan_codeword cls codeword error (enumerate cw) classes;
      scan_codewords codeword error rest classes'
  end.

(** [get_classification] once [codewords.items()] has been listed in
    the order [items]. *)
Definition classification_of_items (n_codewords : nat)
    (items : list (string * list Qc)) (codeword : list Qc) (error : Qc)
    : result (list string) :=
  if decide (n_codewords ≠ length codeword) then Raise value_error
  else
    classes ← scan_codewords codeword error items [];
    Ok ((sorted_reverse tuple_ltb classes).*2).

(** [Common.get_classification(codewords, codeword, error)] *)
Definition get_classification (codewords : gmap string (list Qc))
    (codeword : list Qc) (error : Qc) : result (list string) :=
  classification_of_items (size codewords) (dict_items codewords)
    codeword error.
End Classification.

Section Queries.
Context `{Externals}.

(** [Common.set_config(config)]; the object keeps [config]. *)
Definition set_config (config : config) : M unit :=
  match cfg_output_folder config with
  | Some path =>
      if bool_decide (path = "") then mret tt
      else
        found ← isdir path;
        if found : bool then mret tt
        else
          logging ERROR "Found a configuration error";;
          raise (mk_exn IOError ("Cannot open " +:+ path +:+ " (no such directory)"))
  | None => mret tt
  end.

(** The tests at the head of [query_images_classes] and of
    [query_classes]. *)
Definition check_query (query : class_query) : result unit :=
  match cq_class query with
  | None => Raise (mk_exn ValueError "The query is missing the 'class' key")
  | Some _ =>
      match cq_unknown query with
      | key :: _ =>
          Raise (mk_exn ValueError ("Unknown key '" +:+ key +:+ "' in query"))
      | [] => Ok tt
      end
  end.

Definition no_class_query : exn :=
  mk_exn RuntimeError
    "Classification query not set in the configuration file. Option 'class_query' is missing.".

(** [self.config.class_query], inside [try ... except: raise
    RuntimeError(...)]. *)
Definition get_class_query (config : config) : result class_query :=
  match cfg_class_query config with
  | Some q => Ok q
  | None => Raise no_class_query
  end.

(** [list(self.query_images_classes(session, metadata, query))] *)
Definition query_images_classes (db_path : string) (query : class_query)
    : result (list (string * string)) :=
  check_query query;; run_images_query db_path query.

(** [[x[1] for x in self.query_classes(session, metadata, query)]] *)
Definition query_classes (db_path : string) (query : class_query)
    : result (list string) :=
  check_query query;; run_classes_query db_path query.
End Queries.

End Common.

(** ** [class MakeTrainData] *)

Module MakeTrainData.
Import Common.

(** A [for] loop whose body may raise: [s] is what the body updates. *)
Fixpoint foldM {A S} (body : S → A → result S) (s : S) (l : list A)
    : result S :=
  match l with
  | [] => Ok s
  | x :: l' => s' ← body s x; foldM body s' l'
  end.

(** [range(start, stop)] *)
Definition range (start stop : Z) : list Z := seqZ start (stop - start).

(** [range(start, stop, step)] *)
Definition range_step (start stop step : Z) : result (list Z) :=
  if decide (step = 0)%Z
  then Raise (mk_exn ValueError "range() step argument must not be zero")
  else if decide (0 < step)%Z
  then Ok ((λ k, start + k * step)%Z <$> seqZ 0 ((stop - start + step - 1) `div` step))
  else Ok ((λ k, start + k * step)%Z <$> seqZ 0 ((start - stop - step - 1) `div` (- step))).

(** [s[i]] on a [str]. *)
Definition str_getitem (s : string) (i : nat) : result string :=
  match String.get i s with
  | Some c => Ok (String c "")
  | None => Raise (mk_exn IndexError "string index out of range")
  end.

Definition OUTPUT_PREFIX : string := "OUT:".

(** The columns of [color_histograms]: [args] maps a colour space to
    its numbers of bins. *)
Definition header_color_histograms (args : list (string * list Z))
    (data : list string) : result (list string) :=
  foldM (λ data '(colorspace, bins),
    foldM (λ data '(ch, n),
      foldM (λ data i,
        c ← str_getitem colorspace ch;
        Ok (data ++ [c +:+ ":" +:+ pretty i]))
      data (range 1 (n + 1)))
    data (enumerate bins))
  data args.

Definition header_color_bgr_means (bins : option Z) (data : list string)
    : list string :=
  let bins := default 20%Z bins in
  data ++ (i ← range 1 (bins + 1);
           axis ← ["HOR"; "VER"];
           ch ← ["B"; "G"; "R"];
           ["BGR_MN:" +:+ pretty i +:+ "." +:+ axis +:+ "." +:+ ch]).

Definition header_shape_outline (k : option Z) (data : list string)
    : list string :=
  let n := default 15%Z k in
  data ++ (i ← range 1 (n + 1);
           ["OUTLINE:" +:+ pretty i +:+ ".X"; "OUTLINE:" +:+ pretty i +:+ ".Y"]).

(** The columns of [shape_360].  Without [output_functions] the
    default is a [dict], on which [vars] raises [TypeError]. *)
Definition header_shape_360 (step : option Z)
    (output_functions : option (list output_function))
    (data : list string) : result (list string) :=
  let step := default 1%Z step in
  match output_functions with
  | None =>
      Raise (mk_exn TypeError "vars() argument must have __dict__ attribute")
  | Some fns =>
      foldM (λ data fn,
        match fn with
        | mean_sd =>
            angles ← range_step 0 360 step;
            Ok (data ++ (i ← angles;
                         ["360:" +:+ pretty i +:+ ".MN";
                          "360:" +:+ pretty i +:+ ".SD"]))
        | of_color_histograms f_args =>
            angles ← range_step 0 360 step;
            foldM (λ data i,
              foldM (λ data '(cs, bins),
                foldM (λ data '(j, color),
                  n ← getitem bins j;
                  Ok (data ++ (k ← range 1 (n + 1);
                               ["360:" +:+ pretty i +:+ "." +:+ String color ""
                                  +:+ ":" +:+ pretty k])))
                data (enumerate (String.list_ascii_of_string cs)))
              data f_args)
            data angles
        | other_function _ => Ok data
        end)
      data fns
  end.

(** [MakeTrainData.__make_header(n_out)]: the data columns and the
    output columns. *)
Definition __make_header (config : config) (n_out : nat)
    : result (list string * list string) :=
  match cfg_features config with
  | None => Raise (mk_exn ValueError "Features not set in configuration")
  | Some features =>
      data ← foldM (λ data feature,
        match feature with
        | color_histograms args => header_color_histograms args data
        | color_bgr_means bins => Ok (header_color_bgr_means bins data)
        | shape_outline k => Ok (header_shape_outline k data)
        | shape_360 step fns => header_shape_360 step fns data
        | other_feature _ => Ok data
        end) [] features;
      let out_prefix := default OUTPUT_PREFIX (cfg_dependent_prefix config) in
      let out := (λ i, out_prefix +:+ pretty i) <$> range 1 (Z.of_nat n_out + 1) in
      Ok (data, out)
  end.

(** Modelled from the spec: [nbc.TrainData], of the package nbclassify,
    is not among the sources.  It holds the fixed-width feature vectors
    with their codewords and labels, and yields them in the order they
    were appended. *)
Record TrainData := mk_TrainData {
  num_input : nat;
  num_output : nat;
  samples : list sample
}.

(** [training_data.append(input, output, label=label)] *)
Definition TrainData_append (td : TrainData) (input output : list Qc)
    (label : option string) : TrainData :=
  mk_TrainData (num_input td) (num_output td)
    (samples td ++ [(label, input, output)]).

(** The object: [self.config], [self.base_path], [self.db_path]. *)
Record t := mk_t {
  config : config;
  base_path : string;
  db_path : string
}.

Section Exporting.
Context `{Externals}.

(** [training_data.round_input(6)], after [finalize()]. *)
Definition TrainData_round_input (td : TrainData) : TrainData :=
  mk_TrainData (num_input td) (num_output td)
    ((λ s : sample,
        let '(label, input, output) := s in
        ((label, round6 <$> input, output) : sample))
       <$> samples td).

Definition set_base_path (path : string) : M unit :=
  found ← isdir path;
  if found : bool then mret tt
  else raise (mk_exn IOError ("Cannot open " +:+ path +:+ " (no such directory)")).

Definition set_db_path (path : string) : M unit :=
  found ← isfile path;
  if found : bool then mret tt
  else raise (mk_exn IOError ("Cannot open " +:+ path +:+ " (no such file)")).

(** [MakeTrainData(config, base_path, db_path)] *)
Definition __init__ (config : Config.config) (base_path db_path : string)
    : M t :=
  set_config config;;
  set_base_path base_path;;
  set_db_path db_path;;
  mret (mk_t config base_path db_path).

(** [codewords[im_class]] *)
Definition dict_getitem {V} (d : gmap string V) (key : string) : result V :=
  match d !! key with
  | Some v => Ok v
  | None => Raise (mk_exn KeyError key)
  end.

(** The first [with] block of [export]: the query and its rows. *)
Definition export_query (self : t)
    : result (class_query * list (string * string)) :=
  session_scope (db_path self);;
  class_query ← get_class_query (config self);
  images ← query_images_classes (db_path self) class_query;
  Ok (class_query, images).

(** The loop over the images; [training_data] and [failed] are what
    it appends to. *)
Fixpoint export_images (debug : bool) (self : t)
    (codewords : gmap string (list Qc)) (header_data : list string)
    (images : list (string * string))
    (training_data : TrainData) (failed : list string)
    : M (TrainData * list string) :=
  match images with
  | [] => mret (training_data, failed)
  | (im_path, im_class) :: rest =>
      logging INFO ("Processing " +:+ im_path +:+ " of class " +:+ im_class +:+ "...");;
      let im_path_real := path_join (base_path self) im_path in
      match phenotyper_set (config self) im_path_real with
      | Raise _ =>
          logging WARNING ("Failed to read " +:+ im_path_real +:+ ". Skipping.");;
          export_images debug self codewords header_data rest
            training_data (failed ++ [im_path_real])
      | Ok _ =>
          phenotype ← lift (phenotyper_make (config self) im_path_real);
          assert_ debug
            (bool_decide (length phenotype = length header_data))
            "Data length mismatch";;
          codeword ← lift (dict_getitem codewords im_class);
          export_images debug self codewords header_data rest
            (TrainData_append training_data phenotype codeword (Some im_path))
            failed
      end
  end.

(** The fields of a data row. *)
Definition data_row (label : string) (input output : list Qc)
    : list string :=
  [label] ++ (astype_str <$> input) ++ (astype_str <$> output).

(** The loop that writes the data rows. *)
Fixpoint write_rows (filename : string) (rows : list sample) : M unit :=
  match rows with
  | [] => mret tt
  | (label, input, output) :: rest =>
      match label with
      | Some label =>
          fh_write filename (tsv_line (data_row label input output));;
          write_rows filename rest
      | None =>
          raise (mk_exn TypeError "sequence item 0: expected string, NoneType found")
      end
  end.

Fixpoint log_failed (failed : list string) : M unit :=
  match failed with
  | [] => mret tt
  | path :: rest => logging WARNING ("- " +:+ path);; log_failed rest
  end.

(** [MakeTrainData.export(filename)]; [debug] is [__debug__], which
    decides whether [assert] is executed. *)
Definition export (debug : bool) (self : t) (filename : string) : M unit :=
  '(class_query, images) ← lift (export_query self);
  if bool_decide (length images = 0) then
    logging INFO ("No images found for the query " +:+ str_of_query class_query)
  else
    logging INFO ("Going to process " +:+ pretty (length images) +:+ " photos...");;
    let classes : gset string := list_to_set (images.*2) in
    codewords ← lift (get_codewords (elements classes) default_neg default_pos);
    '(header_data, header_out) ← lift (__make_header (config self) (size classes));
    let header := ["ID"] ++ header_data ++ header_out in
    open_w filename;;
    fh_write filename (tsv_line header);;
    '(training_data, failed) ←
      export_images debug self codewords header_data images
        (mk_TrainData (length header_data) (size classes) []) [];
    let training_data := TrainData_round_input training_data in
    write_rows filename (samples training_data);;
    logging INFO ("Training data written to " +:+ filename);;
    if bool_decide (0 < length failed) then
      logging WARNING "Some files could not be processed:";;
      log_failed failed
    else mret tt.
End Exporting.

End MakeTrainData.

(** ** [class TestAnn] *)

Module TestAnn.
Import Common.

(** The object: [self.config], [self.ann] (the file the network was
    read from) and [self.test_data]. *)
Record t := mk_t {
  config : config;
  ann : option string;
  test_data : option (list sample)
}.

(** The number a counter stands for. *)
Definition num_of_nat (n : nat) : Qc := num_of_Z (Z.of_nat n).

Section ExportResults.
Context `{Externals}.

(** [TestAnn(config)] *)
Definition __init__ (config : Config.config) : M t :=
  set_config config;;
  mret (mk_t config None None).

(** [tester.test(ann_file, test_file)] *)
Definition test (self : t) (ann_file test_file : string) : M t :=
  data ← TestAnn_test (config self) ann_file test_file;
  mret (mk_t (config self) (Some ann_file) (Some data)).

(** The first [with] block of [export_results]. *)
Definition results_query (self : t) (db_path : string)
    : result (class_query * list string) :=
  session_scope db_path;;
  class_query ← get_class_query (config self);
  classes ← query_classes db_path class_query;
  Ok (class_query, classes).

(** [self.ann.run(input)] *)
Definition self_ann_run (self : t) (input : list Qc) : result (list Qc) :=
  match ann self with
  | Some ann_file => Ok (ann_run ann_file input)
  | None =>
      Raise (mk_exn AttributeError "'NoneType' object has no attribute 'run'")
  end.

Definition length_mismatch (n_codewords n_output : nat) : exn :=
  mk_exn RuntimeError
    ("Codeword length (" +:+ pretty n_codewords +:+
     ") does not match the output length (" +:+ pretty n_output +:+
     "). Please make sure the test data matches the class query in the configurations file.").

(** The counters of the loop: [total], [correct] and [fraction],
    which is unbound until the first sample has been written. *)
Definition counters : Type := nat * nat * option Qc.

(** The loop over the test data. *)
Fixpoint results_loop (debug : bool) (self : t) (filename : string)
    (error : Qc) (codewords : gmap string (list Qc))
    (data : list sample) (st : counters) : M counters :=
  match data with
  | [] => mret st
  | (label, input, output) :: rest =>
      let '(total, correct, _) := st in
      let total := total + 1 in
      let row := [default "" label] in
      if bool_decide (size codewords ≠ length output) then
        raise (length_mismatch (size codewords) (length output))
      else
        class_expected ← lift (get_classification codewords output error);
        assert_ debug (bool_decide (length class_expected = 1))
          "The codeword for a class can only have one positive value";;
        expected ← lift (getitem class_expected 0);
        let row := row ++ [expected] in
        codeword ← lift (self_ann_run self input);
        class_ann ← lift (get_classification codewords codeword error);
        let row := row ++ [join ", " class_ann] in
        let matched := bool_decide (head class_ann = Some expected) in
        let row := row ++ [if matched then "+" else "-"] in
        let correct := if matched then correct + 1 else correct in
        fh_write filename (tsv_line row);;
        let fraction := num_div (num_of_nat correct) (num_of_nat total) in
        results_loop debug self filename error codewords rest
          (total, correct, Some fraction)
  end.

(** [TestAnn.export_results(filename, db_path, error)] *)
Definition export_results (debug : bool) (self : t)
    (filename db_path : string) (error : Qc) : M unit :=
  match test_data self with
  | None => raise (mk_exn RuntimeError "Test data is not set")
  | Some data =>
      '(class_query, classes) ← lift (results_query self db_path);
      if bool_decide (length classes = 0) then
        raise (mk_exn RuntimeError
                 ("No classes found for query " +:+ str_of_query class_query))
      else
        open_w filename;;
        fh_write filename (tsv_line ["ID"; "Class"; "Classification"; "Match"]);;
        codewords ← lift (get_codewords classes default_neg default_pos);
        '(_, _, fraction) ←
          results_loop debug self filename error codewords data (0, 0, None);
        match fraction with
        | None =>
            raise (mk_exn UnboundLocalError
                     "local variable 'fraction' referenced before assignment")
        | Some fraction =>
            fh_write filename (tsv_line [""; ""; ""; format_3f fraction]);;
            logging INFO
              ("Correctly classified: "
               +:+ format_1f_percent (num_mul fraction (num_of_Z 100)));;
            logging INFO ("Testing results written to " +:+ filename)
        end
  end.
End ExportResults.

End TestAnn.

(** ** [class ImageClassifier] *)

Module ImageClassifier.
Import Common.

(** The object: [self.config], [self.ann] (the file the network was
    read from) and [self.classes]. *)
Record t := mk_t {
  config : config;
  ann : string;
  classes : list string
}.

Section Classify.
Context `{Externals}.

Definition set_ann (path : string) : M unit :=
  found ← isfile path;
  if found : bool then mret tt
  else raise (mk_exn IOError ("Cannot open " +:+ path +:+ " (no such file)")).

(** The [with] block of the constructor: the class names. *)
Definition classes_query (config : Config.config) (db_file : string)
    : result (list string) :=
  session_scope db_file;;
  class_query ← get_class_query config;
  query_classes db_file class_query.

(** [ImageClassifier(config, ann_file, db_file)] *)
Definition __init__ (config : Config.config) (ann_file db_file : string)
    : M t :=
  set_config config;;
  set_ann ann_file;;
  classes ← lift (classes_query config db_file);
  mret (mk_t config ann_file classes).

(** [ImageClassifier.classify(image_path, error)] *)
Definition classify (self : t) (image_path : string) (error : Qc)
    : result (list string) :=
  phenotyper_set (config self) image_path;;
  phenotype ← phenotyper_make (config self) image_path;
  let codeword := ann_run (ann self) phenotype in
  codewords ← get_codewords (classes self) default_neg default_pos;
  get_classification codewords codeword error.
End Classify.

End ImageClassifier.

(** ** The script: [main] *)

Module Main.

(** The parsed command line: [sys.argv[1]] with the arguments of its
    parser. *)
Inductive command :=
| cmd_data (conf : string) (db : option string) (output basepath : string)
| cmd_ann (conf : option string) (epochs error : option Qc)
    (output data : string)
| cmd_test_ann (ann : string) (db output conf : option string) (error : Qc)
    (data : string)
| cmd_classify (ann conf db : string) (error : Qc) (image : string).

(** [sys.exit(arg)] *)
Definition sys_exit {A} (arg : string) : M A := raise (mk_exn SystemExit arg).

(** Python's truth value of an optional [str]. *)
Definition truthy (s : option string) : bool :=
  match s with
  | Some s => negb (bool_decide (s = ""))
  | None => false
  end.

Section Script.
Context `{Externals}.

(** The statements of each task, without the [try] around them. *)
Definition task_data (debug : bool) (conf db output basepath : string)
    : M unit :=
  config ← open_yaml (Some conf);
  train_data ← MakeTrainData.__init__ config basepath db;
  MakeTrainData.export debug train_data output.

Definition task_ann (conf : option string) (epochs error : option Qc)
    (output data : string) : M unit :=
  config ← open_yaml conf;
  MakeAnn_train config epochs error data output.

Definition task_test_ann (debug : bool) (ann : string)
    (db output conf : option string) (error : Qc) (data : string)
    : M unit :=
  config ← open_yaml conf;
  tester ← TestAnn.__init__ config;
  tester ← TestAnn.test tester ann data;
  if truthy output then
    if negb (truthy db)
    then sys_exit "Option --output must be used together with --db"
    else TestAnn.export_results debug tester
           (default "" output) (default "" db) error
  else mret tt.

Definition task_classify (ann conf db : string) (error : Qc)
    (image : string) : M unit :=
  config ← open_yaml (Some conf);
  classifier ← ImageClassifier.__init__ config ann db;
  class_ ← lift (ImageClassifier.classify classifier image error);
  logging INFO ("Image is classified as " +:+ join ", " class_).

(** The task [cmd] names. *)
Definition task (debug : bool) (cmd : command) : M unit :=
  match cmd with
  | cmd_data conf db output basepath =>
      let db := default (path_join basepath "photos.db") db in
      task_data debug conf db output basepath
  | cmd_ann conf epochs error output data =>
      task_ann conf epochs error output data
  | cmd_test_ann ann db output conf error data =>
      task_test_ann debug ann db output conf error data
  | cmd_classify ann conf db error image =>
      task_classify ann conf db error image
  end.

(** [main()], once the command line has been parsed. *)
Definition main (debug : bool) (cmd : command) : M unit :=
  match cmd with
  | cmd_data _ _ _ _ =>
      try_except (task debug cmd)
        (λ e, logging ERROR (exn_msg e);; raise e)
  | cmd_ann _ _ _ _ _ =>
      try_except (task debug cmd)
        (λ e, logging ERROR (exn_msg e))
  | cmd_test_ann _ _ _ _ _ _ => task debug cmd
  | cmd_classify _ _ _ _ _ => task debug cmd
  end;;
  sys_exit "".
End Script.

End Main.

(** * Vocabulary of the properties *)

Module Spec.

(** [x] is not above [y] in the order of [ltb]. *)
Definition not_above {A} (ltb : A → A → bool) (x y : A) : Prop :=
  ltb y x = false.

(** The codeword of length [n] with [pos] at index [i] and [neg]
    elsewhere. *)
Definition one_hot {V} (n : nat) (neg pos : V) (i : nat) : list V :=
  <[i:=pos]> (replicate n neg).

(** The dictionary the loop of [get_codewords] builds from [items] when
    no index is out of range. *)
Definition codewords_of {V} (n : nat) (neg pos : V)
    (items : list (nat * string)) (codewords : gmap string (list V))
    : gmap string (list V) :=
  foldl (λ d '(i, class_), <[class_ := one_hot n neg pos i]> d) codewords items.

(** C9 as it is stated: the dictionary would depend on the set of the
    names alone. *)
Definition codewords_depend_on_set_only (classes1 classes2 : list string)
    : Prop :=
  list_to_set classes1 =@{gset string} list_to_set classes2 →
  Common.get_codewords classes1 (-1)%Z 1%Z
  = Common.get_codewords classes2 (-1)%Z 1%Z.

Section Decoding.
Context `{Runtime}.

(** [(1 - x) ** 2] can be computed, and is below [error]. *)
Definition within (error x : Qc) : Prop :=
  ∃ square, num_pow2 (num_sub 1 x) = Some square ∧ (square < error)%Qc.

(** Where the stored codeword has a [1], [codeword[i]] can be read and
    its distance to [1] can be squared. *)
Definition safe_item (codeword : list Qc) (item : nat * Qc) : bool :=
  negb (num_eqb item.2 1)
  || match codeword !! item.1 with
     | Some x => bool_decide (is_Some (num_pow2 (num_sub 1 x)))
     | None => false
     end.

Definition safe_items (codeword : list Qc)
    (items : list (string * list Qc)) : bool :=
  forallb (λ '(_, cw), forallb (safe_item codeword) (enumerate cw)) items.

(** What the first position that is not safe raises. *)
Fixpoint codeword_error (codeword : list Qc) (items : list (nat * Qc))
    : exn :=
  match items with
  | [] => index_error
  | item :: rest =>
      if safe_item codeword item then codeword_error codeword rest
      else match codeword !! item.1 with
           | Some _ => overflow_error
           | None => index_error
           end
  end.

Fixpoint codewords_error (codeword : list Qc)
    (items : list (string * list Qc)) : exn :=
  match items with
  | [] => index_error
  | (_, cw) :: rest =>
      if forallb (safe_item codeword) (enumerate cw)
      then codewords_error codeword rest
      else codeword_error codeword (enumerate cw)
  end.

(** What one position of the codeword of [cls] adds to the list. *)
Definition hit (cls : string) (codeword : list Qc) (error : Qc)
    (item : nat * Qc) : list (Qc * string) :=
  if num_eqb item.2 1 then
    match codeword !! item.1 with
    | Some x =>
        match num_pow2 (num_sub 1 x) with
        | Some square => if num_ltb square error then [(x, cls)] else []
        | None => []
        end
    | None => []
    end
  else [].

(** What the two loops of [get_classification] collect. *)
Definition hits (codeword : list Qc) (error : Qc)
    (items : list (string * list Qc)) : list (Qc * string) :=
  '(cls, cw) ← items; enumerate cw ≫= hit cls codeword error.

(** The same, each with the position it comes from. *)
Definition hits_at (codeword : list Qc) (error : Qc)
    (items : list (string * list Qc)) : list (Qc * string * nat) :=
  '(cls, cw) ← items;
  '(i, code) ← enumerate cw;
  (λ p, (p, i)) <$> hit cls codeword error (i, code).

(** The codeword of [cls] has a [1] at position [i], where the output
    vector has [x], and [(1 - x) ** 2], as the interpreter computes it,
    is below [error]. *)
Definition matches (codewords : gmap string (list Qc)) (codeword : list Qc)
    (error : Qc) (x : Qc) (cls : string) (i : nat) : Prop :=
  ∃ cw, codewords !! cls = Some cw ∧ cw !! i = Some 1%Qc ∧
        codeword !! i = Some x ∧ within error x.

(** The order of [sorted(..., reverse=True)] on the tuples
    [(codeword[i], cls)]: the greater output first, and of two classes
    with the same output the one whose name is not the smaller. *)
Definition ranks_before (p q : Qc * string) : Prop :=
  (q.1 < p.1)%Qc ∨ (q.1 = p.1 ∧ str_ltb p.2 q.2 = false).

(** The classification is the names of [ranked], which lists every
    matching position of every class once, ranked by the outputs. *)
Definition decodes_to (codewords : gmap string (list Qc))
    (codeword : list Qc) (error : Qc) (ranked : list (Qc * string * nat))
    : Prop :=
  Common.get_classification codewords codeword error = Ok (ranked.*1.*2) ∧
  NoDup ranked ∧
  (∀ x cls i, (x, cls, i) ∈ ranked ↔ matches codewords codeword error x cls i) ∧
  StronglySorted (λ p q, ranks_before p.1 q.1) ranked.

(** C2 as it is stated, at one input. *)
Definition decodes_ranked (codewords : gmap string (list Qc))
    (codeword : list Qc) (error : Qc) : Prop :=
  size codewords = length codeword →
  ∃ ranked, decodes_to codewords codeword error ranked.
End Decoding.

(** The file at [path] holds [text]. *)
Definition holds (path text : string) (w : world) : Prop :=
  files w !! path = Some text.

(** A sample as [export] wants it: labelled, with [n_in] inputs and
    [n_out] outputs. *)
Definition fixed_width (n_in n_out : nat) (s : sample) : Prop :=
  is_Some s.1.1 ∧ length s.1.2 = n_in ∧ length s.2 = n_out.

(** Every image of the query that can be read and has a phenotype has
    one of [n] numbers. *)
Definition phenotypes_fit `{Externals} (self : MakeTrainData.t)
    (images : list (string * string)) (n : nat) : Prop :=
  ∀ image phenotype, image ∈ images →
    let im_path_real := path_join (MakeTrainData.base_path self) image.1 in
    phenotyper_set (MakeTrainData.config self) im_path_real = Ok () →
    phenotyper_make (MakeTrainData.config self) im_path_real = Ok phenotype →
    length phenotype = n.

Definition is_tab (c : Ascii.ascii) : bool :=
  Ascii.eqb c (Ascii.ascii_of_nat 9).
Definition is_newline (c : Ascii.ascii) : bool :=
  Ascii.eqb c (Ascii.ascii_of_nat 10).

(** The number of tab separated fields of a line: one more than it
    has tabs. *)
Fixpoint n_fields (line : string) : nat :=
  match line with
  | EmptyString => 1
  | String c rest => if is_tab c then S (n_fields rest) else n_fields rest
  end.

(** The lines of [text], without their line breaks, after the line
    [line] that is being read. *)
Fixpoint lines_from (line text : string) : list string :=
  match text with
  | EmptyString => match line with EmptyString => [] | _ => [line] end
  | String c rest =>
      if is_newline c then line :: lines_from "" rest
      else lines_from (line +:+ String c "") rest
  end.

(** The lines of a text. *)
Definition text_lines (text : string) : list string := lines_from "" text.

(** The field holds no tab and no line break. *)
Fixpoint clean (field : string) : bool :=
  match field with
  | EmptyString => true
  | String c rest => negb (is_tab c) && negb (is_newline c) && clean rest
  end.

(** The text has no line break. *)
Fixpoint one_line (s : string) : bool :=
  match s with
  | EmptyString => true
  | String c rest => negb (is_newline c) && one_line rest
  end.

(** The text has the line [header] and below it lines that all have
    [n] fields, as [header] has. *)
Definition fixed_width_text (header : string) (n : nat) (text : string)
    : Prop :=
  ∃ rows, text_lines text = header :: rows ∧
          Forall (λ line, n_fields line = n) (header :: rows).

(** C7 as it is stated, for one run that gets to write: the
    phenotypes that fit are all that is asked. *)
Definition rows_fixed_width `{Externals} (self : MakeTrainData.t)
    (filename : string) (w : world) : Prop :=
  ∀ class_query images header_data header_out,
    let classes : gset string := list_to_set (images.*2) in
    let header := ["ID"] ++ header_data ++ header_out in
    MakeTrainData.export_query self = Ok (class_query, images) →
    MakeTrainData.__make_header (MakeTrainData.config self) (size classes)
      = Ok (header_data, header_out) →
    phenotypes_fit self images (length header_data) →
    images ≠ [] → can_open_w filename w = true →
    ∀ debug,
      ∃ text,
        files (MakeTrainData.export debug self filename w).1 !! filename
          = Some text ∧
        fixed_width_text (join tab header)
          (1 + length header_data + size classes) text.

(** A sample that [export] makes of one of [images]. *)
Definition sample_of (images : list (string * string)) (n_in n_out : nat)
    (s : sample) : Prop :=
  fixed_width n_in n_out s ∧ ∃ image, image ∈ images ∧ s.1.1 = Some image.1.

(** The row [export] writes for a sample. *)
Definition row_of_sample `{Externals} (s : sample) : list string :=
  MakeTrainData.data_row (default "" s.1.1) s.1.2 s.2.

(** The header line of the results. *)
Definition results_header : list string :=
  ["ID"; "Class"; "Classification"; "Match"].

(** The classification is not empty and its first class is the
    expected one. *)
Definition is_match (expected : string) (class_ann : list string) : bool :=
  match class_ann with
  | first :: _ => bool_decide (first = expected)
  | [] => false
  end.

(** The row of a sample whose target codeword decodes to [expected] and
    which the network classifies as [class_ann]. *)
Definition result_row (s : sample) (expected : string)
    (class_ann : list string) : list string :=
  [default "" s.1.1; expected; join ", " class_ann;
   if is_match expected class_ann then "+" else "-"].

(** The last line: the fraction of the samples that match. *)
Definition fraction_row `{Externals} (correct total : nat) : list string :=
  [""; ""; "";
   format_3f (num_div (TestAnn.num_of_nat correct) (TestAnn.num_of_nat total))].

(** The target of sample [s] decodes to the one class [d.1], and the
    output of the network on its input decodes to [d.2]. *)
Definition decodes_sample `{Externals} (codewords : gmap string (list Qc))
    (ann_file : string) (error : Qc) (s : sample)
    (d : string * list string) : Prop :=
  Common.get_classification codewords s.2 error = Ok [d.1] ∧
  Common.get_classification codewords (ann_run ann_file s.1.2) error = Ok d.2.

(** The rows of the samples [data] decoded as [decoded], and the number
    of those that match. *)
Definition result_rows (data : list sample)
    (decoded : list (string * list string)) : list (list string) :=
  zip_with (λ s d, result_row s d.1 d.2) data decoded.

Definition matches_count (decoded : list (string * list string)) : nat :=
  length (filter (λ d, is_match d.1 d.2 = true) decoded).

(** C4 as it is stated, for one command line: an exception that the
    task raises is logged by [main] and leaves [main]. *)
Definition logged_and_propagated `{Externals} (debug : bool)
    (cmd : Main.command) (w : world) : Prop :=
  ∀ w' e,
    Main.task debug cmd w = (w', Raise e) → is_Exception e = true →
    ∃ w'', Main.main debug cmd w = (w'', Raise e) ∧
           (ERROR, exn_msg e) ∈ logs w''.

End Spec.

Import Spec.

(** * A small installation, for the examples *)

Module Demo.

Definition show_num (x : Qc) : string :=
  pretty (Qnum x) +:+ "/" +:+ pretty (Zpos (Qden x)).

(** Arithmetic that rounds nothing, as the interpreter has it on [int]
    and, where the results can be held, on [float]: the numbers of the
    examples are such.  The dict lists its items by key. *)
Program Definition exact : Runtime := {|
  num_sub x y := (x - y)%Qc;
  num_mul x y := (x * y)%Qc;
  num_div x y := (x / y)%Qc;
  num_pow2 x := Some (x ^ 2)%Qc;
  dict_items := map_to_list
|}.
Next Obligation.
  intros a b _ _. apply Qc_is_canon.
  unfold num_of_Z, Qcminus, Qcplus, Qcopp. simpl.
  rewrite !Qred_correct. unfold Qeq. simpl. lia.
Qed.
Next Obligation.
  intros a _. cbn beta. f_equal. apply Qc_is_canon.
  unfold num_of_Z. simpl. rewrite !Qred_correct. unfold Qeq. simpl. lia.
Qed.
Next Obligation.
  intros x y [= <-]. simpl. rewrite Qcmult_1_r.
  destruct (Qclt_le_dec x 0) as [Hneg|Hpos].
  - replace (x * x)%Qc with ((- x) * (- x))%Qc by ring.
    assert (0 ≤ - x)%Qc as Hx.
    { rewrite Qcle_minus_iff.
      replace (- x + - 0)%Qc with (0 + - x)%Qc by ring.
      rewrite <-Qcle_minus_iff. by apply Qclt_le_weak. }
    rewrite <-(Qcmult_0_l (- x)). by apply Qcmult_le_compat_r.
  - rewrite <-(Qcmult_0_l x). by apply Qcmult_le_compat_r.
Qed.
Next Obligation. done. Qed.

Definition query : class_query := mk_class_query (Some "genus") None [].

(** Two data columns ([OUTLINE:1.X], [OUTLINE:1.Y]). *)
Definition config : Config.config :=
  mk_config (Some query) (Some [shape_outline (Some 1%Z)]) None None.

Definition no_such_file (path : string) : exn :=
  mk_exn IOError ("Cannot open " +:+ path +:+ " (no such file)").

Definition test_data : list sample :=
  [(Some "1.jpg", [Q2Qc (1 # 2); Q2Qc (1 # 4)], [1; - 1]%Qc);
   (Some "2.jpg", [Q2Qc (3 # 4); Q2Qc (1 # 4)], [- 1; 1]%Qc)].

(** The database knows the photos [images]; the network answers
    [Cypripedium] whatever it is shown; only [trainer.yml] can be
    read, and there are no training data for task [ann]. *)
Definition externals_of (images : list (string * string)) : Externals := {|
  runtime := exact;
  session_scope := λ _, Ok ();
  run_images_query := λ _ _, Ok images;
  run_classes_query := λ _ _, Ok ["Cypripedium"; "Paphiopedilum"];
  phenotyper_set := λ _ _, Ok ();
  phenotyper_make := λ _ _, Ok [Q2Qc (1 # 2); Q2Qc (1 # 4)];
  ann_run := λ _ _, [Q2Qc (31 # 32); Q2Qc (1 # 32)];
  round6 := λ x, x;
  astype_str := show_num;
  format_3f := show_num;
  format_1f_percent := show_num;
  str_of_query := λ q, default "" (cq_class q);
  path_join := λ dir name, dir +:+ "/" +:+ name;
  open_yaml := λ path,
    if bool_decide (path = Some "trainer.yml") then mret config
    else raise (no_such_file (default "" path));
  MakeAnn_train := λ _ _ _ data _, raise (no_such_file data);
  TestAnn_test := λ _ _ _, mret test_data
|}.

(** Two photos of two genera. *)
Definition externals : Externals :=
  externals_of [("1.jpg", "Cypripedium"); ("2.jpg", "Paphiopedilum")].

(** No photo at all. *)
Definition externals_empty : Externals := externals_of [].

(** The path of the first photo has a tab in it. *)
Definition externals_tab : Externals :=
  externals_of [("1" +:+ tab +:+ ".jpg", "Cypripedium");
                ("2.jpg", "Paphiopedilum")].

(** The directory [photos] with the database, and a trained network. *)
Definition world0 : world :=
  mk_world {["photos"]}
    (<["orchids.ann" := "FANN"]> {["photos/photos.db" := "SQLite"]}) [].

(** The same, with an older file of training data. *)
Definition world1 : world :=
  mk_world {["photos"]}
    (<["train.tsv" := "old"]>
       (<["orchids.ann" := "FANN"]> {["photos/photos.db" := "SQLite"]})) [].

Definition train_data : MakeTrainData.t :=
  MakeTrainData.mk_t config "photos" "photos/photos.db".

Definition error : Qc := Q2Qc (1 # 64).

(** Command lines that name a configuration file that is not there. *)
Definition classify_missing : Main.command :=
  Main.cmd_classify "orchids.ann" "missing.yml" "photos/photos.db" error
    "3.jpg".

Definition data_missing : Main.command :=
  Main.cmd_data "missing.yml" None "train.tsv" "photos".

Definition ann_missing : Main.command :=
  Main.cmd_ann (Some "missing.yml") None None "orchids.ann" "train.tsv".

End Demo.

(** * Vocabulary of the further properties *)

Module More.

(** The number of data columns of each feature. *)
Definition histogram_width (args : list (string * list Z)) : nat :=
  sum_list ((λ '(_, bins), sum_list (Z.to_nat <$> bins)) <$> args).

(** How many angles [range(0, 360, step)] has. *)
Definition n_angles (step : Z) : nat :=
  if decide (0 < step)%Z then Z.to_nat ((359 + step) `div` step) else 0.

Definition histogram_360_width (f_args : list (string * list Z)) : nat :=
  sum_list ((λ '(cs, bins),
               sum_list ((λ j, Z.to_nat (default 0%Z (bins !! j)))
                           <$> seq 0 (String.length cs))) <$> f_args).

Definition function_width (step : Z) (fn : output_function) : nat :=
  match fn with
  | mean_sd => 2 * n_angles step
  | of_color_histograms f_args => n_angles step * histogram_360_width f_args
  | other_function _ => 0
  end.

Definition feature_width (f : feature) : nat :=
  match f with
  | color_histograms args => histogram_width args
  | color_bgr_means bins => 6 * Z.to_nat (default 20%Z bins)
  | shape_outline k => 2 * Z.to_nat (default 15%Z k)
  | shape_360 step fns =>
      sum_list (function_width (default 1%Z step) <$> default [] fns)
  | other_feature _ => 0
  end.

(** The sample [export] makes of an image it can read, and the row it
    writes for it; an image it cannot read has none. *)
Definition image_sample `{Externals} (self : MakeTrainData.t)
    (codewords : gmap string (list Qc)) (image : string * string)
    : option sample :=
  let im_path_real := path_join (MakeTrainData.base_path self) image.1 in
  match phenotyper_set (MakeTrainData.config self) im_path_real,
        phenotyper_make (MakeTrainData.config self) im_path_real with
  | Ok _, Ok phenotype =>
      codeword ← codewords !! image.2;
      Some (Some image.1, phenotype, codeword)
  | _, _ => None
  end.

Definition image_row `{Externals} (self : MakeTrainData.t)
    (codewords : gmap string (list Qc)) (image : string * string)
    : option (list string) :=
  s ← image_sample self codewords image;
  Some (MakeTrainData.data_row (default "" s.1.1) (round6 <$> s.1.2) s.2).

(** Every image that can be read has a phenotype. *)
Definition phenotypes_made `{Externals} (self : MakeTrainData.t)
    (images : list (string * string)) : Prop :=
  ∀ image, image ∈ images →
    let im_path_real := path_join (MakeTrainData.base_path self) image.1 in
    phenotyper_set (MakeTrainData.config self) im_path_real = Ok () →
    ∃ phenotype,
      phenotyper_make (MakeTrainData.config self) im_path_real = Ok phenotype.

(** The installation of the examples, with a feature extraction that
    fails on every image. *)
Definition broken_phenotyper : Externals := {|
  runtime := Demo.exact;
  session_scope := λ _, Ok ();
  run_images_query := λ _ _,
    Ok [("1.jpg", "Cypripedium"); ("2.jpg", "Paphiopedilum")];
  run_classes_query := λ _ _, Ok ["Cypripedium"; "Paphiopedilum"];
  phenotyper_set := λ _ _, Ok ();
  phenotyper_make := λ _ path, Raise (mk_exn RuntimeError "No contour found");
  ann_run := λ _ _, [Q2Qc (31 # 32); Q2Qc (1 # 32)];
  round6 := λ x, x;
  astype_str := Demo.show_num;
  format_3f := Demo.show_num;
  format_1f_percent := Demo.show_num;
  str_of_query := λ q, default "" (cq_class q);
  path_join := λ dir name, dir +:+ "/" +:+ name;
  open_yaml := λ path,
    if bool_decide (path = Some "trainer.yml") then mret Demo.config
    else raise (Demo.no_such_file (default "" path));
  MakeAnn_train := λ _ _ _ data _, raise (Demo.no_such_file data);
  TestAnn_test := λ _ _ _, mret Demo.test_data
|}.

End More.

Import More.

(** * Properties *)

(** ** Sorting *)

Section SortFacts.
Context {A : Type} (ltb : A → A → bool) `{!StrictTotal ltb}.

Lemma ltb_asym x y : ltb x y = true → ltb y x = false.
Proof.
  intros Hxy. destruct (ltb y x) eqn:Hyx; [|done].
  pose proof (ltb_trans x y x Hxy Hyx) as Hxx.
  rewrite ltb_irrefl in Hxx. done.
Qed.

Global Instance not_above_antisymm : AntiSymm (=) (not_above ltb).
Proof.
  intros x y Hxy Hyx. unfold not_above in *.
  destruct (ltb_total x y) as [?|[Hlt|Hlt]]; [done|congruence..].
Qed.

Global Instance not_above_trans : Transitive (not_above ltb).
Proof.
  intros x y z Hxy Hyz. unfold not_above in *.
  destruct (ltb z x) eqn:Hzx; [|done].
  destruct (ltb_total x y) as [->|[Hlt|Hlt]]; [congruence| |congruence].
  destruct (ltb_total y z) as [->|[Hlt'|Hlt']]; [|  |congruence].
  - pose proof (ltb_asym _ _ Hlt). congruence.
  - pose proof (ltb_trans _ _ _ Hlt Hlt') as Hxz.
    pose proof (ltb_asym _ _ Hxz). congruence.
Qed.

Lemma insert_sorted_perm x l : insert_sorted ltb x l ≡ₚ x :: l.
Proof.
  induction l as [|y l IH]; simpl; [done|].
  destruct (ltb y x); [|done].
  rewrite IH. apply Permutation_swap.
Qed.

Lemma sort_by_perm l : sort_by ltb l ≡ₚ l.
Proof.
  induction l as [|x l IH]; simpl; [done|].
  rewrite insert_sorted_perm. by rewrite IH.
Qed.

Lemma insert_sorted_sorted x l :
  StronglySorted (not_above ltb) l → StronglySorted (not_above ltb) (insert_sorted ltb x l).
Proof.
  induction 1 as [|y l Hl IH Hy]; simpl.
  - repeat constructor.
  - destruct (ltb y x) eqn:Hyx.
    + constructor; [done|].
      rewrite insert_sorted_perm. constructor; [|done].
      by apply ltb_asym.
    + constructor; [by constructor|].
      constructor; [done|].
      eapply Forall_impl; [exact Hy|].
      intros z Hz. by transitivity y.
Qed.

Lemma sort_by_sorted l : StronglySorted (not_above ltb) (sort_by ltb l).
Proof.
  induction l as [|x l IH]; simpl; [constructor|].
  by apply insert_sorted_sorted.
Qed.

(** The order of the input does not matter. *)
Lemma sort_by_perm_eq l1 l2 : l1 ≡ₚ l2 → sort_by ltb l1 = sort_by ltb l2.
Proof.
  intros Hp. apply (StronglySorted_unique (not_above ltb)).
  - apply sort_by_sorted.
  - apply sort_by_sorted.
  - by rewrite !sort_by_perm.
Qed.

Lemma sort_by_singleton x : sort_by ltb [x] = [x].
Proof. done. Qed.

Lemma sort_by_length l : length (sort_by ltb l) = length l.
Proof. by rewrite sort_by_perm. Qed.

Lemma sort_by_NoDup l : NoDup l → NoDup (sort_by ltb l).
Proof. by rewrite sort_by_perm. Qed.

Lemma sort_by_elem_of x l : x ∈ sort_by ltb l ↔ x ∈ l.
Proof. by rewrite sort_by_perm. Qed.
End SortFacts.

(** ** The orders on names, numbers and tuples *)

Lemma str_ltb_compare s1 s2 : str_ltb s1 s2 = true ↔ String.compare s1 s2 = Lt.
Proof. unfold str_ltb, String.ltb.
  destruct (String.compare s1 s2); split; intros; congruence. Qed.

Global Instance str_ltb_strict : StrictTotal str_ltb.
Proof.
  split.
  - intros s. apply not_true_is_false. rewrite str_ltb_compare.
    assert (String.compare s s = Eq) as -> by by apply String_as_OT.cmp_eq.
    done.
  - intros x y z. rewrite !str_ltb_compare.
    change String.compare with String_as_OT.cmp. rewrite !String_as_OT.cmp_lt.
    apply String_as_OT.lt_trans.
  - intros x y. rewrite !str_ltb_compare.
    destruct (String.compare x y) eqn:Hc.
    + left. by apply String.compare_eq_iff.
    + by right; left.
    + right; right. rewrite String.compare_antisym, Hc. done.
Qed.

Lemma num_eqb_eq x y : num_eqb x y = true ↔ x = y.
Proof.
  unfold num_eqb, Qc_eq_bool.
  destruct (Qcanon.Qc_eq_dec x y) as [Heq|Hne]; split; intros; congruence.
Qed.

Lemma num_eqb_refl x : num_eqb x x = true.
Proof. by apply num_eqb_eq. Qed.

Lemma num_ltb_lt x y : num_ltb x y = true ↔ (x < y)%Qc.
Proof.
  unfold num_ltb. rewrite Qclt_alt.
  destruct (x ?= y)%Qc; split; intros; congruence.
Qed.

Lemma num_ltb_ge x y : num_ltb x y = false ↔ (y ≤ x)%Qc.
Proof.
  rewrite <-not_true_iff_false, num_ltb_lt. split.
  - apply Qcnot_lt_le.
  - intros Hle Hlt. by apply (Qclt_not_le _ _ Hlt).
Qed.

Global Instance tuple_ltb_strict : StrictTotal tuple_ltb.
Proof.
  split.
  - intros [x c]. unfold tuple_ltb; simpl. rewrite num_eqb_refl.
    apply ltb_irrefl.
  - intros [x1 c1] [x2 c2] [x3 c3]. unfold tuple_ltb; simpl.
    destruct (num_eqb x1 x2) eqn:H12.
    + apply num_eqb_eq in H12 as ->.
      destruct (num_eqb x2 x3) eqn:H23; [|done].
      apply ltb_trans.
    + destruct (num_eqb x2 x3) eqn:H23.
      * apply num_eqb_eq in H23 as ->. rewrite H12. done.
      * rewrite !num_ltb_lt. intros Hlt1 Hlt2.
        pose proof (Qclt_trans _ _ _ Hlt1 Hlt2) as Hlt.
        destruct (num_eqb x1 x3) eqn:H13; [|by apply num_ltb_lt].
        apply num_eqb_eq in H13 as ->.
        by destruct (Qclt_not_eq _ _ Hlt).
  - intros [x1 c1] [x2 c2]. unfold tuple_ltb; simpl.
    destruct (num_eqb x1 x2) eqn:H12.
    + apply num_eqb_eq in H12 as ->. rewrite num_eqb_refl.
      destruct (ltb_total (ltb:=str_ltb) c1 c2) as [->|[?|?]]; auto.
    + assert (num_eqb x2 x1 = false) as ->.
      { apply not_true_iff_false. rewrite num_eqb_eq. intros ->.
        by rewrite num_eqb_refl in H12. }
      rewrite !num_ltb_lt.
      destruct (Qc_dec x1 x2) as [[?|?]| ->]; auto.
      by rewrite num_eqb_refl in H12.
Qed.

(** Reversing every comparison gives a strict total order again. *)
Global Instance flip_strict {A} (ltb : A → A → bool) `{!StrictTotal ltb} :
  StrictTotal (λ x y, ltb y x).
Proof.
  split.
  - intros x. apply ltb_irrefl.
  - intros x y z Hxy Hyz. by apply (ltb_trans z y x).
  - intros x y. destruct (ltb_total (ltb:=ltb) x y) as [?|[?|?]]; auto.
Qed.

(** ** [enumerate] *)

Lemma enumerate_from_snoc {A} (i : nat) (l : list A) (x : A) :
  enumerate_from i (l ++ [x]) = enumerate_from i l ++ [(i + length l, x)].
Proof.
  revert i. induction l as [|y l IH]; intros i; simpl.
  - by rewrite Nat.add_0_r.
  - rewrite IH. by replace (i + S (length l)) with (S i + length l) by lia.
Qed.

Lemma enumerate_from_lookup {A} (i k : nat) (l : list A) :
  enumerate_from i l !! k = (λ x, (i + k, x)) <$> l !! k.
Proof.
  revert i k. induction l as [|y l IH]; intros i k; [done|].
  destruct k as [|k]; simpl.
  - by rewrite Nat.add_0_r.
  - rewrite IH. by replace (i + S k) with (S i + k) by lia.
Qed.

Lemma elem_of_enumerate {A} (k : nat) (x : A) (l : list A) :
  (k, x) ∈ enumerate l ↔ l !! k = Some x.
Proof.
  unfold enumerate. rewrite list_elem_of_lookup. split.
  - intros [j Hj]. rewrite enumerate_from_lookup in Hj.
    destruct (l !! j) eqn:Hl; simplify_eq/=. done.
  - intros Hl. exists k. by rewrite enumerate_from_lookup, Hl.
Qed.

(** ** [get_codewords] *)

Section CodewordsFacts.
Context {V : Type} (n : nat) (neg pos : V).

Local Abbreviation one_hot := (one_hot n neg pos).
Local Abbreviation codewords_of := (codewords_of n neg pos).

Lemma one_hot_length i : length (one_hot i) = n.
Proof. unfold one_hot. by rewrite length_insert, length_replicate. Qed.

Lemma one_hot_lookup i j :
  i < n → j < n →
  one_hot i !! j = Some (if decide (j = i) then pos else neg).
Proof.
  intros Hi Hj. unfold one_hot. case_decide as Hij.
  - subst. apply list_lookup_insert_eq. by rewrite length_replicate.
  - rewrite list_lookup_insert_ne by done. by apply lookup_replicate_2.
Qed.

Lemma codewords_loop_in_range items codewords :
  Forall (λ item, item.1 < n) items →
  Common.codewords_loop n neg pos items codewords
  = Ok (codewords_of items codewords).
Proof.
  intros Hitems. revert codewords.
  induction Hitems as [|[i c] items Hi _ IH]; intros codewords; [done|].
  simpl in *. unfold setitem. rewrite length_replicate.
  rewrite decide_True by done. simpl. apply IH.
Qed.

Lemma enumerate_in_range (s : list string) :
  length s ≤ n → Forall (λ item, item.1 < n) (enumerate s).
Proof.
  intros Hn. apply Forall_forall. intros [i c] Hin.
  apply elem_of_enumerate, lookup_lt_Some in Hin. simpl. lia.
Qed.

Lemma codewords_of_snoc (s : list string) (x : string) :
  codewords_of (enumerate (s ++ [x])) ∅
  = <[x := one_hot (length s)]> (codewords_of (enumerate s) ∅).
Proof.
  unfold codewords_of, enumerate.
  by rewrite enumerate_from_snoc, foldl_snoc.
Qed.

Lemma codewords_of_dom (s : list string) :
  dom (codewords_of (enumerate s) ∅) = list_to_set s.
Proof.
  induction s as [|x s IH] using rev_ind.
  - unfold codewords_of; simpl. by rewrite dom_empty_L.
  - rewrite codewords_of_snoc, dom_insert_L, IH, list_to_set_app_L.
    simpl. set_solver.
Qed.

(** A class is given the codeword of its last index in [s]. *)
Lemma codewords_of_lookup (s : list string) (c : string) (cw : list V) :
  codewords_of (enumerate s) ∅ !! c = Some cw ↔
  ∃ i, s !! i = Some c ∧ (∀ k, s !! k = Some c → k ≤ i) ∧ cw = one_hot i.
Proof.
  revert cw. induction s as [|x s IH] using rev_ind; intros cw.
  - unfold codewords_of; simpl. rewrite lookup_empty. split; [done|].
    by intros (i & Hi & _).
  - rewrite codewords_of_snoc. destruct (decide (x = c)) as [->|Hne].
    + rewrite lookup_insert_eq. split.
      * intros [= <-]. exists (length s). split_and!; [|  |done].
        { by rewrite lookup_app_r, Nat.sub_diag. }
        intros k Hk. apply lookup_lt_Some in Hk.
        rewrite length_app in Hk. simpl in Hk. lia.
      * intros (i & Hi & Hmax & ->).
        assert ((s ++ [c]) !! length s = Some c) as Hlast.
        { by rewrite lookup_app_r, Nat.sub_diag. }
        apply Hmax in Hlast. apply lookup_lt_Some in Hi.
        rewrite length_app in Hi. simpl in Hi.
        do 2 f_equal. lia.
    + rewrite lookup_insert_ne by done. rewrite IH.
      assert (∀ k, (s ++ [x]) !! k = Some c ↔ s !! k = Some c) as Hiff.
      { intros k. destruct (decide (k < length s)) as [Hlt|Hge].
        - by rewrite lookup_app_l.
        - rewrite lookup_app_r by lia. rewrite (lookup_ge_None_2 s) by lia.
          destruct (k - length s) as [|m]; simpl; [naive_solver|].
          by rewrite lookup_nil. }
      split; intros (i & Hi & Hmax & ->); exists i; split_and!;
        try done; try (by apply Hiff); intros k Hk; apply Hmax; by apply Hiff.
Qed.

Lemma codewords_of_size (s : list string) :
  NoDup s → size (codewords_of (enumerate s) ∅) = length s.
Proof.
  induction s as [|x s IH] using rev_ind; intros Hnd.
  - unfold codewords_of; simpl. apply map_size_empty.
  - apply NoDup_app in Hnd as (Hs & Hx & _).
    rewrite codewords_of_snoc, map_size_insert_None.
    + rewrite IH, length_app by done. simpl. lia.
    + apply not_elem_of_dom. rewrite codewords_of_dom.
      rewrite elem_of_list_to_set. intros Hin. apply (Hx x Hin). set_solver.
Qed.
End CodewordsFacts.

Lemma get_codewords_eq {V} (classes : list string) (neg pos : V) :
  Common.get_codewords classes neg pos
  = Ok (codewords_of (length classes) neg pos
          (enumerate (sorted str_ltb classes)) ∅).
Proof.
  unfold Common.get_codewords. apply codewords_loop_in_range.
  apply enumerate_in_range. unfold sorted.
  by rewrite (sort_by_length str_ltb).
Qed.

(** C1.  For a non-empty collection of class names [get_codewords]
    returns a dictionary with one entry for each distinct class; the
    value of a class is a list as long as the collection, with [pos]
    at the index the class has in the sorted names (the last such index
    when a name occurs more than once) and [neg] everywhere else. *)
Theorem get_codewords_one_hot {V} (classes : list string) (neg pos : V) :
  classes ≠ [] →
  ∃ codewords,
    Common.get_codewords classes neg pos = Ok codewords ∧
    dom codewords = list_to_set classes ∧
    ∀ class_ cw, codewords !! class_ = Some cw →
      length cw = length classes ∧
      ∃ i, sorted str_ltb classes !! i = Some class_ ∧
           (∀ k, sorted str_ltb classes !! k = Some class_ → k ≤ i) ∧
           ∀ j, j < length classes →
                cw !! j = Some (if decide (j = i) then pos else neg).
Proof.
  intros _. eexists. split; [apply get_codewords_eq|]. split.
  - rewrite codewords_of_dom. apply set_eq. intros c.
    rewrite !elem_of_list_to_set. apply (sort_by_elem_of str_ltb).
  - intros c cw Hcw. apply codewords_of_lookup in Hcw as (i & Hi & Hmax & ->).
    split; [apply one_hot_length|].
    exists i. split_and!; [done..|].
    intros j Hj. apply one_hot_lookup; [|done].
    apply lookup_lt_Some in Hi. unfold sorted in Hi.
    by rewrite (sort_by_length str_ltb) in Hi.
Qed.

Lemma get_codewords_one_hot_witness :
  let classes := ["Paphiopedilum"; "Cypripedium"] in
  classes ≠ [] ∧
  ∃ codewords,
    Common.get_codewords classes (-1)%Z 1%Z = Ok codewords ∧
    dom codewords = list_to_set classes ∧
    ∀ class_ cw, codewords !! class_ = Some cw →
      length cw = length classes ∧
      ∃ i, sorted str_ltb classes !! i = Some class_ ∧
           (∀ k, sorted str_ltb classes !! k = Some class_ → k ≤ i) ∧
           ∀ j, j < length classes →
                cw !! j = Some (if decide (j = i) then (1)%Z else (-1)%Z).
Proof.
  intros classes. split; [done|].
  apply (get_codewords_one_hot classes (-1)%Z 1%Z). done.
Defined.

(** C9, as the code has it.  Two collections with the same names, each
    as often in one as in the other, get equal dictionaries, whatever
    the order of the names. *)
Theorem get_codewords_permutation {V} (classes1 classes2 : list string)
    (neg pos : V) :
  classes1 ≡ₚ classes2 →
  Common.get_codewords classes1 neg pos = Common.get_codewords classes2 neg pos.
Proof.
  intros Hp. unfold Common.get_codewords, sorted.
  by rewrite (sort_by_perm_eq str_ltb _ _ Hp), (Permutation_length Hp).
Qed.

Lemma get_codewords_permutation_witness :
  Common.get_codewords ["b"; "a"; "c"] (-1)%Z 1%Z
  = Common.get_codewords ["c"; "b"; "a"] (-1)%Z 1%Z.
Proof.
  apply get_codewords_permutation.
  change (["b"; "a"] ++ ["c"] ≡ₚ ["c"] ++ ["b"; "a"]).
  apply Permutation_app_comm.
Defined.

(** A name that occurs twice makes every codeword longer and moves the
    indices. *)
Lemma get_codewords_duplicates_matter :
  ¬ codewords_depend_on_set_only ["a"; "b"] ["a"; "a"; "b"].
Proof.
  intros Hclaim.
  assert (list_to_set ["a"; "b"] =@{gset string} list_to_set ["a"; "a"; "b"])
    as Hset by set_solver.
  apply Hclaim in Hset. vm_compute in Hset. discriminate Hset.
Qed.
(** ** [get_classification] *)

Section ClassificationFacts.
Context `{Runtime} (codeword : list Qc) (error : Qc).

Lemma scan_codeword_eq cls items classes :
  Common.scan_codeword cls codeword error items classes
  = if forallb (safe_item codeword) items
    then Ok (classes ++ (items ≫= hit cls codeword error))
    else Raise (codeword_error codeword items).
Proof.
  revert classes. induction items as [|[i code] items IH]; intros classes.
  - simpl. by rewrite app_nil_r.
  - rewrite bind_cons. cbn [Common.scan_codeword forallb codeword_error].
    unfold safe_item at 1 3, hit at 1. cbn [fst snd].
    destruct (num_eqb code 1) eqn:Hcode; simpl.
    + apply num_eqb_eq in Hcode as ->.
      unfold getitem.
      destruct (bool_decide (i < length codeword)) eqn:Hi.
      * apply bool_decide_eq_true in Hi.
        destruct (lookup_lt_is_Some_2 codeword i Hi) as [x Hx].
        rewrite Hx. simpl. unfold Common.pow2.
        destruct (num_pow2 (num_sub 1 x)) as [square|]; simpl; [|done].
        destruct (num_ltb square error); rewrite IH;
          destruct (forallb _ items); try done.
        by rewrite <-app_assoc.
      * apply bool_decide_eq_false in Hi.
        by rewrite lookup_ge_None_2 by lia.
    + apply IH.
Qed.

Lemma scan_codewords_eq items classes :
  Common.scan_codewords codeword error items classes
  = if safe_items codeword items
    then Ok (classes ++ hits codeword error items)
    else Raise (codewords_error codeword items).
Proof.
  revert classes. induction items as [|[cls cw] items IH]; intros classes.
  - simpl. by rewrite app_nil_r.
  - unfold hits. rewrite bind_cons.
    cbn [Common.scan_codewords codewords_error].
    rewrite scan_codeword_eq. unfold safe_items. cbn [forallb].
    destruct (forallb (safe_item codeword) (enumerate cw)); simpl; [|done].
    rewrite IH. fold (safe_items codeword items).
    destruct (safe_items codeword items); [|done].
    by rewrite <-app_assoc.
Qed.

(** Only [IndexError] and [OverflowError] come out of the loops. *)
Lemma codeword_error_cases items :
  codeword_error codeword items = index_error
  ∨ codeword_error codeword items = overflow_error.
Proof.
  induction items as [|item items IH]; simpl; [by left|].
  destruct (safe_item codeword item); [done|].
  destruct (codeword !! item.1); auto.
Qed.

Lemma codewords_error_cases items :
  codewords_error codeword items = index_error
  ∨ codewords_error codeword items = overflow_error.
Proof.
  induction items as [|[cls cw] items IH]; simpl; [by left|].
  destruct (forallb _ _); [done|]. apply codeword_error_cases.
Qed.

Lemma classification_of_items_eq n items :
  Common.classification_of_items n items codeword error
  = if decide (n ≠ length codeword) then Raise Common.value_error
    else if safe_items codeword items
    then Ok ((sorted_reverse tuple_ltb (hits codeword error items)).*2)
    else Raise (codewords_error codeword items).
Proof.
  unfold Common.classification_of_items. case_decide; [done|].
  rewrite scan_codewords_eq. by destruct (safe_items codeword items).
Qed.

Lemma safe_items_perm items1 items2 :
  items1 ≡ₚ items2 → safe_items codeword items1 = safe_items codeword items2.
Proof.
  intros Hp. unfold safe_items. apply eq_true_iff_eq.
  rewrite <-!Is_true_true, !forallb_True. by rewrite Hp.
Qed.

Lemma hits_perm items1 items2 :
  items1 ≡ₚ items2 →
  sorted_reverse tuple_ltb (hits codeword error items1)
  = sorted_reverse tuple_ltb (hits codeword error items2).
Proof.
  intros Hp. unfold sorted_reverse.
  apply (sort_by_perm_eq (λ x y, tuple_ltb y x)). unfold hits. by rewrite Hp.
Qed.

(** The order in which the dictionary lists its items does not decide
    whether the classification is returned, nor what it is; it may
    decide which of two exceptions is raised. *)
Lemma classification_items_perm n items1 items2 classes :
  items1 ≡ₚ items2 →
  Common.classification_of_items n items1 codeword error = Ok classes →
  Common.classification_of_items n items2 codeword error = Ok classes.
Proof.
  intros Hp. rewrite !classification_of_items_eq.
  rewrite (safe_items_perm _ _ Hp), (hits_perm _ _ Hp). 
  case_decide; [done|]. by destruct (safe_items codeword items2).
Qed.

(** [get_classification] in terms of the items of the dictionary in
    the order of their keys. *)
Lemma get_classification_eq (codewords : gmap string (list Qc)) :
  Common.get_classification codewords codeword error
  = if decide (size codewords ≠ length codeword)
    then Raise Common.value_error
    else if safe_items codeword (map_to_list codewords)
    then Ok ((sorted_reverse tuple_ltb
                (hits codeword error (map_to_list codewords))).*2)
    else Raise (codewords_error codeword (dict_items codewords)).
Proof.
  unfold Common.get_classification. rewrite classification_of_items_eq.
  by rewrite (safe_items_perm _ _ (dict_items_perm codewords)),
    (hits_perm _ _ (dict_items_perm codewords)).
Qed.

Lemma elem_of_hit cls i code x c :
  (x, c) ∈ hit cls codeword error (i, code) ↔
  c = cls ∧ code = 1%Qc ∧ codeword !! i = Some x ∧ within error x.
Proof.
  unfold hit, within; simpl. destruct (num_eqb code 1) eqn:Hcode.
  - apply num_eqb_eq in Hcode as ->.
    destruct (codeword !! i) as [y|]; [|set_solver].
    destruct (num_pow2 (num_sub 1 y)) as [square|] eqn:Hsquare.
    + destruct (num_ltb square error) eqn:Hlt.
      * apply num_ltb_lt in Hlt. rewrite list_elem_of_singleton.
        split.
        -- intros [= -> ->]. rewrite Hsquare. eauto 10.
        -- intros (-> & _ & [= ->] & _). done.
      * split; [set_solver|]. intros (_ & _ & [= ->] & square' & Hs & Hlt').
        rewrite Hsquare in Hs. injection Hs as <-.
        apply num_ltb_lt in Hlt'. congruence.
    + split; [set_solver|]. intros (_ & _ & [= ->] & square' & Hs & _).
      congruence.
  - split; [set_solver|]. intros (_ & -> & _). by rewrite num_eqb_refl in Hcode.
Qed.

Lemma elem_of_hits (codewords : gmap string (list Qc)) x cls :
  (x, cls) ∈ hits codeword error (map_to_list codewords)
  ↔ ∃ i, matches codewords codeword error x cls i.
Proof.
  unfold hits, matches. rewrite list_elem_of_bind. split.
  - intros ([c cw] & Hin & Hitem). apply elem_of_map_to_list in Hitem.
    apply list_elem_of_bind in Hin as ([i code] & Hin & Hi).
    apply elem_of_enumerate in Hi.
    apply elem_of_hit in Hin as (-> & -> & ? & ?). eauto 10.
  - intros (i & cw & Hcw & Hi & Hx & Hlt). exists (cls, cw). split.
    + apply list_elem_of_bind. exists (i, 1%Qc). split.
      * by apply elem_of_hit.
      * by apply elem_of_enumerate.
    + by apply elem_of_map_to_list.
Qed.

Lemma safe_items_map_to_list (codewords : gmap string (list Qc)) :
  (∀ cls cw i, codewords !! cls = Some cw → cw !! i = Some 1%Qc →
               ∃ x, codeword !! i = Some x ∧ is_Some (num_pow2 (num_sub 1 x))) →
  safe_items codeword (map_to_list codewords) = true.
Proof.
  intros Hsafe. unfold safe_items. apply Is_true_true, forallb_True.
  apply Forall_forall. intros [cls cw] Hin%elem_of_map_to_list.
  apply forallb_True, Forall_forall. intros [i code] Hi%elem_of_enumerate.
  unfold safe_item; simpl. destruct (num_eqb code 1) eqn:Hcode; [|done].
  apply num_eqb_eq in Hcode as ->. simpl.
  destruct (Hsafe _ _ _ Hin Hi) as (x & -> & Hx).
  by apply bool_decide_spec.
Qed.
End ClassificationFacts.

Lemma StronglySorted_weaken {A} (R1 R2 : relation A) (l : list A) :
  (∀ x y, R1 x y → R2 x y) → StronglySorted R1 l → StronglySorted R2 l.
Proof.
  intros Himpl. induction 1 as [|x l _ IH Hx]; constructor; [done|].
  eapply Forall_impl; [exact Hx|]. intros y. apply Himpl.
Qed.

Lemma StronglySorted_of_fmap {A B} (f : A → B) (R : relation B) (l : list A) :
  StronglySorted R (f <$> l) → StronglySorted (λ x y, R (f x) (f y)) l.
Proof.
  induction l as [|x l IH]; intros Hs; [constructor|].
  rewrite fmap_cons in Hs. apply StronglySorted_inv in Hs as [Hl Hx].
  constructor; [by apply IH|].
  rewrite Forall_forall in Hx. apply Forall_forall. intros y Hy. apply Hx.
  by apply list_elem_of_fmap_2.
Qed.

(** Sorting by a key and then taking the keys is sorting the keys. *)
Lemma insert_sorted_fmap {A B} (f : A → B) (ltb : B → B → bool) (x : A)
    (l : list A) :
  f <$> insert_sorted (λ x y, ltb (f x) (f y)) x l
  = insert_sorted ltb (f x) (f <$> l).
Proof.
  induction l as [|y l IH]; [done|]. simpl.
  destruct (ltb (f y) (f x)); [|done]. by rewrite fmap_cons, IH.
Qed.

Lemma sort_by_fmap {A B} (f : A → B) (ltb : B → B → bool) (l : list A) :
  f <$> sort_by (λ x y, ltb (f x) (f y)) l = sort_by ltb (f <$> l).
Proof.
  induction l as [|x l IH]; [done|]. simpl.
  by rewrite insert_sorted_fmap, IH.
Qed.

(** [sorted(..., reverse=True)] on tuples puts the greater numbers
    first, and of equal numbers the greater name. *)
Lemma sorted_reverse_ranked (l : list (Qc * string)) :
  StronglySorted ranks_before (sorted_reverse tuple_ltb l).
Proof.
  unfold sorted_reverse.
  eapply StronglySorted_weaken; [|apply (sort_by_sorted (λ x y, tuple_ltb y x))].
  intros [x1 c1] [x2 c2]. unfold not_above, ranks_before, tuple_ltb; simpl.
  destruct (num_eqb x1 x2) eqn:Heq.
  - apply num_eqb_eq in Heq as ->. auto.
  - rewrite num_ltb_ge. intros Hle. left.
    apply Qcle_lt_or_eq in Hle as [Hlt| ->]; [done|].
    by rewrite num_eqb_refl in Heq.
Qed.

Lemma ranks_before_ge (p q : Qc * string) : ranks_before p q → (q.1 ≤ p.1)%Qc.
Proof.
  intros [Hlt|[-> _]]; [by apply Qclt_le_weak|apply Qcle_refl].
Qed.

Lemma NoDup_enumerate {A} (l : list A) : NoDup (enumerate l).
Proof.
  apply NoDup_alt. intros i j [k x] Hi Hj. unfold enumerate in *.
  rewrite enumerate_from_lookup in Hi, Hj.
  destruct (l !! i), (l !! j); simplify_eq/=. done.
Qed.

Section Positions.
Context `{Runtime} (codeword : list Qc) (error : Qc).

Lemma hit_length cls item : length (hit cls codeword error item) ≤ 1.
Proof.
  unfold hit. destruct (num_eqb _ _); [|simpl; lia].
  destruct (codeword !! _); [|simpl; lia].
  destruct (num_pow2 _); [|simpl; lia].
  destruct (num_ltb _ _); simpl; lia.
Qed.

Lemma hits_at_fst items :
  (hits_at codeword error items).*1 = hits codeword error items.
Proof.
  unfold hits_at, hits.
  induction items as [|[cls cw] items IH]; [done|].
  rewrite !bind_cons, fmap_app, IH. f_equal.
  induction (enumerate cw) as [|[i code] l IHl]; [done|].
  rewrite !bind_cons, fmap_app, IHl. f_equal.
  rewrite <-list_fmap_compose. apply list_fmap_id.
Qed.

Lemma elem_of_hits_at (codewords : gmap string (list Qc)) x cls i :
  (x, cls, i) ∈ hits_at codeword error (map_to_list codewords)
  ↔ matches codewords codeword error x cls i.
Proof.
  unfold hits_at, matches. rewrite list_elem_of_bind. split.
  - intros ([c cw] & Hin & Hitem). apply elem_of_map_to_list in Hitem.
    apply list_elem_of_bind in Hin as ([j code] & Hin & Hj).
    apply elem_of_enumerate in Hj.
    apply list_elem_of_fmap in Hin as ([x' c'] & [= -> -> ->] & Hin).
    apply elem_of_hit in Hin as (-> & -> & ? & ?). eauto 10.
  - intros (cw & Hcw & Hi & Hx & Hlt). exists (cls, cw). split.
    + apply list_elem_of_bind. exists (i, 1%Qc). split.
      * apply list_elem_of_fmap. exists (x, cls). split; [done|].
        by apply elem_of_hit.
      * by apply elem_of_enumerate.
    + by apply elem_of_map_to_list.
Qed.

Lemma NoDup_hits_at (codewords : gmap string (list Qc)) :
  NoDup (hits_at codeword error (map_to_list codewords)).
Proof.
  unfold hits_at. apply NoDup_bind.
  - intros [c1 cw1] [c2 cw2] [[x c] i] Hin1 Hin2 Hy1 Hy2.
    apply elem_of_map_to_list in Hin1, Hin2.
    apply list_elem_of_bind in Hy1 as ([j1 code1] & Hy1 & _).
    apply list_elem_of_bind in Hy2 as ([j2 code2] & Hy2 & _).
    apply list_elem_of_fmap in Hy1 as ([x1 c1'] & [= -> -> ->] & Hy1).
    apply list_elem_of_fmap in Hy2 as ([x2 c2'] & [= -> -> ->] & Hy2).
    apply elem_of_hit in Hy1 as (-> & _), Hy2 as (-> & _).
    congruence.
  - intros [c cw] _. apply NoDup_bind.
    + intros [j1 code1] [j2 code2] [[x c'] i] Hin1 Hin2 Hy1 Hy2.
      apply elem_of_enumerate in Hin1, Hin2.
      apply list_elem_of_fmap in Hy1 as ([x1 c1'] & [= -> -> ->] & Hy1).
      apply list_elem_of_fmap in Hy2 as ([x2 c2'] & [= -> -> ->] & Hy2).
      congruence.
    + intros [j code] _. apply NoDup_fmap_2; [by intros ?? [= ->]|].
      pose proof (hit_length c (j, code)) as Hlen.
      destruct (hit c codeword error (j, code)) as [|p [|q l]];
        [constructor|apply NoDup_singleton|simpl in Hlen; lia].
    + apply NoDup_enumerate.
  - apply NoDup_map_to_list.
Qed.
End Positions.

(** C2, as the code has it.  When the dictionary has as many entries as
    the output vector has numbers, and wherever a stored codeword has a
    [1] the output vector has a number whose distance to [1] can be
    squared, [get_classification] returns the names of the classes
    whose codeword has a [1] at a position [i] with
    [(1 - codeword[i]) ** 2 < error], once for each such position,
    ordered by descending [codeword[i]] and, where these are equal, by
    descending name. *)
Theorem get_classification_ranked `{Runtime}
    (codewords : gmap string (list Qc)) (codeword : list Qc) (error : Qc) :
  size codewords = length codeword →
  (∀ cls cw i, codewords !! cls = Some cw → cw !! i = Some 1%Qc →
     ∃ x, codeword !! i = Some x ∧ is_Some (num_pow2 (num_sub 1 x))) →
  ∃ ranked,
    decodes_to codewords codeword error ranked ∧
    StronglySorted (λ p q, (q.1.1 ≤ p.1.1)%Qc) ranked.
Proof.
  intros Hsize Hsafe.
  set (found := hits_at codeword error (map_to_list codewords)).
  set (ranked := sort_by (λ p q : Qc * string * nat, tuple_ltb q.1 p.1) found).
  assert (ranked.*1
          = sorted_reverse tuple_ltb (hits codeword error (map_to_list codewords)))
    as Hranked.
  { unfold ranked, sorted_reverse.
    rewrite (sort_by_fmap fst (λ x y, tuple_ltb y x)).
    unfold found. by rewrite hits_at_fst. }
  assert (StronglySorted (λ p q : Qc * string * nat, ranks_before p.1 q.1) ranked)
    as Hsorted.
  { apply (StronglySorted_of_fmap fst ranks_before). rewrite Hranked.
    apply sorted_reverse_ranked. }
  exists ranked. split; [split_and!|].
  - rewrite get_classification_eq.
    rewrite decide_False by (intros Hne; by apply Hne).
    rewrite safe_items_map_to_list by done. by rewrite Hranked.
  - unfold ranked. apply sort_by_NoDup, NoDup_hits_at.
  - intros x cls i. unfold ranked. rewrite sort_by_elem_of.
    apply elem_of_hits_at.
  - done.
  - eapply StronglySorted_weaken; [|exact Hsorted].
    intros p q. apply ranks_before_ge.
Qed.

Lemma get_classification_ranked_witness :
  let codewords : gmap string (list Qc) :=
    <["b" := [- 1; 1]%Qc]> {["a" := [1; - 1]%Qc]} in
  let codeword := [Q2Qc (3 # 4); Q2Qc (1 # 4)] in
  let error := Q2Qc (1 # 8) in
  size codewords = length codeword ∧
  (∀ cls cw i, codewords !! cls = Some cw → cw !! i = Some 1%Qc →
     ∃ x, codeword !! i = Some x
          ∧ is_Some (@num_pow2 Demo.exact (@num_sub Demo.exact 1 x))) ∧
  ∃ ranked,
    @decodes_to Demo.exact codewords codeword error ranked ∧
    StronglySorted (λ p q, (q.1.1 ≤ p.1.1)%Qc) ranked.
Proof.
  intros codewords codeword error.
  assert (size codewords = length codeword) as Hsize by reflexivity.
  assert (∀ cls cw i, codewords !! cls = Some cw → cw !! i = Some 1%Qc →
     ∃ x, codeword !! i = Some x
          ∧ is_Some (@num_pow2 Demo.exact (@num_sub Demo.exact 1 x)))
    as Hsafe.
  { intros cls cw i Hcw Hi. apply lookup_lt_Some in Hi.
    assert (i < length codeword) as [x Hx]%lookup_lt_is_Some_2.
    { unfold codewords in Hcw.
      apply lookup_insert_Some in Hcw as [[_ <-]|[_ Hcw]]; [done|].
      by apply lookup_singleton_Some in Hcw as [_ <-]. }
    exists x. split; [done|]. by eexists. }
  split_and!; [done..|].
  exact (@get_classification_ranked Demo.exact codewords codeword error
           Hsize Hsafe).
Defined.

(** With these numbers the classification is [a]: the output at the
    [1] of [a] is within the error bound, the other is not. *)
Example get_classification_demo :
  @Common.get_classification Demo.exact
    (<["b" := [- 1; 1]%Qc]> {["a" := [1; - 1]%Qc]})
    [Q2Qc (3 # 4); Q2Qc (1 # 4)] (Q2Qc (1 # 8))
  = Ok ["a"].
Proof. by vm_compute. Qed.

(** C2 as it is stated fails on a dictionary whose codeword is longer
    than the output vector: the lengths that are compared agree, and
    reading [codeword[2]] raises [IndexError]. *)
Lemma get_classification_index_error :
  let codewords : gmap string (list Qc) := {["a" := [0; 0; 1]%Qc]} in
  let codeword := [Q2Qc (1 # 2)] in
  size codewords = length codeword ∧
  @Common.get_classification Demo.exact codewords codeword (Q2Qc (1 # 100))
  = Raise index_error ∧
  ¬ @decodes_ranked Demo.exact codewords codeword (Q2Qc (1 # 100)).
Proof.
  intros codewords codeword.
  assert (@Common.get_classification Demo.exact codewords codeword
            (Q2Qc (1 # 100)) = Raise index_error) as Hraise
    by (by vm_compute).
  split_and!; [done..|].
  intros Hclaim. destruct Hclaim as (ranked & Heq & _); [done|].
  rewrite Hraise in Heq. discriminate Heq.
Qed.

(** C10.  [get_classification] raises [ValueError] exactly when the
    dictionary and the output vector differ in length; what it does
    then is the same for all dictionaries and vectors of these
    lengths, whatever they hold. *)
Theorem get_classification_value_error `{Runtime}
    (codewords : gmap string (list Qc)) (codeword : list Qc) (error : Qc) :
  (raises (Common.get_classification codewords codeword error) ValueError
   ↔ size codewords ≠ length codeword) ∧
  (size codewords ≠ length codeword →
   ∀ (codewords' : gmap string (list Qc)) (codeword' : list Qc) (error' : Qc),
     size codewords' = size codewords →
     length codeword' = length codeword →
     Common.get_classification codewords' codeword' error'
     = Raise Common.value_error).
Proof.
  split.
  - rewrite get_classification_eq. case_decide as Hne.
    + split; [done|]. intros _. by eexists.
    + split; [|done]. intros [msg Hr].
      destruct (safe_items _ _); [discriminate Hr|].
      by destruct (codewords_error_cases codeword (dict_items codewords))
        as [He|He]; rewrite He in Hr.
  - intros Hne codewords' codeword' error' Hsize Hlen.
    rewrite get_classification_eq, Hsize, Hlen.
    by rewrite decide_True.
Qed.

Lemma get_classification_value_error_witness :
  raises (@Common.get_classification Demo.exact {["a" := [1]%Qc]} []
            (Q2Qc (1 # 100)))
    ValueError.
Proof.
  apply (@get_classification_value_error Demo.exact
           {["a" := [1]%Qc]} [] (Q2Qc (1 # 100))).
  done.
Defined.

(** ** Decoding a codeword of [get_codewords] *)

Lemma bind_nil_all {A B} (f : A → list B) (l : list A) :
  (∀ y, y ∈ l → f y = []) → l ≫= f = [].
Proof.
  induction l as [|y l IH]; intros Hf; [done|].
  rewrite bind_cons, Hf, IH by set_solver. done.
Qed.

Lemma bind_single {A B} (f : A → list B) (l : list A) (x : A) (b : B) :
  NoDup l → x ∈ l → f x = [b] → (∀ y, y ∈ l → y ≠ x → f y = []) →
  l ≫= f = [b].
Proof.
  intros Hnd Hx Hfx Hf. apply list_elem_of_split in Hx as (l1 & l2 & ->).
  apply NoDup_app in Hnd as (_ & Hl1 & [Hl2 _]%NoDup_cons).
  rewrite bind_app, bind_cons, Hfx.
  rewrite !bind_nil_all; [done| |].
  - intros y Hy. apply Hf; [set_solver|]. by intros ->.
  - intros y Hy. apply Hf; [set_solver|]. intros ->. by apply (Hl1 x Hy), list_elem_of_here.
Qed.

(** The interpreter computes [(1 - 1) ** 2] and [(1 - -1) ** 2]
    without rounding. *)
Lemma square_at_pos `{Runtime} : num_pow2 (num_sub 1 1) = Some 0%Qc.
Proof.
  change 1%Qc with (num_of_Z 1).
  rewrite num_sub_exact, num_pow2_exact by (split; by vm_compute).
  reflexivity.
Qed.

Lemma square_at_neg `{Runtime} : num_pow2 (num_sub 1 (- 1)) = Some (Q2Qc 4).
Proof.
  replace (- 1)%Qc with (num_of_Z (- 1)) by by apply Qc_is_canon.
  change 1%Qc with (num_of_Z 1).
  rewrite num_sub_exact, num_pow2_exact by (split; by vm_compute).
  reflexivity.
Qed.

Section RoundTrip.
Context `{Runtime} (s : list string) (error : Qc).
Context (Hnd : NoDup s) (Hpos : (0 < error)%Qc) (Hle : (error ≤ Q2Qc 4)%Qc).

Local Abbreviation n := (length s).
Local Abbreviation word := (one_hot n Common.default_neg Common.default_pos).

Lemma word_lookup_one i j : i < n → word i !! j = Some 1%Qc ↔ j = i.
Proof.
  intros Hi. split.
  - intros Hj. pose proof (lookup_lt_Some _ _ _ Hj) as Hlt.
    rewrite one_hot_length in Hlt.
    rewrite one_hot_lookup in Hj by done.
    case_decide; [done|]. by injection Hj.
  - intros ->. rewrite one_hot_lookup by done. by rewrite decide_True.
Qed.

(** The codeword of index [i] against the output [word i]: one hit. *)
Lemma hits_own_word c i :
  i < n → enumerate (word i) ≫= hit c (word i) error = [(1%Qc, c)].
Proof.
  intros Hi. apply (bind_single _ _ (i, 1%Qc)).
  - apply NoDup_enumerate.
  - apply elem_of_enumerate. by apply word_lookup_one.
  - unfold hit; cbn [fst snd]. rewrite num_eqb_refl.
    rewrite (proj2 (word_lookup_one i i Hi)) by done.
    rewrite square_at_pos. by rewrite (proj2 (num_ltb_lt _ _) Hpos).
  - intros [j code] Hj%elem_of_enumerate Hne. unfold hit; cbn [fst snd].
    destruct (num_eqb code 1) eqn:Hcode; [|done].
    apply num_eqb_eq in Hcode as ->.
    apply word_lookup_one in Hj; [|done]. by subst.
Qed.

(** The codeword of another index against the output [word i]: no
    hit, for the output is [-1] where that codeword has its [1]. *)
Lemma hits_other_word c i j :
  i < n → j < n → i ≠ j →
  enumerate (word j) ≫= hit c (word i) error = [].
Proof.
  intros Hi Hj Hne. apply bind_nil_all.
  intros [k code] Hk%elem_of_enumerate. unfold hit; cbn [fst snd].
  destruct (num_eqb code 1) eqn:Hcode; [|done].
  apply num_eqb_eq in Hcode as ->.
  apply word_lookup_one in Hk as ->; [|done].
  rewrite one_hot_lookup by done. rewrite decide_False by done.
  unfold Common.default_neg. rewrite square_at_neg.
  by rewrite (proj2 (num_ltb_ge _ _) Hle).
Qed.

(** Every number of [word i] is [1] or [-1]: its distance to [1] can
    be squared. *)
Lemma word_safe i k :
  i < n → k < n →
  ∃ x, word i !! k = Some x ∧ is_Some (num_pow2 (num_sub 1 x)).
Proof.
  intros Hi Hk. rewrite one_hot_lookup by done. case_decide.
  - eexists. split; [done|]. unfold Common.default_pos.
    rewrite square_at_pos. by eexists.
  - eexists. split; [done|]. unfold Common.default_neg.
    rewrite square_at_neg. by eexists.
Qed.

Lemma classification_of_own_word c i :
  s !! i = Some c →
  Common.get_classification
    (codewords_of n Common.default_neg Common.default_pos (enumerate s) ∅)
    (word i) error
  = Ok [c].
Proof.
  intros Hc. pose proof (lookup_lt_Some _ _ _ Hc) as Hi.
  set (d := codewords_of _ _ _ _ _).
  assert (∀ c' cw, d !! c' = Some cw ↔ ∃ j, s !! j = Some c' ∧ cw = word j) as Hd.
  { intros c' cw. unfold d. rewrite codewords_of_lookup. split.
    - intros (j & ? & _ & ?). eauto.
    - intros (j & Hj & ->). exists j. split_and!; [done| |done].
      intros k Hk. by rewrite (NoDup_lookup _ _ _ _ Hnd Hk Hj). }
  rewrite get_classification_eq.
  rewrite decide_False; last first.
  { intros Hne. apply Hne. unfold d.
    by rewrite codewords_of_size, one_hot_length. }
  rewrite safe_items_map_to_list; last first.
  { intros c' cw k [j [Hj ->]]%Hd Hk. apply lookup_lt_Some in Hk.
    rewrite one_hot_length in Hk. by apply word_safe. }
  assert (hits (word i) error (map_to_list d) = [(1%Qc, c)]) as ->; [|done].
  unfold hits. apply (bind_single _ _ (c, word i)).
  - apply NoDup_map_to_list.
  - apply elem_of_map_to_list, Hd. eauto.
  - by apply hits_own_word.
  - intros [c' cw] [j [Hj ->]]%elem_of_map_to_list%Hd Hne.
    apply hits_other_word; [done|by eapply lookup_lt_Some|].
    intros ->. apply Hne. congruence.
Qed.
End RoundTrip.

(** C3.  For a non-empty set of classes, a class [c] of the set and an
    error bound with [0 < error <= 4], decoding the codeword that
    [get_codewords] gives [c] returns the list [[c]]. *)
Theorem classification_round_trip `{Runtime} (classes : list string)
    (c : string) (error : Qc) :
  NoDup classes → c ∈ classes →
  (0 < error)%Qc → (error ≤ Q2Qc 4)%Qc →
  ∃ codewords cw,
    Common.get_codewords classes Common.default_neg Common.default_pos
      = Ok codewords ∧
    codewords !! c = Some cw ∧
    Common.get_classification codewords cw error = Ok [c].
Proof.
  intros Hnd Hc Hpos Hle. rewrite get_codewords_eq.
  set (s := sorted str_ltb classes).
  assert (NoDup s) as Hs by by apply (sort_by_NoDup str_ltb).
  assert (length classes = length s) as ->.
  { unfold s, sorted. by rewrite (sort_by_length str_ltb). }
  assert (c ∈ s) as [i Hi]%list_elem_of_lookup.
  { by apply (sort_by_elem_of str_ltb). }
  eexists _, (one_hot (length s) Common.default_neg Common.default_pos i).
  split_and!; [done| |].
  - apply codewords_of_lookup. exists i. split_and!; [done| |done].
    intros k Hk. by rewrite (NoDup_lookup _ _ _ _ Hs Hk Hi).
  - by apply classification_of_own_word.
Qed.

Lemma classification_round_trip_witness :
  let classes := ["Paphiopedilum"; "Cypripedium"] in
  let error := Q2Qc (1 # 100) in
  NoDup classes ∧ "Cypripedium" ∈ classes ∧
  (0 < error)%Qc ∧ (error ≤ Q2Qc 4)%Qc ∧
  ∃ codewords cw,
    Common.get_codewords classes Common.default_neg Common.default_pos
      = Ok codewords ∧
    codewords !! "Cypripedium" = Some cw ∧
    @Common.get_classification Demo.exact codewords cw error
    = Ok ["Cypripedium"].
Proof.
  intros classes error.
  assert (NoDup classes) as Hnd by (by apply (bool_decide_unpack (NoDup classes))).
  assert ("Cypripedium" ∈ classes) as Hc
    by (by apply (bool_decide_unpack ("Cypripedium" ∈ classes))).
  assert (0 < error)%Qc as Hpos by reflexivity.
  assert (error ≤ Q2Qc 4)%Qc as Hle by (by vm_compute).
  split_and!; [done..|].
  exact (@classification_round_trip Demo.exact classes "Cypripedium" error
           Hnd Hc Hpos Hle).
Defined.

(** ** [ImageClassifier] *)

(** C5.  For an image the feature extraction succeeds on, [classify]
    returns what decoding the output of the network on the feature
    vector gives against the codewords of [self.classes], and
    [self.classes] are the class names the constructor has queried from
    the database. *)
Theorem classify_decodes `{Externals} (config : Config.config)
    (ann_file db_file image_path : string) (error : Qc)
    (w w' : world) (self : ImageClassifier.t) (phenotype : list Qc) :
  ImageClassifier.__init__ config ann_file db_file w = (w', Ok self) →
  phenotyper_set config image_path = Ok () →
  phenotyper_make config image_path = Ok phenotype →
  (∃ class_query,
     cfg_class_query config = Some class_query ∧
     Common.query_classes db_file class_query
       = Ok (ImageClassifier.classes self)) ∧
  ImageClassifier.classify self image_path error
  = (codewords ← Common.get_codewords (ImageClassifier.classes self)
                   Common.default_neg Common.default_pos;
     Common.get_classification codewords (ann_run ann_file phenotype) error).
Proof.
  unfold ImageClassifier.__init__, ImageClassifier.classify.
  intros Hinit Hset Hmake.
  unfold mbind, M_bind, lift in Hinit.
  destruct (Common.set_config config w) as [w1 [[]|e]]; [|done].
  destruct (ImageClassifier.set_ann ann_file w1) as [w2 [[]|e]]; [|done].
  destruct (ImageClassifier.classes_query config db_file) as [classes|e] eqn:Hq;
    [|done].
  injection Hinit as <- <-. simpl. split.
  - unfold ImageClassifier.classes_query, Common.get_class_query in Hq.
    destruct (session_scope db_file) as [[]|e]; [|done]. simpl in Hq.
    destruct (cfg_class_query config) as [class_query|]; [|done]. eauto.
  - by rewrite Hset, Hmake.
Qed.

Lemma classify_decodes_witness :
  let self := ImageClassifier.mk_t Demo.config "orchids.ann"
                ["Cypripedium"; "Paphiopedilum"] in
  let phenotype := [Q2Qc (1 # 2); Q2Qc (1 # 4)] in
  @ImageClassifier.__init__ Demo.externals Demo.config "orchids.ann"
    "photos/photos.db" Demo.world0 = (Demo.world0, Ok self) ∧
  @phenotyper_set Demo.externals Demo.config "3.jpg" = Ok () ∧
  @phenotyper_make Demo.externals Demo.config "3.jpg" = Ok phenotype ∧
  @ImageClassifier.classify Demo.externals self "3.jpg" Demo.error
  = (codewords ← Common.get_codewords (ImageClassifier.classes self)
                   Common.default_neg Common.default_pos;
     @Common.get_classification Demo.exact codewords
       (@ann_run Demo.externals "orchids.ann" phenotype) Demo.error).
Proof.
  intros self phenotype.
  assert (@ImageClassifier.__init__ Demo.externals Demo.config "orchids.ann"
            "photos/photos.db" Demo.world0 = (Demo.world0, Ok self)) as Hinit
    by (by vm_compute).
  split_and!; [done..|].
  apply (@classify_decodes Demo.externals Demo.config "orchids.ann"
           "photos/photos.db" "3.jpg" Demo.error Demo.world0 Demo.world0
           self phenotype Hinit); reflexivity.
Defined.

(** In the example the image is classified as [Cypripedium]. *)
Example classify_demo :
  @ImageClassifier.classify Demo.externals
    (ImageClassifier.mk_t Demo.config "orchids.ann"
       ["Cypripedium"; "Paphiopedilum"]) "3.jpg" Demo.error
  = Ok ["Cypripedium"].
Proof. by vm_compute. Qed.

(** ** [MakeTrainData.export] *)

(** C8.  When the query for the images returns an empty list, [export]
    returns without opening the output file: no file is changed, and a
    file that exists at that path keeps its text. *)
Theorem export_no_images `{Externals} (debug : bool) (self : MakeTrainData.t)
    (filename : string) (class_query : class_query) (w : world) :
  MakeTrainData.export_query self = Ok (class_query, []) →
  ∃ w', MakeTrainData.export debug self filename w = (w', Ok ()) ∧
        files w' = files w ∧ dirs w' = dirs w.
Proof.
  intros Hq. eexists. unfold MakeTrainData.export.
  unfold mbind at 1, M_bind at 1, lift. rewrite Hq. simpl.
  unfold logging. split_and!; done.
Qed.

Lemma export_no_images_witness :
  @MakeTrainData.export_query Demo.externals_empty Demo.train_data
    = Ok (Demo.query, []) ∧
  ∃ w', @MakeTrainData.export Demo.externals_empty true Demo.train_data
          "train.tsv" Demo.world1 = (w', Ok ()) ∧
        files w' = files Demo.world1 ∧ dirs w' = dirs Demo.world1.
Proof.
  assert (@MakeTrainData.export_query Demo.externals_empty Demo.train_data
          = Ok (Demo.query, [])) as Hq by reflexivity.
  split; [done|].
  exact (@export_no_images Demo.externals_empty true Demo.train_data
           "train.tsv" Demo.query Demo.world1 Hq).
Defined.

(** The old text is still there. *)
Example export_no_images_demo :
  files (@MakeTrainData.export Demo.externals_empty true Demo.train_data
           "train.tsv" Demo.world1).1 !! "train.tsv" = Some "old".
Proof. by vm_compute. Qed.
(** ** Files *)

Lemma append_assoc (s1 s2 s3 : string) :
  (s1 +:+ s2) +:+ s3 = s1 +:+ (s2 +:+ s3).
Proof.
  induction s1 as [|c s1 IH]; [done|].
  change (String c ((s1 +:+ s2) +:+ s3) = String c (s1 +:+ s2 +:+ s3)).
  by rewrite IH.
Qed.

Lemma append_nil_r (s : string) : s +:+ "" = s.
Proof.
  induction s as [|c s IH]; [done|].
  change (String c (s +:+ "") = String c s). by rewrite IH.
Qed.

Lemma append_cons (c : Ascii.ascii) (s1 s2 : string) :
  String c s1 +:+ s2 = String c (s1 +:+ s2).
Proof. done. Qed.

Lemma tsv_cons (row : list string) (rows : list (list string)) :
  tsv (row :: rows) = tsv_line row +:+ tsv rows.
Proof. done. Qed.

Lemma tsv_app (rows1 rows2 : list (list string)) :
  tsv (rows1 ++ rows2) = tsv rows1 +:+ tsv rows2.
Proof.
  induction rows1 as [|row rows1 IH]; [done|].
  rewrite <-app_comm_cons, !tsv_cons, IH. by rewrite append_assoc.
Qed.

Lemma tsv_snoc (rows : list (list string)) (row : list string) :
  tsv (rows ++ [row]) = tsv rows +:+ tsv_line row.
Proof.
  rewrite tsv_app, tsv_cons. change (tsv []) with "". by rewrite append_nil_r.
Qed.

(** *** Fields and lines *)

Lemma n_fields_app (s1 s2 : string) :
  n_fields (s1 +:+ s2) + 1 = n_fields s1 + n_fields s2.
Proof.
  induction s1 as [|c s1 IH].
  - change ("" +:+ s2) with s2. simpl. lia.
  - rewrite append_cons. cbn [n_fields]. destruct (is_tab c); lia.
Qed.

Lemma n_fields_clean (s : string) : clean s = true → n_fields s = 1.
Proof.
  induction s as [|c s IH]; [done|]. cbn [clean n_fields].
  destruct (is_tab c); [done|]. simpl. intros [_ Hs]%andb_prop. auto.
Qed.

Lemma n_fields_join (row : list string) :
  Forall (λ field, clean field = true) row → row ≠ [] →
  n_fields (join tab row) = length row.
Proof.
  induction 1 as [|field row Hfield Hrow IH]; [done|]. intros _.
  destruct row as [|field' row]; [by apply n_fields_clean|].
  cbn [join length].
  pose proof (n_fields_app field (tab +:+ join tab (field' :: row))) as H1.
  pose proof (n_fields_app tab (join tab (field' :: row))) as H2.
  rewrite (n_fields_clean field) in H1 by done.
  change (n_fields tab) with 2 in H2.
  rewrite IH in H2 by done. simpl in *. lia.
Qed.

Lemma one_line_app (s1 s2 : string) :
  one_line (s1 +:+ s2) = one_line s1 && one_line s2.
Proof.
  induction s1 as [|c s1 IH]; [done|].
  rewrite append_cons. cbn [one_line]. rewrite IH. by rewrite andb_assoc.
Qed.

Lemma one_line_clean (s : string) : clean s = true → one_line s = true.
Proof.
  induction s as [|c s IH]; [done|]. cbn [clean one_line].
  intros [[_ ->]%andb_prop Hs]%andb_prop. simpl. auto.
Qed.

Lemma one_line_join (row : list string) :
  Forall (λ field, clean field = true) row → one_line (join tab row) = true.
Proof.
  induction 1 as [|field row Hfield Hrow IH]; [done|].
  destruct row as [|field' row]; [by apply one_line_clean|].
  change (join tab (field :: field' :: row))
    with (field +:+ tab +:+ join tab (field' :: row)).
  rewrite !one_line_app, IH. by rewrite (one_line_clean field).
Qed.

Lemma lines_from_app (line s rest : string) :
  one_line s = true →
  lines_from line (s +:+ rest) = lines_from (line +:+ s) rest.
Proof.
  revert line. induction s as [|c s IH]; intros line.
  - intros _. by rewrite append_nil_r.
  - cbn [one_line]. intros [Hc Hs]%andb_prop.
    rewrite append_cons. cbn [lines_from].
    destruct (is_newline c); [done|].
    rewrite IH by done. by rewrite append_assoc.
Qed.

Lemma lines_from_line (line s rest : string) :
  one_line s = true →
  lines_from line (s +:+ newline +:+ rest)
  = (line +:+ s) :: lines_from "" rest.
Proof. intros Hs. by rewrite lines_from_app. Qed.

(** The lines of a tab separated file are its rows, when no field has
    a tab or a line break in it. *)
Lemma text_lines_tsv (rows : list (list string)) :
  Forall (Forall (λ field, clean field = true)) rows →
  text_lines (tsv rows) = join tab <$> rows.
Proof.
  unfold text_lines.
  induction 1 as [|row rows Hrow Hrows IH]; [done|].
  rewrite tsv_cons. unfold tsv_line. rewrite append_assoc.
  rewrite lines_from_line by by apply one_line_join.
  by rewrite IH.
Qed.

(** Rows of [n] fields without tabs and line breaks make a file whose
    lines have [n] fields. *)
Lemma fixed_width_tsv (header : list string) (rows : list (list string))
    (n : nat) :
  0 < n →
  Forall (λ row, length row = n ∧ Forall (λ field, clean field = true) row)
    (header :: rows) →
  text_lines (tsv (header :: rows)) = join tab header :: (join tab <$> rows) ∧
  Forall (λ line, n_fields line = n) (join tab header :: (join tab <$> rows)).
Proof.
  intros Hn Hrows. split.
  - rewrite text_lines_tsv; [done|].
    eapply Forall_impl; [exact Hrows|]. by intros row [_ ?].
  - rewrite <-fmap_cons. apply Forall_fmap.
    eapply Forall_impl; [exact Hrows|]. intros row [Hlen Hclean]. simpl.
    rewrite n_fields_join; [done..|]. intros ->. simpl in Hlen. lia.
Qed.

(** *** The statements on files *)

Lemma bind_M_inv {A B} (m : M A) (k : A → M B) (w w' : world)
    (r : result B) :
  (m ≫= k) w = (w', r) →
  (∃ w1 a, m w = (w1, Ok a) ∧ k a w1 = (w', r)) ∨
  (∃ e, m w = (w', Raise e) ∧ r = Raise e).
Proof.
  unfold mbind, M_bind. destruct (m w) as [w1 [a|e]]; intros Hr.
  - left. eauto.
  - right. injection Hr as <- <-. eauto.
Qed.

Lemma open_w_ok (path : string) (w : world) :
  can_open_w path w = true →
  open_w path w = (set_files (insert path "") w, Ok ()).
Proof. unfold open_w. by intros ->. Qed.

(** When the file cannot be opened, [open] raises [IOError] and
    nothing changes. *)
Lemma open_w_raises (path : string) (w : world) :
  can_open_w path w = false →
  ∃ e, open_w path w = (w, Raise e) ∧ exn_cls e = IOError.
Proof.
  unfold open_w. intros ->. case_bool_decide; by eexists.
Qed.

Lemma holds_open_w (path : string) (w : world) :
  can_open_w path w = true → holds path "" (open_w path w).1.
Proof.
  intros Hopen. rewrite open_w_ok by done.
  unfold holds; simpl. apply lookup_insert_eq.
Qed.

Lemma holds_fh_write (path text s : string) (w : world) :
  holds path text w → holds path (text +:+ s) (fh_write path s w).1.
Proof.
  unfold holds, fh_write; simpl. intros Hw.
  by rewrite lookup_alter_eq, Hw.
Qed.

(** ** The header and the loop of [export] *)

Lemma make_header_out_length (config : Config.config) (n_out : nat)
    (data out : list string) :
  MakeTrainData.__make_header config n_out = Ok (data, out) →
  length out = n_out.
Proof.
  unfold MakeTrainData.__make_header.
  destruct (cfg_features config) as [features|]; [|done].
  destruct (MakeTrainData.foldM _ _ _) as [data'|e]; [|done].
  simpl. intros [= <- <-].
  rewrite length_fmap. unfold MakeTrainData.range.
  rewrite length_seqZ. lia.
Qed.

Lemma get_codewords_lengths {V} (classes : list string) (neg pos : V)
    (codewords : gmap string (list V)) (c : string) (cw : list V) :
  Common.get_codewords classes neg pos = Ok codewords →
  codewords !! c = Some cw → length cw = length classes.
Proof.
  rewrite get_codewords_eq. intros [= <-] Hcw.
  apply codewords_of_lookup in Hcw as (i & _ & _ & ->).
  apply one_hot_length.
Qed.

Section AssertFacts.
Context `{Externals} (self : MakeTrainData.t).
Context (codewords : gmap string (list Qc)) (header_data : list string).
Context (all : list (string * string)).
Context (Hfit : phenotypes_fit self all (length header_data)).

(** Under the precondition the [assert] changes nothing. *)
Lemma export_images_assert images td failed w :
  images ⊆ all →
  MakeTrainData.export_images true self codewords header_data images
    td failed w
  = MakeTrainData.export_images false self codewords header_data images
      td failed w.
Proof.
  revert td failed w. induction images as [|[im_path im_class] images IH];
    intros td failed w Hsub; [done|].
  assert (images ⊆ all) as Hsub' by set_solver.
  assert ((im_path, im_class) ∈ all) as Hin by set_solver.
  cbn [MakeTrainData.export_images].
  unfold mbind, M_bind, logging, lift, assert_, mret, M_ret.
  destruct (phenotyper_set _ _) as [[]|e] eqn:Hset; [|by apply IH].
  destruct (phenotyper_make _ _) as [phenotype|e] eqn:Hmake; [|done].
  pose proof (Hfit _ _ Hin Hset Hmake) as Hlen.
  rewrite bool_decide_true by done. simpl.
  destruct (MakeTrainData.dict_getitem codewords im_class); [|done].
  by apply IH.
Qed.

End AssertFacts.

Section ExportFacts.
Context `{Externals} (self : MakeTrainData.t).
Context (codewords : gmap string (list Qc)) (header_data : list string).
Context (n_out : nat) (all : list (string * string)).
Context (Hcodewords : ∀ c cw, codewords !! c = Some cw → length cw = n_out).
Context (Hfit : phenotypes_fit self all (length header_data)).

Local Abbreviation ok := (sample_of all (length header_data) n_out).

(** The loop does not touch the files, and what it appends are
    samples of the images, of the fixed width. *)
Lemma export_images_spec debug images td failed w w' r :
  images ⊆ all →
  MakeTrainData.export_images debug self codewords header_data images
    td failed w = (w', r) →
  Forall ok (MakeTrainData.samples td) →
  files w' = files w ∧
  ∀ td' failed', r = Ok (td', failed') → Forall ok (MakeTrainData.samples td').
Proof.
  revert td failed w. induction images as [|[im_path im_class] images IH];
    intros td failed w Hsub Hrun Htd.
  - injection Hrun as <- <-. split; [done|]. by intros ?? [= <- <-].
  - assert (images ⊆ all) as Hsub' by set_solver.
    assert ((im_path, im_class) ∈ all) as Hin by set_solver.
    cbn [MakeTrainData.export_images] in Hrun.
    unfold mbind, M_bind, logging, lift, assert_, mret, M_ret in Hrun.
    destruct (phenotyper_set _ _) as [[]|e] eqn:Hset;
      [|by apply IH in Hrun].
    destruct (phenotyper_make _ _) as [phenotype|e] eqn:Hmake;
      [|by injection Hrun as <- <-].
    pose proof (Hfit _ _ Hin Hset Hmake) as Hlen.
    rewrite bool_decide_true, andb_false_r in Hrun by done.
    unfold MakeTrainData.dict_getitem in Hrun.
    destruct (codewords !! im_class) as [cw|] eqn:Hcw;
      [|by injection Hrun as <- <-].
    apply IH in Hrun; [done..|].
    unfold MakeTrainData.TrainData_append; simpl.
    apply Forall_app; split; [done|]. apply Forall_singleton.
    split; [split_and!; simpl; eauto|].
    by exists (im_path, im_class).
Qed.

Lemma write_rows_spec filename rows text w :
  Forall (λ s : sample, is_Some s.1.1) rows →
  holds filename text w →
  ∃ w', MakeTrainData.write_rows filename rows w = (w', Ok ()) ∧
        holds filename (text +:+ tsv (row_of_sample <$> rows)) w'.
Proof.
  intros Hrows. revert text w.
  induction Hrows as [|[[label input] output] rows [l Hl] _ IH];
    intros text w Hw.
  - eexists. split; [done|]. change (tsv []) with "". by rewrite append_nil_r.
  - simpl in Hl. subst label. cbn [MakeTrainData.write_rows].
    unfold mbind, M_bind, fh_write.
    pose proof (holds_fh_write filename text
                  (tsv_line (MakeTrainData.data_row l input output)) w Hw)
      as Hw1.
    unfold fh_write in Hw1. cbn [fst] in Hw1.
    destruct (IH _ _ Hw1) as (w' & Hrun & Hw'). rewrite Hrun.
    eexists. split; [done|].
    rewrite fmap_cons, tsv_cons, <-append_assoc. exact Hw'.
Qed.

(** The row of a sample of the images has the fixed width and, when
    the paths and the numbers are printed without tabs and line
    breaks, so are its fields. *)
Lemma row_of_sample_width (s : sample) :
  ok s → length (row_of_sample s) = 1 + length header_data + n_out.
Proof.
  destruct s as [[label input] output]. intros [(_ & Hin & Hout) _].
  simpl in *. unfold row_of_sample, MakeTrainData.data_row; simpl.
  rewrite !length_app, !length_fmap. lia.
Qed.

Lemma row_of_sample_clean (s : sample) :
  Forall (λ image, clean image.1 = true) all →
  (∀ x, clean (astype_str x) = true) →
  ok s → Forall (λ field, clean field = true) (row_of_sample s).
Proof.
  destruct s as [[label input] output].
  intros Hall Hnum [_ (image & Hin & Hlabel)]. simpl in Hlabel. subst label.
  unfold row_of_sample, MakeTrainData.data_row; simpl.
  constructor.
  - rewrite Forall_forall in Hall. by apply Hall.
  - apply Forall_app. split; apply Forall_fmap, Forall_forall; intros x _;
      apply Hnum.
Qed.
End ExportFacts.

Lemma log_failed_files `{Externals} (failed : list string) (w : world) :
  ∃ w', MakeTrainData.log_failed failed w = (w', Ok ()) ∧ files w' = files w.
Proof.
  revert w. induction failed as [|path failed IH]; intros w; [by eexists|].
  cbn [MakeTrainData.log_failed]. unfold mbind, M_bind, logging.
  destruct (IH (add_log (WARNING, "- " +:+ path) w)) as (w' & -> & Hw').
  by eexists.
Qed.

(** What [export] leaves in the file, for a query and a header that
    could be made: the header and the rows of samples of the images
    when there are images and the file can be opened, and else what
    was there. *)
Lemma export_file `{Externals} (self : MakeTrainData.t)
    (filename : string) (class_query : class_query)
    (images : list (string * string)) (header_data header_out : list string)
    (debug : bool) (w : world) :
  let classes : gset string := list_to_set (images.*2) in
  let header := ["ID"] ++ header_data ++ header_out in
  MakeTrainData.export_query self = Ok (class_query, images) →
  MakeTrainData.__make_header (MakeTrainData.config self) (size classes)
    = Ok (header_data, header_out) →
  phenotypes_fit self images (length header_data) →
  let w' := (MakeTrainData.export debug self filename w).1 in
  (files w' = files w ∧ (images = [] ∨ can_open_w filename w = false)) ∨
  ∃ rows,
    can_open_w filename w = true ∧ images ≠ [] ∧
    files w' !! filename = Some (tsv (header :: (row_of_sample <$> rows))) ∧
    Forall (sample_of images (length header_data) (size classes)) rows.
Proof.
  intros classes header Hq Hheader Hfit. subst classes. cbv zeta.
  unfold MakeTrainData.export. unfold mbind, M_bind, lift.
  rewrite Hq. cbn beta iota zeta.
  destruct (bool_decide (length images = 0)) eqn:Hne.
  { apply bool_decide_eq_true in Hne. left. split; [done|].
    left. by destruct images. }
  apply bool_decide_eq_false in Hne.
  unfold logging, fh_write. rewrite get_codewords_eq, Hheader.
  cbn beta iota zeta.
  set (w1 := add_log _ w).
  assert (can_open_w filename w1 = can_open_w filename w) as Hsame by done.
  destruct (can_open_w filename w1) eqn:Hopen; last first.
  { destruct (open_w_raises filename w1 Hopen) as (e & -> & _).
    left. split; [done|]. by right. }
  rewrite (open_w_ok filename w1 Hopen). right.
  set (n_out := size (list_to_set images.*2 : gset string)).
  assert (∀ c cw,
    codewords_of (length (elements (list_to_set images.*2 : gset string)))
      Common.default_neg Common.default_pos
      (enumerate (sorted str_ltb (elements (list_to_set images.*2 : gset string)))) ∅
      !! c = Some cw → length cw = n_out) as Hcodewords.
  { intros c cw Hcw. by eapply get_codewords_lengths; [apply get_codewords_eq|]. }
  pose proof (holds_fh_write filename "" (tsv_line header) _
                (holds_open_w filename w1 Hopen)) as Hw3.
  rewrite (open_w_ok filename w1 Hopen) in Hw3. cbn [fst] in Hw3.
  change ("" +:+ tsv_line header) with (tsv_line header) in Hw3.
  unfold fh_write in Hw3. cbn [fst] in Hw3.
  set (w3 := set_files _ (set_files _ _)) in *.
  assert (tsv_line header = tsv [header]) as Hone.
  { change (tsv [header]) with (tsv_line header +:+ "").
    by rewrite append_nil_r. }
  destruct (MakeTrainData.export_images debug self _ header_data images _ [] w3)
    as [w4 [[td failed]|e]] eqn:Hloop.
  - eapply (export_images_spec self _ header_data n_out images) in Hloop
      as [Hfiles Hsamples]; [|done..|by constructor].
    specialize (Hsamples _ _ eq_refl).
    assert (holds filename (tsv [header]) w4) as Hw4
      by (unfold holds; by rewrite Hfiles, <-Hone).
    set (rows := MakeTrainData.samples (MakeTrainData.TrainData_round_input td)).
    assert (Forall (sample_of images (length header_data) n_out) rows)
      as Hrows.
    { unfold rows, MakeTrainData.TrainData_round_input; simpl.
      apply Forall_fmap. eapply Forall_impl; [exact Hsamples|].
      intros [[label input] output] [(? & ? & ?) ?]. split; [|done].
      split_and!; simpl in *; [done| |done]. by rewrite length_fmap. }
    destruct (write_rows_spec filename rows (tsv [header]) w4)
      as (w5 & -> & Hw5); [|done|].
    { eapply Forall_impl; [exact Hrows|]. by intros s [(? & _) _]. }
    exists rows. split_and!; [by rewrite <-Hsame|by destruct images| |done].
    assert (files w5 !! filename
            = Some (tsv (header :: (row_of_sample <$> rows)))) as Hfile.
    { rewrite Hw5. by rewrite <-tsv_app. }
    unfold logging. destruct (bool_decide (0 < length failed)); cbn beta.
    + destruct (log_failed_files failed
                  (add_log (WARNING, "Some files could not be processed:")
                     (add_log (INFO, "Training data written to " +:+ filename) w5)))
        as (w6 & -> & Hw6). cbn [fst]. by rewrite Hw6.
    + done.
  - eapply (export_images_spec self _ header_data n_out images) in Hloop
      as [Hfiles _]; [|done..|by constructor].
    exists []. split_and!; [by rewrite <-Hsame|by destruct images| |by constructor].
    cbn [fst]. rewrite Hfiles. unfold holds in Hw3. rewrite Hw3.
    by rewrite Hone.
Qed.


(** *** The example *)

Lemma clean_app (s1 s2 : string) : clean (s1 +:+ s2) = clean s1 && clean s2.
Proof.
  induction s1 as [|c s1 IH]; [done|].
  rewrite append_cons. cbn [clean]. rewrite IH. by rewrite andb_assoc.
Qed.

Lemma clean_digit (d : N) (s : string) :
  clean (String (pretty_N_char d) s) = clean s.
Proof.
  destruct d as [|p]; [done|].
  do 4 (destruct p as [p|p|]; try done).
Qed.

Lemma clean_pretty_N_go (x : N) (s : string) :
  clean s = true → clean (pretty_N_go x s) = true.
Proof.
  revert s. induction (N.lt_wf_0 x) as [x _ IH]; intros s Hs.
  destruct (decide (x = 0)%N) as [->|Hx]; [by rewrite pretty_N_go_0|].
  rewrite pretty_N_go_step by lia. apply IH.
  - apply N.div_lt; lia.
  - by rewrite clean_digit.
Qed.

Lemma clean_pretty_N (x : N) : clean (pretty x) = true.
Proof.
  unfold pretty, pretty_N. case_decide; [done|]. by apply clean_pretty_N_go.
Qed.

Lemma clean_pretty_Z (x : Z) : clean (pretty x) = true.
Proof.
  destruct x as [|p|p]; [done|apply clean_pretty_N|].
  unfold pretty, pretty_Z. rewrite clean_app.
  change (pretty p) with (pretty (Npos p)). by rewrite clean_pretty_N.
Qed.

(** The numbers of the examples are printed without tabs. *)
Lemma clean_show_num (x : Qc) : clean (Demo.show_num x) = true.
Proof.
  unfold Demo.show_num. rewrite !clean_app, !clean_pretty_Z. done.
Qed.


(** The file of the example: the header and one row for each photo. *)
Example export_demo :
  can_open_w "train.tsv" Demo.world1 = true ∧
  (@MakeTrainData.export Demo.externals true Demo.train_data "train.tsv"
     Demo.world1).2 = Ok () ∧
  files (@MakeTrainData.export Demo.externals true Demo.train_data
           "train.tsv" Demo.world1).1 !! "train.tsv"
  = Some (tsv [["ID"; "OUTLINE:1.X"; "OUTLINE:1.Y"; "OUT:1"; "OUT:2"];
               ["1.jpg"; "1/2"; "1/4"; "1/1"; "-1/1"];
               ["2.jpg"; "1/2"; "1/4"; "-1/1"; "1/1"]]).
Proof. by vm_compute. Qed.


Lemma head_is_match (expected : string) (class_ann : list string) :
  bool_decide (head class_ann = Some expected) = is_match expected class_ann.
Proof.
  destruct class_ann as [|first rest]; simpl; [done|].
  apply bool_decide_ext. split; congruence.
Qed.

Lemma get_classification_ok_size `{Runtime} (codewords : gmap string (list Qc))
    (codeword : list Qc) (error : Qc) (l : list string) :
  Common.get_classification codewords codeword error = Ok l →
  size codewords = length codeword.
Proof.
  rewrite get_classification_eq.
  case_decide as Hne; [done|]. intros _.
  destruct (decide (size codewords = length codeword)); [done|].
  by destruct Hne.
Qed.

Section ResultsFacts.
Context `{Externals} (debug : bool) (self : TestAnn.t) (ann_file : string).
Context (filename : string) (error : Qc) (codewords : gmap string (list Qc)).
Context (Hann : TestAnn.ann self = Some ann_file).

(** The loop writes one row for each sample and counts the matches. *)
Lemma results_loop_spec data decoded total correct fraction text w :
  Forall2 (decodes_sample codewords ann_file error) data decoded →
  holds filename text w →
  ∃ w' fraction',
    TestAnn.results_loop debug self filename error codewords data
      (total, correct, fraction) w
    = (w', Ok (total + length data, correct + matches_count decoded, fraction')) ∧
    holds filename (text +:+ tsv (result_rows data decoded)) w' ∧
    (data = [] → fraction' = fraction) ∧
    (data ≠ [] → fraction' =
       Some (num_div (TestAnn.num_of_nat (correct + matches_count decoded))
               (TestAnn.num_of_nat (total + length data)))).
Proof.
  intros Hdata. revert total correct fraction text w. unfold sample in *.
  induction Hdata as [|[[label input] output] [expected class_ann]
                       data decoded [Hexpected Hclass] Hrest IH];
    intros total correct fraction text w Hw.
  - exists w, fraction. rewrite !Nat.add_0_r. split_and!; [done| |done|done].
    change (tsv (result_rows [] [])) with "". by rewrite append_nil_r.
  - simpl in Hexpected, Hclass.
    cbn [TestAnn.results_loop].
    rewrite bool_decide_false; last first.
    { intros Hne. apply Hne. by eapply get_classification_ok_size. }
    unfold mbind, M_bind, lift, assert_, mret, M_ret, fh_write.
    rewrite Hexpected. simpl.
    rewrite andb_false_r. unfold TestAnn.self_ann_run. rewrite Hann, Hclass.
    rewrite head_is_match.
    set (row := [default "" label] ++ [expected] ++ [join ", " class_ann]
                ++ [if is_match expected class_ann then "+" else "-"]).
    pose proof (holds_fh_write filename text (tsv_line row) w Hw) as Hw1.
    unfold fh_write in Hw1. cbn [fst] in Hw1.
    edestruct (IH (total + 1)
                 (if is_match expected class_ann then correct + 1 else correct))
      as (w' & fraction' & Hrun & Hw' & Hnil & Hcons); [exact Hw1|].
    assert (matches_count ((expected, class_ann) :: decoded)
            = (if is_match expected class_ann then 1 else 0)
              + matches_count decoded) as Hcount.
    { unfold matches_count. rewrite filter_cons. simpl.
      destruct (is_match expected class_ann); [|done].
      by rewrite decide_True. }
    assert ((if is_match expected class_ann then correct + 1 else correct)
              + matches_count decoded
            = correct + matches_count ((expected, class_ann) :: decoded))
      as Hcorrect.
    { rewrite Hcount. destruct (is_match expected class_ann); lia. }
    assert (total + 1 + length data = total + S (length data)) as Htotal
      by lia.
    exists w', fraction'. rewrite <-Hcorrect, <-Htotal. split_and!.
    + exact Hrun.
    + rewrite <-append_assoc. exact Hw'.
    + done.
    + intros _. destruct (decide (data = [])) as [->|Hne].
      * apply Forall2_nil_inv_l in Hrest as ->. rewrite Hnil by done.
        unfold matches_count; simpl. by rewrite !Nat.add_0_r.
      * by apply Hcons.
Qed.
End ResultsFacts.



(** The file of the example: one sample of two matches. *)
Example export_results_demo :
  files (@TestAnn.export_results Demo.externals true
           (TestAnn.mk_t Demo.config (Some "orchids.ann") (Some Demo.test_data))
           "results.tsv" "photos/photos.db" Demo.error Demo.world0).1
    !! "results.tsv"
  = Some (tsv [["ID"; "Class"; "Classification"; "Match"];
               ["1.jpg"; "Cypripedium"; "Cypripedium"; "+"];
               ["2.jpg"; "Paphiopedilum"; "Cypripedium"; "-"];
               [""; ""; ""; "1/2"]]).
Proof. by vm_compute. Qed.

(** C6, where the code departs from it.  With test data that hold no
    sample, classes in the database and a file that can be opened,
    [export_results] writes the header ID/Class/Classification/Match
    and then, instead of the line with the fraction, raises
    [UnboundLocalError]: [fraction] is assigned in the loop only.  The
    file is left with the header alone. *)
Theorem export_results_no_samples `{Externals} (debug : bool)
    (self : TestAnn.t) (filename db_path : string) (error : Qc)
    (class_query : class_query) (classes : list string) (w : world) :
  TestAnn.test_data self = Some [] →
  TestAnn.results_query self db_path = Ok (class_query, classes) →
  classes ≠ [] →
  can_open_w filename w = true →
  ∃ w',
    TestAnn.export_results debug self filename db_path error w
    = (w', Raise (mk_exn UnboundLocalError
                    "local variable 'fraction' referenced before assignment")) ∧
    files w' !! filename = Some (tsv [results_header]) ∧
    text_lines (tsv [results_header]) = [join tab results_header].
Proof.
  intros Hdata Hquery Hclasses Hopen.
  unfold TestAnn.export_results. rewrite Hdata.
  unfold mbind, M_bind, lift, fh_write, logging.
  rewrite Hquery. cbn beta iota.
  rewrite bool_decide_false by by destruct classes.
  rewrite (open_w_ok filename w Hopen), get_codewords_eq. simpl.
  eexists. split_and!; [done| |done].
  unfold set_files; cbn [files].
  rewrite lookup_alter_eq, lookup_insert_eq.
  change (tsv [results_header]) with (tsv_line results_header +:+ "").
  by rewrite append_nil_r.
Qed.

Lemma export_results_no_samples_witness :
  let self := TestAnn.mk_t Demo.config (Some "orchids.ann") (Some []) in
  let classes := ["Cypripedium"; "Paphiopedilum"] in
  TestAnn.test_data self = Some [] ∧
  @TestAnn.results_query Demo.externals self "photos/photos.db"
    = Ok (Demo.query, classes) ∧
  classes ≠ [] ∧
  can_open_w "results.tsv" Demo.world0 = true ∧
  ∃ w',
    @TestAnn.export_results Demo.externals true self "results.tsv"
      "photos/photos.db" Demo.error Demo.world0
    = (w', Raise (mk_exn UnboundLocalError
                    "local variable 'fraction' referenced before assignment")) ∧
    files w' !! "results.tsv" = Some (tsv [results_header]) ∧
    text_lines (tsv [results_header]) = [join tab results_header].
Proof.
  intros self classes.
  assert (@TestAnn.results_query Demo.externals self "photos/photos.db"
          = Ok (Demo.query, classes)) as Hquery by reflexivity.
  assert (classes ≠ []) as Hclasses by done.
  assert (can_open_w "results.tsv" Demo.world0 = true) as Hopen
    by (by vm_compute).
  split_and!; [done..|].
  exact (@export_results_no_samples Demo.externals true self "results.tsv"
           "photos/photos.db" Demo.error Demo.query classes Demo.world0
           eq_refl Hquery Hclasses Hopen).
Defined.

(** ** [main] *)

(** C4, as the code has it.  An exception raised during task [data] is
    logged and then leaves [main]; one raised during task [test-ann]
    or [classify] leaves [main] as it is, and [main] logs nothing. *)
Theorem main_propagates `{Externals} (debug : bool) (cmd : Main.command)
    (w w' : world) (e : exn) :
  Main.task debug cmd w = (w', Raise e) →
  is_Exception e = true →
  match cmd with
  | Main.cmd_data _ _ _ _ =>
      Main.main debug cmd w = (add_log (ERROR, exn_msg e) w', Raise e)
  | Main.cmd_ann _ _ _ _ _ => True
  | Main.cmd_test_ann _ _ _ _ _ _ | Main.cmd_classify _ _ _ _ _ =>
      Main.main debug cmd w = (w', Raise e)
  end.
Proof.
  intros Htask Hexn.
  destruct cmd; [|done|..]; unfold Main.main;
    unfold mbind, M_bind, try_except; rewrite Htask; [|done..].
  rewrite Hexn. unfold logging, raise. done.
Qed.

Lemma main_propagates_witness :
  let e := Demo.no_such_file "missing.yml" in
  @Main.task Demo.externals true Demo.data_missing Demo.world0
    = (Demo.world0, Raise e) ∧
  is_Exception e = true ∧
  @Main.main Demo.externals true Demo.data_missing Demo.world0
    = (add_log (ERROR, exn_msg e) Demo.world0, Raise e).
Proof.
  intros e.
  assert (@Main.task Demo.externals true Demo.data_missing Demo.world0
          = (Demo.world0, Raise e)) as Htask by reflexivity.
  assert (is_Exception e = true) as Hexn by reflexivity.
  split_and!; [done..|].
  exact (@main_propagates Demo.externals true Demo.data_missing
           Demo.world0 Demo.world0 e Htask Hexn).
Defined.

(** C4 as it is stated fails for task [classify]: the exception leaves
    [main], but nothing has been logged. *)
Lemma main_classify_not_logged :
  ¬ @logged_and_propagated Demo.externals true Demo.classify_missing
      Demo.world0.
Proof.
  intros Hclaim.
  destruct (Hclaim Demo.world0 (Demo.no_such_file "missing.yml"))
    as (w'' & Hmain & Hlog); [reflexivity..|].
  vm_compute in Hmain. injection Hmain as <-.
  by apply elem_of_nil in Hlog.
Qed.

(** Task [ann] logs the exception and drops it: [main] goes on to
    [sys.exit()]. *)
Lemma main_ann_drops `{Externals} (debug : bool)
    (conf : option string) (epochs error : option Qc) (output data : string)
    (w w' : world) (e : exn) :
  Main.task debug (Main.cmd_ann conf epochs error output data) w
    = (w', Raise e) →
  is_Exception e = true →
  Main.main debug (Main.cmd_ann conf epochs error output data) w
  = (add_log (ERROR, exn_msg e) w', Raise (mk_exn SystemExit "")).
Proof.
  intros Htask Hexn. unfold Main.main.
  unfold mbind, M_bind, try_except. rewrite Htask, Hexn. done.
Qed.

Example main_ann_demo :
  @Main.main Demo.externals true Demo.ann_missing Demo.world0
  = (add_log (ERROR, "Cannot open missing.yml (no such file)") Demo.world0,
     Raise (mk_exn SystemExit "")).
Proof. reflexivity. Qed.

(** * Further properties *)

(** ** Codewords and their decoding *)

Lemma size_list_to_set_lt (l : list string) :
  ¬ NoDup l → size (list_to_set l : gset string) < length l.
Proof.
  induction l as [|x l IH]; intros Hnd; [by destruct Hnd; constructor|].
  assert (size (list_to_set l : gset string) ≤ length l) as Hle.
  { destruct (decide (NoDup l)) as [Hl|Hl].
    - by rewrite size_list_to_set.
    - apply Nat.lt_le_incl. by apply IH. }
  simpl. destruct (decide (x ∈ l)) as [Hx|Hx].
  - assert ({[x]} ∪ list_to_set l =@{gset string} list_to_set l) as ->
      by set_solver.
    lia.
  - rewrite size_union by set_solver. rewrite size_singleton.
    assert (¬ NoDup l) as Hl by (intros Hl; apply Hnd; by constructor).
    apply IH in Hl. lia.
Qed.

(** X1.  When a name occurs twice in [classes], the dictionary of
    [get_codewords] has fewer entries than its codewords have numbers,
    and decoding any of these codewords raises [ValueError]. *)
Theorem decode_with_duplicates_raises `{Runtime} (classes : list string)
    (codewords : gmap string (list Qc)) (c : string) (cw : list Qc)
    (error : Qc) :
  ¬ NoDup classes →
  Common.get_codewords classes Common.default_neg Common.default_pos
    = Ok codewords →
  codewords !! c = Some cw →
  Common.get_classification codewords cw error = Raise Common.value_error.
Proof.
  intros Hnd Hcodewords Hcw.
  pose proof (get_codewords_lengths _ _ _ _ _ _ Hcodewords Hcw) as Hlen.
  rewrite get_codewords_eq in Hcodewords. injection Hcodewords as <-.
  rewrite get_classification_eq.
  rewrite decide_True; [done|].
  rewrite <-size_dom, codewords_of_dom, Hlen.
  assert (list_to_set (sorted str_ltb classes) =@{gset string}
          list_to_set classes) as ->.
  { apply set_eq. intros x. rewrite !elem_of_list_to_set.
    apply (sort_by_elem_of str_ltb). }
  apply Nat.lt_neq. by apply size_list_to_set_lt.
Qed.

Lemma decode_with_duplicates_raises_witness :
  let classes := ["a"; "a"] in
  let codewords : gmap string (list Qc) := {["a" := [- 1; 1]%Qc]} in
  ¬ NoDup classes ∧
  Common.get_codewords classes Common.default_neg Common.default_pos
    = Ok codewords ∧
  codewords !! "a" = Some [- 1; 1]%Qc ∧
  @Common.get_classification Demo.exact codewords [- 1; 1]%Qc (Q2Qc (1 # 100))
    = Raise Common.value_error.
Proof.
  intros classes codewords.
  assert (¬ NoDup classes) as Hnd.
  { intros Hnd. apply NoDup_cons in Hnd as [Hnd _]. apply Hnd. set_solver. }
  assert (Common.get_codewords classes Common.default_neg Common.default_pos
          = Ok codewords) as Hcodewords by (by vm_compute).
  assert (codewords !! "a" = Some [- 1; 1]%Qc) as Hcw by reflexivity.
  split_and!; [done..|].
  exact (@decode_with_duplicates_raises Demo.exact classes codewords "a" _
           (Q2Qc (1 # 100)) Hnd Hcodewords Hcw).
Defined.

(** X2.  When [pos] differs from [neg], two classes never share a
    codeword. *)
Theorem get_codewords_injective {V} (classes : list string) (neg pos : V)
    (codewords : gmap string (list V)) (c1 c2 : string) (cw : list V) :
  neg ≠ pos →
  Common.get_codewords classes neg pos = Ok codewords →
  codewords !! c1 = Some cw → codewords !! c2 = Some cw →
  c1 = c2.
Proof.
  intros Hne. rewrite get_codewords_eq. intros [= <-] Hc1 Hc2.
  apply codewords_of_lookup in Hc1 as (i1 & Hi1 & _ & ->).
  apply codewords_of_lookup in Hc2 as (i2 & Hi2 & _ & Heq).
  pose proof (lookup_lt_Some _ _ _ Hi1) as Hlt1.
  pose proof (lookup_lt_Some _ _ _ Hi2) as Hlt2.
  unfold sorted in Hlt1, Hlt2. rewrite (sort_by_length str_ltb) in Hlt1, Hlt2.
  assert (one_hot (length classes) neg pos i1 !! i1
          = one_hot (length classes) neg pos i2 !! i1) as Hlook by by rewrite Heq.
  rewrite !one_hot_lookup in Hlook by done.
  rewrite decide_True in Hlook by done.
  case_decide as Hi; [|by injection Hlook as <-].
  subst. congruence.
Qed.

Lemma get_codewords_injective_witness :
  let codewords : gmap string (list Z) :=
    <["b" := [-1; 1]%Z]> {["a" := [1; -1]%Z]} in
  (-1)%Z ≠ 1%Z ∧
  Common.get_codewords ["b"; "a"] (-1)%Z 1%Z = Ok codewords ∧
  codewords !! "a" = Some [1; -1]%Z ∧
  "a" = "a".
Proof.
  intros codewords.
  assert ((-1)%Z ≠ 1%Z) as Hne by done.
  assert (Common.get_codewords ["b"; "a"] (-1)%Z 1%Z = Ok codewords)
    as Hcodewords by (by vm_compute).
  assert (codewords !! "a" = Some [1; -1]%Z) as Hcw by reflexivity.
  split_and!; [done..|].
  exact (get_codewords_injective ["b"; "a"] (-1)%Z 1%Z codewords "a" "a" _
           Hne Hcodewords Hcw Hcw).
Defined.

Lemma bind_only {A B} (f : A → list B) (l : list A) (x : A) :
  NoDup l → x ∈ l → (∀ y, y ∈ l → y ≠ x → f y = []) → l ≫= f = f x.
Proof.
  intros Hnd Hx Hf. apply list_elem_of_split in Hx as (l1 & l2 & ->).
  apply NoDup_app in Hnd as (_ & Hl1 & [Hl2 _]%NoDup_cons).
  rewrite bind_app, bind_cons.
  rewrite !bind_nil_all; [by rewrite app_nil_r| |].
  - intros y Hy. apply Hf; [set_solver|]. by intros ->.
  - intros y Hy. apply Hf; [set_solver|]. intros ->.
    by apply (Hl1 x Hy), list_elem_of_here.
Qed.

Lemma fmap_of_bind {A B C} (f : B → C) (g : A → list B) (l : list A) :
  f <$> (l ≫= g) = l ≫= λ y, f <$> g y.
Proof.
  induction l as [|y l IH]; [done|].
  by rewrite !bind_cons, fmap_app, IH.
Qed.

(** The codeword of index [i] collects at most the hit of position [i]. *)
Lemma hits_of_word `{Runtime} (s : list string) (c : string) (out : list Qc)
    (error : Qc) (i : nat) :
  i < length s →
  enumerate (one_hot (length s) Common.default_neg Common.default_pos i)
    ≫= hit c out error
  = hit c out error (i, 1%Qc).
Proof.
  intros Hi. apply bind_only.
  - apply NoDup_enumerate.
  - apply elem_of_enumerate. by apply word_lookup_one.
  - intros [j code] Hj%elem_of_enumerate Hne. unfold hit; cbn [fst snd].
    destruct (num_eqb code 1) eqn:Hcode; [|done].
    apply num_eqb_eq in Hcode as ->.
    apply word_lookup_one in Hj; [|done]. by subst.
Qed.



(** In the example both classes are returned, the stronger first. *)
Example decode_network_output_demo :
  @Common.get_classification Demo.exact
    (<["Paphiopedilum" := [- 1; 1]%Qc]> {["Cypripedium" := [1; - 1]%Qc]})
    [Q2Qc (3 # 4); Q2Qc (7 # 8)] (Q2Qc (1 # 8))
  = Ok ["Paphiopedilum"; "Cypripedium"].
Proof. by vm_compute. Qed.

Lemma hits_nil_all `{Runtime} (codeword : list Qc) (error : Qc)
    (items : list (string * list Qc)) :
  (∀ cls item, hit cls codeword error item = []) →
  hits codeword error items = [].
Proof.
  intros Hhit. unfold hits. apply bind_nil_all. intros [cls cw] _.
  apply bind_nil_all. intros item _. apply Hhit.
Qed.

Lemma get_classification_ok_hits `{Runtime}
    (codewords : gmap string (list Qc)) (codeword : list Qc) (error : Qc)
    (l : list string) :
  Common.get_classification codewords codeword error = Ok l →
  l = (sorted_reverse tuple_ltb
         (hits codeword error (map_to_list codewords))).*2.
Proof.
  rewrite get_classification_eq.
  case_decide; [done|]. destruct (safe_items _ _); [|done]. by intros [= <-].
Qed.

(** X4.  With an error bound that is not positive nothing is ever
    classified: what [get_classification] returns is the empty list. *)
Theorem nonpositive_error_classifies_nothing `{Runtime}
    (codewords : gmap string (list Qc)) (codeword : list Qc) (error : Qc)
    (l : list string) :
  (error ≤ 0)%Qc →
  Common.get_classification codewords codeword error = Ok l →
  l = [].
Proof.
  intros Herror ->%get_classification_ok_hits.
  rewrite hits_nil_all; [done|].
  intros cls [i code]. unfold hit; cbn [fst snd].
  destruct (num_eqb code 1); [|done].
  destruct (codeword !! i) as [x|]; [|done].
  destruct (num_pow2 (num_sub 1 x)) as [square|] eqn:Hsquare; [|done].
  rewrite (proj2 (num_ltb_ge _ _)); [done|].
  etrans; [exact Herror|]. by eapply num_pow2_nonneg.
Qed.

Lemma nonpositive_error_classifies_nothing_witness :
  let codewords : gmap string (list Qc) := {["a" := [1]%Qc]} in
  (0 ≤ 0)%Qc ∧
  @Common.get_classification Demo.exact codewords [1%Qc] 0%Qc = Ok [] ∧
  @nil string = [].
Proof.
  intros codewords.
  assert (0 ≤ 0)%Qc as Herror by apply Qcle_refl.
  assert (@Common.get_classification Demo.exact codewords [1%Qc] 0%Qc = Ok [])
    as Hrun by (by vm_compute).
  split_and!; [done..|].
  exact (@nonpositive_error_classifies_nothing Demo.exact codewords [1%Qc]
           0%Qc [] Herror Hrun).
Defined.

(** X5.  A greater error bound never loses a class: whatever is
    classified within [error] is classified within a greater
    [error'] too. *)
Theorem greater_error_classifies_more `{Runtime}
    (codewords : gmap string (list Qc)) (codeword : list Qc)
    (error error' : Qc) (l : list string) :
  (error ≤ error')%Qc →
  Common.get_classification codewords codeword error = Ok l →
  ∃ l', Common.get_classification codewords codeword error' = Ok l' ∧
        l ⊆ l'.
Proof.
  intros Herror. rewrite !get_classification_eq.
  case_decide; [done|]. destruct (safe_items _ _); [|done].
  intros [= <-]. eexists. split; [done|].
  intros c ([x c'] & -> & Hin)%list_elem_of_fmap.
  apply list_elem_of_fmap. exists (x, c'). split; [done|].
  unfold sorted_reverse in *.
  rewrite (sort_by_elem_of (λ x y, tuple_ltb y x)) in Hin |- *.
  rewrite elem_of_hits in Hin. apply elem_of_hits.
  destruct Hin as (i & cw & ? & ? & ? & square & ? & Hlt). exists i, cw.
  split_and!; [done..|]. exists square. split; [done|].
  by eapply Qclt_le_trans.
Qed.

Lemma greater_error_classifies_more_witness :
  let codewords : gmap string (list Qc) :=
    <["b" := [- 1; 1]%Qc]> {["a" := [1; - 1]%Qc]} in
  let codeword := [Q2Qc (3 # 4); Q2Qc (1 # 2)] in
  (Q2Qc (1 # 8) ≤ Q2Qc (1 # 2))%Qc ∧
  @Common.get_classification Demo.exact codewords codeword (Q2Qc (1 # 8))
    = Ok ["a"] ∧
  ∃ l', @Common.get_classification Demo.exact codewords codeword
          (Q2Qc (1 # 2)) = Ok l' ∧
        ["a"] ⊆ l'.
Proof.
  intros codewords codeword.
  assert (Q2Qc (1 # 8) ≤ Q2Qc (1 # 2))%Qc as Herror by (by vm_compute).
  assert (@Common.get_classification Demo.exact codewords codeword
            (Q2Qc (1 # 8)) = Ok ["a"]) as Hrun by (by vm_compute).
  split_and!; [done..|].
  exact (@greater_error_classifies_more Demo.exact codewords codeword _ _
           ["a"] Herror Hrun).
Defined.



(** X7.  The order in which the dictionary lists its items does not
    decide what is returned: walking the items in any order returns a
    classification exactly when [get_classification] returns it. *)
Theorem get_classification_any_order `{Runtime}
    (codewords : gmap string (list Qc)) (items : list (string * list Qc))
    (codeword : list Qc) (error : Qc) (l : list string) :
  items ≡ₚ map_to_list codewords →
  Common.classification_of_items (size codewords) items codeword error = Ok l
  ↔ Common.get_classification codewords codeword error = Ok l.
Proof.
  intros Hp. unfold Common.get_classification.
  assert (items ≡ₚ dict_items codewords) as Hp'
    by by rewrite dict_items_perm.
  split; apply classification_items_perm; [done|by symmetry].
Qed.

Lemma get_classification_any_order_witness :
  let codewords : gmap string (list Qc) :=
    <["b" := [- 1; 1]%Qc]> {["a" := [1; - 1]%Qc]} in
  let items := [("b", [- 1; 1]%Qc); ("a", [1; - 1]%Qc)] in
  let codeword := [Q2Qc (3 # 4); Q2Qc (7 # 8)] in
  items ≡ₚ map_to_list codewords ∧
  (@Common.classification_of_items Demo.exact (size codewords) items codeword
     (Q2Qc (1 # 8)) = Ok ["b"; "a"]
   ↔ @Common.get_classification Demo.exact codewords codeword (Q2Qc (1 # 8))
     = Ok ["b"; "a"]).
Proof.
  intros codewords items codeword.
  assert (items ≡ₚ map_to_list codewords) as Hp.
  { apply NoDup_Permutation.
    - by apply (bool_decide_unpack (NoDup items)).
    - apply NoDup_map_to_list.
    - intros [c cw]. rewrite elem_of_map_to_list. unfold items, codewords.
      rewrite !elem_of_cons, elem_of_nil, lookup_insert_Some,
        lookup_singleton_Some.
      split.
      + intros [[= -> ->]|[[= -> ->]|[]]]; [by left|by right].
      + intros [[<- <-]|[_ [<- <-]]]; [by left|right; by left]. }
  split; [done|].
  exact (@get_classification_any_order Demo.exact codewords items codeword
           (Q2Qc (1 # 8)) ["b"; "a"] Hp).
Defined.

(** X8.  [get_classification] returns, or raises one of [ValueError],
    [IndexError] and [OverflowError], and nothing else. *)
Theorem get_classification_outcomes `{Runtime}
    (codewords : gmap string (list Qc)) (codeword : list Qc) (error : Qc) :
  match Common.get_classification codewords codeword error with
  | Ok l =>
      size codewords = length codeword ∧
      l = (sorted_reverse tuple_ltb
             (hits codeword error (map_to_list codewords))).*2
  | Raise e =>
      (e = Common.value_error ∧ size codewords ≠ length codeword)
      ∨ (size codewords = length codeword
         ∧ (e = index_error ∨ e = overflow_error))
  end.
Proof.
  rewrite get_classification_eq. case_decide as Hsize; [by left|].
  assert (size codewords = length codeword) as Heq.
  { destruct (decide (size codewords = length codeword)); [done|].
    by destruct Hsize. }
  destruct (safe_items _ _); [done|]. right. split; [done|].
  apply codewords_error_cases.
Qed.
(** ** The header *)

Section FoldM.
Context {A S : Type} (body : S → A → result S).

(** What every step adds to a measure adds up. *)
Lemma foldM_measure (m : S → nat) (wd : A → nat) (l : list A) (s r : S) :
  (∀ s x s', body s x = Ok s' → m s' = m s + wd x) →
  MakeTrainData.foldM body s l = Ok r →
  m r = m s + sum_list (wd <$> l).
Proof.
  intros Hbody. revert s. induction l as [|x l IH]; intros s.
  - intros [= <-]. change (sum_list (wd <$> [])) with 0. lia.
  - cbn [MakeTrainData.foldM]. unfold mbind, result_bind.
    destruct (body s x) as [s'|e] eqn:Hx; [|done].
    intros Hr. apply IH in Hr. apply Hbody in Hx.
    change (sum_list (wd <$> x :: l)) with (wd x + sum_list (wd <$> l)). lia.
Qed.

(** What every step keeps is kept. *)
Lemma foldM_invariant (I : S → Prop) (l : list A) (s r : S) :
  (∀ s x s', I s → body s x = Ok s' → I s') →
  I s → MakeTrainData.foldM body s l = Ok r → I r.
Proof.
  intros Hbody. revert s. induction l as [|x l IH]; intros s Hs; simpl.
  - by intros [= <-].
  - destruct (body s x) as [s'|e] eqn:Hx; [|done]. simpl. eauto.
Qed.

(** A step that always raises makes the loop raise. *)
Lemma foldM_raises (x : A) (l : list A) (s : S) :
  x ∈ l → (∀ s, ∃ e, body s x = Raise e) →
  ∃ e, MakeTrainData.foldM body s l = Raise e.
Proof.
  intros Hx Hbody. revert s. induction l as [|y l IH]; intros s.
  - by apply elem_of_nil in Hx.
  - simpl. destruct (body s y) as [s'|e] eqn:Hy; [|by eexists].
    apply elem_of_cons in Hx as [->|Hx]; [|by apply IH].
    destruct (Hbody s) as [e He]. congruence.
Qed.
End FoldM.

Lemma length_bind_const {A B} (f : A → list B) (l : list A) (k : nat) :
  (∀ y, length (f y) = k) → length (l ≫= f) = k * length l.
Proof.
  intros Hf. induction l as [|y l IH]; [simpl; lia|].
  rewrite bind_cons, length_app, Hf, IH. simpl. lia.
Qed.

Lemma length_range (start stop : Z) :
  length (MakeTrainData.range start stop) = Z.to_nat (stop - start).
Proof. unfold MakeTrainData.range. apply length_seqZ. Qed.

Lemma length_range_step (step : Z) (angles : list Z) :
  MakeTrainData.range_step 0 360 step = Ok angles →
  length angles = n_angles step.
Proof.
  unfold MakeTrainData.range_step, n_angles.
  case_decide; [done|]. case_decide.
  - intros [= <-]. rewrite length_fmap, length_seqZ. do 2 f_equal. lia.
  - intros [= <-]. rewrite length_fmap, length_seqZ.
    assert ((0 - 360 - step - 1) `div` (- step) ≤ 0)%Z as Hdiv; [|lia].
    destruct (decide (0 - 360 - step - 1 < 0)%Z).
    + apply Z.lt_le_incl, Z.div_lt_upper_bound; lia.
    + rewrite Z.div_small; lia.
Qed.

Lemma sum_enumerate_from {A} (f : A → nat) (k : nat) (l : list A) :
  sum_list ((λ item : nat * A, f item.2) <$> enumerate_from k l)
  = sum_list (f <$> l).
Proof.
  revert k. induction l as [|x l IH]; intros k; [done|].
  cbn [enumerate_from]. rewrite !fmap_cons.
  change (f x + sum_list ((λ item : nat * A, f item.2) <$> enumerate_from (S k) l)
          = f x + sum_list (f <$> l)).
  by rewrite IH.
Qed.

Lemma sum_enumerate_index {A} (f : nat → nat) (k : nat) (l : list A) :
  sum_list ((λ item : nat * A, f item.1) <$> enumerate_from k l)
  = sum_list (f <$> seq k (length l)).
Proof.
  revert k. induction l as [|x l IH]; intros k; [done|].
  cbn [enumerate_from length seq]. rewrite !fmap_cons.
  change (f k + sum_list ((λ item : nat * A, f item.1) <$> enumerate_from (S k) l)
          = f k + sum_list (f <$> seq (S k) (length l))).
  by rewrite IH.
Qed.

Lemma sum_list_ones {A} (l : list A) :
  sum_list ((λ _, 1) <$> l) = length l.
Proof.
  induction l as [|x l IH]; [done|].
  rewrite fmap_cons. change (1 + sum_list ((λ _ : A, 1) <$> l) = S (length l)).
  by rewrite IH.
Qed.

Lemma sum_list_same {A} (k : nat) (l : list A) :
  sum_list ((λ _, k) <$> l) = length l * k.
Proof.
  induction l as [|x l IH]; [done|].
  rewrite fmap_cons. change (k + sum_list ((λ _ : A, k) <$> l) = k + length l * k).
  by rewrite IH.
Qed.

Lemma length_list_ascii (s : string) :
  length (String.list_ascii_of_string s) = String.length s.
Proof. induction s as [|c s IH]; simpl; [done|]. by rewrite IH. Qed.

Lemma header_color_histograms_length (args : list (string * list Z))
    (data data' : list string) :
  MakeTrainData.header_color_histograms args data = Ok data' →
  length data' = length data + histogram_width args.
Proof.
  unfold MakeTrainData.header_color_histograms, histogram_width.
  apply (foldM_measure _ (@length string)).
  intros s [colorspace bins] s' Hs'.
  eapply (foldM_measure _ (@length string)
            (λ item : nat * Z, Z.to_nat item.2)) in Hs'.
  - unfold enumerate in Hs'. by rewrite sum_enumerate_from in Hs'.
  - clear. intros s [ch n] s' Hs'.
    eapply (foldM_measure _ (@length string) (λ _, 1)) in Hs'.
    + rewrite sum_list_ones, length_range in Hs'. simpl. lia.
    + clear. intros s i s'. unfold mbind, result_bind.
      destruct (MakeTrainData.str_getitem colorspace ch); [|done].
      intros [= <-]. rewrite length_app. simpl. lia.
Qed.

Lemma header_color_bgr_means_length (bins : option Z) (data : list string) :
  length (MakeTrainData.header_color_bgr_means bins data)
  = length data + 6 * Z.to_nat (default 20%Z bins).
Proof.
  unfold MakeTrainData.header_color_bgr_means.
  rewrite length_app, (length_bind_const _ _ 6), length_range by done.
  do 3 f_equal. lia.
Qed.

Lemma header_shape_outline_length (k : option Z) (data : list string) :
  length (MakeTrainData.header_shape_outline k data)
  = length data + 2 * Z.to_nat (default 15%Z k).
Proof.
  unfold MakeTrainData.header_shape_outline.
  rewrite length_app, (length_bind_const _ _ 2), length_range by done.
  do 3 f_equal. lia.
Qed.

Lemma header_shape_360_length (step : option Z)
    (fns : option (list output_function)) (data data' : list string) :
  MakeTrainData.header_shape_360 step fns data = Ok data' →
  length data' = length data
                 + sum_list (function_width (default 1%Z step) <$> default [] fns).
Proof.
  unfold MakeTrainData.header_shape_360. destruct fns as [fns|]; [|done].
  apply (foldM_measure _ (@length string)). clear.
  intros s fn s'. destruct fn as [|f_args|name]; unfold mbind, result_bind.
  - destruct (MakeTrainData.range_step _ _ _) as [angles|] eqn:Hangles; [|done].
    apply length_range_step in Hangles. intros [= <-].
    rewrite length_app, (length_bind_const _ _ 2), Hangles by done. done.
  - destruct (MakeTrainData.range_step _ _ _) as [angles|] eqn:Hangles; [|done].
    apply length_range_step in Hangles. intros Hs'.
    eapply (foldM_measure _ (@length string)
              (λ _, histogram_360_width f_args)) in Hs'.
    + rewrite sum_list_same, Hangles in Hs'. done.
    + clear. intros s i s'.
      apply (foldM_measure _ (@length string)). clear.
      intros s [cs bins] s' Hs'.
      eapply (foldM_measure _ (@length string)
                (λ item : nat * Ascii.ascii,
                   Z.to_nat (default 0%Z (bins !! item.1)))) in Hs'.
      * unfold enumerate in Hs'.
        by rewrite (sum_enumerate_index
                      (λ j, Z.to_nat (default 0%Z (bins !! j)))),
             length_list_ascii in Hs'.
      * clear. intros s [j color] s'. unfold mbind, result_bind, getitem.
        cbn [fst]. destruct (bins !! j) as [n|]; [|done]. intros [= <-].
        rewrite length_app, (length_bind_const _ _ 1), length_range by done.
        simpl. lia.
  - intros [= <-]. simpl. lia.
Qed.

(** X9.  The width of the header: when [__make_header] returns, it has
    as many data columns as the features ask for ([6 * bins] for
    [color_bgr_means], [2 * k] for [shape_outline], and so on, with 20
    and 15 for a [bins] and a [k] that are not set), and [n_out] output
    columns. *)
Theorem make_header_width (config : Config.config) (n_out : nat)
    (data out : list string) :
  MakeTrainData.__make_header config n_out = Ok (data, out) →
  ∃ features,
    cfg_features config = Some features ∧
    length data = sum_list (feature_width <$> features) ∧
    length out = n_out.
Proof.
  intros Hheader. pose proof (make_header_out_length _ _ _ _ Hheader) as Hout.
  unfold MakeTrainData.__make_header in Hheader.
  destruct (cfg_features config) as [features|]; [|done].
  exists features. split_and!; [done| |done].
  unfold mbind, result_bind in Hheader.
  destruct (MakeTrainData.foldM _ _ _) as [data'|e] eqn:Hfold; [|done].
  injection Hheader as <- _.
  apply (foldM_measure _ (@length string) feature_width) in Hfold; [done|].
  clear. intros s f s'. destruct f as [args|bins|k|step fns|name]; simpl.
  - apply header_color_histograms_length.
  - intros [= <-]. apply header_color_bgr_means_length.
  - intros [= <-]. apply header_shape_outline_length.
  - apply header_shape_360_length.
  - intros [= <-]. lia.
Qed.

Lemma make_header_width_witness :
  let features := [color_histograms [("BGR", [2; 1; 1]%Z)];
                   color_bgr_means None; shape_outline None;
                   shape_360 (Some 90%Z)
                     (Some [mean_sd; of_color_histograms [("Lab", [1; 0; 2]%Z)]])] in
  let config := mk_config None (Some features) None None in
  ∃ data out,
    MakeTrainData.__make_header config 3 = Ok (data, out) ∧
    length data = 4 + 120 + 30 + (8 + 12) ∧ length out = 3.
Proof.
  intros features config.
  destruct (MakeTrainData.__make_header config 3) as [[data out]|e] eqn:Hheader;
    [|by vm_compute in Hheader].
  exists data, out. split; [done|].
  destruct (make_header_width config 3 data out Hheader)
    as (features' & [= <-] & -> & ->).
  by vm_compute.
Defined.

(** X10.  The output columns of the header are the prefix followed by
    1, 2, ..., [n_out], and no two of them are equal. *)
Theorem make_header_out_columns (config : Config.config) (n_out : nat)
    (data out : list string) :
  MakeTrainData.__make_header config n_out = Ok (data, out) →
  NoDup out ∧
  ∀ i, i < n_out →
    out !! i = Some (default MakeTrainData.OUTPUT_PREFIX
                       (cfg_dependent_prefix config)
                     +:+ pretty (Z.of_nat (S i))).
Proof.
  unfold MakeTrainData.__make_header.
  destruct (cfg_features config) as [features|]; [|done].
  unfold mbind, result_bind.
  destruct (MakeTrainData.foldM _ _ _) as [data'|e]; [|done].
  intros [= <- <-]. unfold MakeTrainData.range. split.
  - apply NoDup_fmap_2_strong; [|apply NoDup_seqZ].
    intros i j _ _ Heq. apply (inj (String.append _)) in Heq.
    by apply (inj pretty).
  - intros i Hi. rewrite list_lookup_fmap, lookup_seqZ_lt by lia.
    simpl. do 3 f_equal. lia.
Qed.

Lemma make_header_out_columns_witness :
  let config := mk_config None (Some [shape_outline (Some 1%Z)]) (Some "Y") None in
  MakeTrainData.__make_header config 2
    = Ok (["OUTLINE:1.X"; "OUTLINE:1.Y"], ["Y1"; "Y2"]) ∧
  NoDup ["Y1"; "Y2"] ∧
  ∀ i, i < 2 → ["Y1"; "Y2"] !! i = Some ("Y" +:+ pretty (Z.of_nat (S i))).
Proof.
  intros config.
  assert (MakeTrainData.__make_header config 2
          = Ok (["OUTLINE:1.X"; "OUTLINE:1.Y"], ["Y1"; "Y2"])) as Hheader
    by (by vm_compute).
  split; [done|].
  exact (make_header_out_columns config 2 _ _ Hheader).
Defined.

Lemma prefix_out_char (a : Ascii.ascii) (s : string) :
  String.prefix "OUT:" (String a (":" +:+ s)) = false.
Proof.
  change (":" +:+ s)
    with (String (Ascii.Ascii false true false true true true false false) s).
  cbn [String.prefix]. destruct (Ascii.ascii_dec _ a); reflexivity.
Qed.

Lemma Forall_snoc_bind {A} (P : string → Prop) (f : A → list string)
    (data : list string) (l : list A) :
  Forall P data → (∀ y, Forall P (f y)) → Forall P (data ++ (l ≫= f)).
Proof.
  intros Hdata Hf. apply Forall_app. split; [done|].
  apply Forall_bind, Forall_forall. intros y _. apply Hf.
Qed.

(** X11.  With the default prefix the two kinds of columns cannot be
    confused: every output column starts with [OUT:], and no data
    column does. *)
Theorem make_header_prefix (config : Config.config) (n_out : nat)
    (data out : list string) :
  cfg_dependent_prefix config = None →
  MakeTrainData.__make_header config n_out = Ok (data, out) →
  Forall (λ column, String.prefix "OUT:" column = false) data ∧
  Forall (λ column, String.prefix "OUT:" column = true) out.
Proof.
  intros Hprefix. unfold MakeTrainData.__make_header. rewrite Hprefix.
  destruct (cfg_features config) as [features|]; [|done].
  unfold mbind, result_bind.
  destruct (MakeTrainData.foldM _ _ _) as [data'|e] eqn:Hfold; [|done].
  intros [= <- <-]. split.
  - revert Hfold. apply foldM_invariant; [|constructor]. clear.
    intros s f s' Hs. destruct f as [args|bins|k|step fns|name].
    + apply foldM_invariant; [|done]. clear.
      intros s [colorspace bins] s' Hs. apply foldM_invariant; [|done]. clear.
      intros s [ch n] s' Hs. apply foldM_invariant; [|done]. clear.
      intros s i s' Hs. unfold mbind, result_bind, MakeTrainData.str_getitem.
      destruct (String.get ch colorspace) as [a|]; [|done]. intros [= <-].
      apply Forall_app. split; [done|]. apply Forall_singleton.
      apply prefix_out_char.
    + intros [= <-]. apply Forall_snoc_bind; [done|]. intros i.
      by repeat constructor.
    + intros [= <-]. apply Forall_snoc_bind; [done|]. intros i.
      by repeat constructor.
    + unfold MakeTrainData.header_shape_360. destruct fns as [fns|]; [|done].
      apply foldM_invariant; [|done]. clear.
      intros s fn s' Hs. destruct fn as [|f_args|name];
        unfold mbind, result_bind.
      * destruct (MakeTrainData.range_step _ _ _) as [angles|]; [|done].
        intros [= <-]. apply Forall_snoc_bind; [done|]. intros i.
        by repeat constructor.
      * destruct (MakeTrainData.range_step _ _ _) as [angles|]; [|done].
        apply foldM_invariant; [|done]. clear.
        intros s i s' Hs. apply foldM_invariant; [|done]. clear.
        intros s [cs bins] s' Hs. apply foldM_invariant; [|done]. clear.
        intros s [j color] s' Hs. unfold mbind, result_bind.
        destruct (getitem bins j) as [n|]; [|done]. intros [= <-].
        apply Forall_snoc_bind; [done|]. intros k. by repeat constructor.
      * by intros [= <-].
    + by intros [= <-].
  - apply Forall_fmap, Forall_forall. intros i _. simpl.
    by destruct (pretty i).
Qed.

Lemma make_header_prefix_witness :
  let config :=
    mk_config None (Some [color_histograms [("O", [1]%Z)];
                          shape_outline (Some 1%Z)]) None None in
  cfg_dependent_prefix config = None ∧
  MakeTrainData.__make_header config 1
    = Ok (["O:1"; "OUTLINE:1.X"; "OUTLINE:1.Y"], ["OUT:1"]) ∧
  Forall (λ column, String.prefix "OUT:" column = false)
    ["O:1"; "OUTLINE:1.X"; "OUTLINE:1.Y"] ∧
  Forall (λ column, String.prefix "OUT:" column = true) ["OUT:1"].
Proof.
  intros config.
  assert (MakeTrainData.__make_header config 1
          = Ok (["O:1"; "OUTLINE:1.X"; "OUTLINE:1.Y"], ["OUT:1"])) as Hheader
    by (by vm_compute).
  split_and!; [done..| |];
    apply (make_header_prefix config 1 _ _ eq_refl Hheader).
Defined.

(** X12.  A feature [shape_360] whose [output_functions] are not set
    makes [__make_header] raise: the default of the code is a [dict],
    which [vars] does not take. *)
Theorem shape_360_needs_output_functions (config : Config.config)
    (features : list feature) (step : option Z) (n_out : nat) :
  cfg_features config = Some features →
  shape_360 step None ∈ features →
  ∃ e, MakeTrainData.__make_header config n_out = Raise e.
Proof.
  intros Hfeatures Hin. unfold MakeTrainData.__make_header. rewrite Hfeatures.
  edestruct (foldM_raises
    (λ data feature,
       match feature with
       | color_histograms args => MakeTrainData.header_color_histograms args data
       | color_bgr_means bins => Ok (MakeTrainData.header_color_bgr_means bins data)
       | shape_outline k => Ok (MakeTrainData.header_shape_outline k data)
       | shape_360 step fns => MakeTrainData.header_shape_360 step fns data
       | other_feature _ => Ok data
       end) _ features [] Hin) as [e He].
  - intros s. by eexists.
  - rewrite He. by eexists.
Qed.

Lemma shape_360_needs_output_functions_witness :
  let features := [shape_outline None; shape_360 (Some 10%Z) None] in
  let config := mk_config None (Some features) None None in
  cfg_features config = Some features ∧
  shape_360 (Some 10%Z) None ∈ features ∧
  ∃ e, MakeTrainData.__make_header config 2 = Raise e.
Proof.
  intros features config.
  assert (shape_360 (Some 10%Z) None ∈ features) as Hin
    by (apply list_elem_of_further, list_elem_of_here).
  split_and!; [done..|].
  exact (shape_360_needs_output_functions config features (Some 10%Z) 2
           eq_refl Hin).
Defined.

(** The exception of the example is the [TypeError] of [vars]. *)
Example shape_360_type_error :
  MakeTrainData.__make_header
    (mk_config None (Some [shape_outline None; shape_360 (Some 10%Z) None])
       None None) 2
  = Raise (mk_exn TypeError "vars() argument must have __dict__ attribute").
Proof. reflexivity. Qed.

(** X13.  A [step] of 0 makes [__make_header] raise as soon as
    [shape_360] has an output function that walks the angles. *)
Theorem shape_360_step_zero (config : Config.config)
    (features : list feature) (fns : list output_function)
    (fn : output_function) (n_out : nat) :
  cfg_features config = Some features →
  shape_360 (Some 0%Z) (Some fns) ∈ features →
  fn ∈ fns → (∀ name, fn ≠ other_function name) →
  ∃ e, MakeTrainData.__make_header config n_out = Raise e.
Proof.
  intros Hfeatures Hin Hfn Hwalks.
  unfold MakeTrainData.__make_header. rewrite Hfeatures.
  edestruct (foldM_raises
    (λ data feature,
       match feature with
       | color_histograms args => MakeTrainData.header_color_histograms args data
       | color_bgr_means bins => Ok (MakeTrainData.header_color_bgr_means bins data)
       | shape_outline k => Ok (MakeTrainData.header_shape_outline k data)
       | shape_360 step fns => MakeTrainData.header_shape_360 step fns data
       | other_feature _ => Ok data
       end) _ features [] Hin) as [e He].
  - intros s. unfold MakeTrainData.header_shape_360.
    apply (foldM_raises _ fn); [done|]. clear -Hwalks.
    intros s. destruct fn as [|f_args|name]; [by eexists..|].
    by destruct (Hwalks name).
  - rewrite He. by eexists.
Qed.

Lemma shape_360_step_zero_witness :
  let features := [shape_360 (Some 0%Z) (Some [mean_sd])] in
  let config := mk_config None (Some features) None None in
  cfg_features config = Some features ∧
  shape_360 (Some 0%Z) (Some [mean_sd]) ∈ features ∧
  mean_sd ∈ [mean_sd] ∧ (∀ name, mean_sd ≠ other_function name) ∧
  ∃ e, MakeTrainData.__make_header config 2 = Raise e.
Proof.
  intros features config.
  assert (shape_360 (Some 0%Z) (Some [mean_sd]) ∈ features) as Hin
    by apply list_elem_of_here.
  assert (mean_sd ∈ [mean_sd]) as Hfn by apply list_elem_of_here.
  assert (∀ name, mean_sd ≠ other_function name) as Hwalks by done.
  split_and!; [done..|].
  exact (shape_360_step_zero config features [mean_sd] mean_sd 2
           eq_refl Hin Hfn Hwalks).
Defined.


(** ** More on [MakeTrainData.export] *)

(** The statements of [export] that come before it opens the file. *)
Local Ltac export_head Hq Hne Hheader :=
  unfold MakeTrainData.export; unfold mbind, M_bind, lift;
  rewrite Hq; cbn beta iota zeta; rewrite Hne;
  unfold logging, fh_write;
  rewrite get_codewords_eq, Hheader; cbn beta iota zeta.

(** X14.  What is wrong with the query or with the features is found
    before the output file is opened: [export] raises and leaves every
    file as it was. *)
Theorem export_raises_before_open `{Externals} (debug : bool)
    (self : MakeTrainData.t) (filename : string) (e : exn) (w : world) :
  MakeTrainData.export_query self = Raise e ∨
  (∃ class_query images,
     MakeTrainData.export_query self = Ok (class_query, images) ∧
     images ≠ [] ∧
     MakeTrainData.__make_header (MakeTrainData.config self)
       (size (list_to_set (images.*2) : gset string)) = Raise e) →
  ∃ w', MakeTrainData.export debug self filename w = (w', Raise e) ∧
        files w' = files w.
Proof.
  intros [Hq|(class_query & images & Hq & Himages & Hheader)].
  - unfold MakeTrainData.export. unfold mbind, M_bind, lift. rewrite Hq.
    by eexists.
  - assert (bool_decide (length images = 0) = false) as Hne.
    { apply bool_decide_eq_false. by destruct images. }
    export_head Hq Hne Hheader. by eexists.
Qed.

Lemma export_raises_before_open_witness :
  let self := MakeTrainData.mk_t (mk_config (Some Demo.query) None None None)
                "photos" "photos/photos.db" in
  let e := mk_exn ValueError "Features not set in configuration" in
  let images := [("1.jpg", "Cypripedium"); ("2.jpg", "Paphiopedilum")] in
  (@MakeTrainData.export_query Demo.externals self = Raise e ∨
   ∃ class_query images,
     @MakeTrainData.export_query Demo.externals self
       = Ok (class_query, images) ∧
     images ≠ [] ∧
     MakeTrainData.__make_header (MakeTrainData.config self)
       (size (list_to_set (images.*2) : gset string)) = Raise e) ∧
  ∃ w', @MakeTrainData.export Demo.externals true self "train.tsv" Demo.world1
          = (w', Raise e) ∧
        files w' = files Demo.world1.
Proof.
  intros self e images.
  assert (@MakeTrainData.export_query Demo.externals self = Raise e ∨
   ∃ class_query images,
     @MakeTrainData.export_query Demo.externals self
       = Ok (class_query, images) ∧
     images ≠ [] ∧
     MakeTrainData.__make_header (MakeTrainData.config self)
       (size (list_to_set (images.*2) : gset string)) = Raise e) as Hcause.
  { right. exists Demo.query, images. split_and!; [reflexivity|done|].
    reflexivity. }
  split; [done|].
  exact (@export_raises_before_open Demo.externals true self "train.tsv" e
           Demo.world1 Hcause).
Defined.

(** X15.  When there are images and a header but the output file
    cannot be opened (its path names a directory, or lies in a
    directory that does not exist), [export] raises [IOError] before
    it has read any image, and leaves every file as it was. *)
Theorem export_cannot_open `{Externals} (debug : bool)
    (self : MakeTrainData.t) (filename : string) (class_query : class_query)
    (images : list (string * string)) (header_data header_out : list string)
    (w : world) :
  MakeTrainData.export_query self = Ok (class_query, images) →
  images ≠ [] →
  MakeTrainData.__make_header (MakeTrainData.config self)
    (size (list_to_set (images.*2) : gset string))
    = Ok (header_data, header_out) →
  can_open_w filename w = false →
  ∃ w' e,
    MakeTrainData.export debug self filename w = (w', Raise e) ∧
    exn_cls e = IOError ∧
    files w' = files w ∧
    logs w' = logs w ++ [(INFO, "Going to process "
                                 +:+ pretty (length images) +:+ " photos...")].
Proof.
  intros Hq Himages Hheader Hopen.
  assert (bool_decide (length images = 0) = false) as Hne.
  { apply bool_decide_eq_false. by destruct images. }
  export_head Hq Hne Hheader.
  set (w1 := add_log _ w).
  destruct (open_w_raises filename w1 Hopen) as (e & -> & He).
  by exists w1, e.
Qed.

Lemma export_cannot_open_witness :
  let images := [("1.jpg", "Cypripedium"); ("2.jpg", "Paphiopedilum")] in
  let header_data := ["OUTLINE:1.X"; "OUTLINE:1.Y"] in
  let header_out := ["OUT:1"; "OUT:2"] in
  @MakeTrainData.export_query Demo.externals Demo.train_data
    = Ok (Demo.query, images) ∧
  images ≠ [] ∧
  MakeTrainData.__make_header Demo.config
    (size (list_to_set (images.*2) : gset string))
    = Ok (header_data, header_out) ∧
  can_open_w "missing/train.tsv" Demo.world1 = false ∧
  ∃ w' e,
    @MakeTrainData.export Demo.externals true Demo.train_data
      "missing/train.tsv" Demo.world1 = (w', Raise e) ∧
    exn_cls e = IOError ∧
    files w' = files Demo.world1 ∧
    logs w' = logs Demo.world1
              ++ [(INFO, "Going to process "
                         +:+ pretty (length images) +:+ " photos...")].
Proof.
  intros images header_data header_out.
  assert (@MakeTrainData.export_query Demo.externals Demo.train_data
          = Ok (Demo.query, images)) as Hq by reflexivity.
  assert (images ≠ []) as Himages by done.
  assert (MakeTrainData.__make_header Demo.config
            (size (list_to_set (images.*2) : gset string))
          = Ok (header_data, header_out)) as Hheader by (by vm_compute).
  assert (can_open_w "missing/train.tsv" Demo.world1 = false) as Hopen
    by (by vm_compute).
  split_and!; [exact Hq|exact Himages|exact Hheader|exact Hopen|].
  exact (@export_cannot_open Demo.externals true Demo.train_data
           "missing/train.tsv" Demo.query images header_data header_out
           Demo.world1 Hq Himages Hheader Hopen).
Defined.

(** The two ways in which [open] fails in the example. *)
Example open_w_demo :
  open_w "photos" Demo.world1 = (Demo.world1, Raise (is_a_directory "photos")) ∧
  open_w "missing/train.tsv" Demo.world1
  = (Demo.world1, Raise (no_such_file_or_directory "missing/train.tsv")) ∧
  (open_w "photos/train.tsv" Demo.world1).2 = Ok ().
Proof. by vm_compute. Qed.

Section ExportLoop.
Context `{Externals} (debug : bool) (self : MakeTrainData.t).
Context (codewords : gmap string (list Qc)) (header_data : list string).

(** The loop does not touch the files, and labels what it appends. *)
Lemma export_images_labels images td failed w w' r :
  MakeTrainData.export_images debug self codewords header_data images
    td failed w = (w', r) →
  Forall (λ s : sample, is_Some s.1.1) (MakeTrainData.samples td) →
  files w' = files w ∧
  ∀ td' failed', r = Ok (td', failed') →
    Forall (λ s : sample, is_Some s.1.1) (MakeTrainData.samples td').
Proof.
  revert td failed w. induction images as [|[im_path im_class] images IH];
    intros td failed w Hrun Htd.
  - injection Hrun as <- <-. split; [done|]. by intros ?? [= <- <-].
  - cbn [MakeTrainData.export_images] in Hrun.
    unfold mbind, M_bind, logging, lift, assert_, mret, M_ret, raise in Hrun.
    destruct (phenotyper_set _ _) as [[]|e]; [|by apply IH in Hrun].
    destruct (phenotyper_make _ _) as [phenotype|e];
      [|by injection Hrun as <- <-].
    destruct (debug && negb _); [by injection Hrun as <- <-|].
    unfold MakeTrainData.dict_getitem in Hrun.
    destruct (codewords !! im_class) as [cw|];
      [|by injection Hrun as <- <-].
    apply IH in Hrun; [done|].
    unfold MakeTrainData.TrainData_append; simpl.
    apply Forall_app; split; [done|]. by apply Forall_singleton.
Qed.

(** When every image that can be read has a phenotype, the phenotypes
    fit and every class has its codeword, the loop returns the samples
    of the images that can be read. *)
Lemma export_images_returns images td failed w :
  phenotypes_made self images →
  phenotypes_fit self images (length header_data) →
  (∀ image, image ∈ images → is_Some (codewords !! image.2)) →
  ∃ w' failed',
    MakeTrainData.export_images debug self codewords header_data images
      td failed w
    = (w', Ok (MakeTrainData.mk_TrainData (MakeTrainData.num_input td)
                 (MakeTrainData.num_output td)
                 (MakeTrainData.samples td
                    ++ omap (image_sample self codewords) images),
               failed')) ∧
    files w' = files w.
Proof.
  revert td failed w. induction images as [|[im_path im_class] images IH];
    intros td failed w Hmade Hfit Hclasses.
  - exists w, failed. simpl. rewrite app_nil_r. by destruct td.
  - assert (phenotypes_made self images) as Hmade'.
    { intros image Hin. apply Hmade. by apply list_elem_of_further. }
    assert (phenotypes_fit self images (length header_data)) as Hfit'.
    { intros image phenotype Hin. apply Hfit. by apply list_elem_of_further. }
    assert (∀ image, image ∈ images → is_Some (codewords !! image.2))
      as Hclasses'.
    { intros image Hin. apply Hclasses. by apply list_elem_of_further. }
    pose proof (Hmade (im_path, im_class) (list_elem_of_here _ _)) as Hhere.
    pose proof (Hfit (im_path, im_class)) as Hlength.
    destruct (Hclasses (im_path, im_class) (list_elem_of_here _ _))
      as [cw Hcw].
    cbn [MakeTrainData.export_images omap list_omap].
    unfold image_sample at 1. simpl in Hhere, Hlength, Hcw |- *.
    unfold mbind at 1, M_bind at 1, logging at 1.
    destruct (phenotyper_set _ _) as [[]|e] eqn:Hset.
    + destruct (Hhere eq_refl) as (phenotype & Hmake).
      pose proof (Hlength phenotype (list_elem_of_here _ _) eq_refl Hmake)
        as Hlen.
      unfold mbind at 1, M_bind at 1, lift at 1. rewrite Hmake.
      unfold mbind at 1, M_bind at 1, assert_.
      rewrite bool_decide_true, andb_false_r by done.
      unfold mret at 1, M_ret at 1.
      unfold mbind at 1, M_bind at 1, lift at 1, MakeTrainData.dict_getitem.
      rewrite Hcw. simpl.
      destruct (IH (MakeTrainData.TrainData_append td phenotype cw (Some im_path))
                  failed (add_log (INFO, "Processing " +:+ im_path +:+ " of class "
                                           +:+ im_class +:+ "...") w)
                  Hmade' Hfit' Hclasses')
        as (w' & failed' & -> & Hfiles).
      exists w', failed'. split; [|done].
      unfold MakeTrainData.TrainData_append; simpl. by rewrite <-app_assoc.
    + unfold mbind at 1, M_bind at 1, logging at 1.
      destruct (IH td (failed ++ [path_join (MakeTrainData.base_path self) im_path])
                  (add_log (WARNING, "Failed to read "
                              +:+ path_join (MakeTrainData.base_path self) im_path
                              +:+ ". Skipping.")
                     (add_log (INFO, "Processing " +:+ im_path +:+ " of class "
                                      +:+ im_class +:+ "...") w))
                  Hmade' Hfit' Hclasses')
        as (w' & failed' & -> & Hfiles).
      by exists w', failed'.
Qed.
End ExportLoop.

(** X16.  Once the output file has been opened, an exception leaves it
    with the header line alone: what the file held before is lost, and
    no data row is written. *)
Theorem export_raises_after_open `{Externals} (debug : bool)
    (self : MakeTrainData.t) (filename : string) (class_query : class_query)
    (images : list (string * string)) (header_data header_out : list string)
    (w w' : world) (e : exn) :
  MakeTrainData.export_query self = Ok (class_query, images) →
  images ≠ [] →
  MakeTrainData.__make_header (MakeTrainData.config self)
    (size (list_to_set (images.*2) : gset string))
    = Ok (header_data, header_out) →
  can_open_w filename w = true →
  MakeTrainData.export debug self filename w = (w', Raise e) →
  files w' !! filename = Some (tsv [["ID"] ++ header_data ++ header_out]).
Proof.
  intros Hq Himages Hheader Hopen.
  assert (bool_decide (length images = 0) = false) as Hne.
  { apply bool_decide_eq_false. by destruct images. }
  export_head Hq Hne Hheader. rewrite open_w_ok by exact Hopen.
  set (header := "ID" :: header_data ++ header_out).
  set (w3 := set_files _ (set_files _ _)).
  assert (holds filename (tsv [header]) w3) as Hw3.
  { unfold holds, w3, set_files; cbn [files].
    rewrite lookup_alter_eq, lookup_insert_eq.
    change (tsv [header]) with (tsv_line header +:+ ""). cbn [fmap option_fmap option_map].
    by rewrite append_nil_r. }
  destruct (MakeTrainData.export_images debug self _ header_data images _ [] w3)
    as [w4 [[td failed]|e']] eqn:Hloop.
  - apply export_images_labels in Hloop as [Hfiles Hlabels]; [|by constructor].
    specialize (Hlabels _ _ eq_refl).
    assert (holds filename (tsv [header]) w4) as Hw4
      by (unfold holds; by rewrite Hfiles).
    destruct (write_rows_spec filename
                (MakeTrainData.samples (MakeTrainData.TrainData_round_input td))
                (tsv [header]) w4) as (w5 & -> & _); [|done|].
    { unfold MakeTrainData.TrainData_round_input; simpl.
      apply Forall_fmap. eapply Forall_impl; [exact Hlabels|].
      by intros [[label input] output]. }
    destruct (bool_decide (0 < length failed)); cbn beta; [|done].
    destruct (log_failed_files failed
                (add_log (WARNING, "Some files could not be processed:")
                   (add_log (INFO, "Training data written to " +:+ filename) w5)))
      as (w6 & -> & _). done.
  - apply export_images_labels in Hloop as [Hfiles _]; [|by constructor].
    intros [= <- <-]. by rewrite Hfiles.
Qed.

(** X17.  What [export] writes: when the file can be opened and every
    image that can be read has a phenotype, as long as the header has
    data columns, [export] returns, and the file holds the header and,
    in the order of the query, one row for each image that can be
    read: its path, its phenotype rounded, and the codeword of its
    class. *)
Theorem export_writes_rows `{Externals} (debug : bool)
    (self : MakeTrainData.t) (filename : string) (class_query : class_query)
    (images : list (string * string)) (header_data header_out : list string)
    (codewords : gmap string (list Qc)) (w : world) :
  let classes : gset string := list_to_set (images.*2) in
  MakeTrainData.export_query self = Ok (class_query, images) →
  images ≠ [] →
  MakeTrainData.__make_header (MakeTrainData.config self) (size classes)
    = Ok (header_data, header_out) →
  Common.get_codewords (elements classes) Common.default_neg
    Common.default_pos = Ok codewords →
  phenotypes_made self images →
  phenotypes_fit self images (length header_data) →
  can_open_w filename w = true →
  ∃ w',
    MakeTrainData.export debug self filename w = (w', Ok ()) ∧
    files w' !! filename
    = Some (tsv ((["ID"] ++ header_data ++ header_out)
                 :: omap (image_row self codewords) images)).
Proof.
  intros classes Hq Himages Hheader Hcodewords Hmade Hfit Hopen.
  subst classes.
  assert (bool_decide (length images = 0) = false) as Hne.
  { apply bool_decide_eq_false. by destruct images. }
  rewrite get_codewords_eq in Hcodewords. injection Hcodewords as Hcodewords.
  export_head Hq Hne Hheader. rewrite open_w_ok by exact Hopen.
  rewrite Hcodewords.
  set (header := "ID" :: header_data ++ header_out).
  set (w3 := set_files _ (set_files _ _)).
  assert (holds filename (tsv [header]) w3) as Hw3.
  { unfold holds, w3, set_files; cbn [files].
    rewrite lookup_alter_eq, lookup_insert_eq.
    change (tsv [header]) with (tsv_line header +:+ ""). cbn [fmap option_fmap option_map].
    by rewrite append_nil_r. }
  edestruct (export_images_returns debug self codewords header_data images
               (MakeTrainData.mk_TrainData (length header_data)
                  (size (list_to_set (images.*2) : gset string)) []) [] w3
               Hmade Hfit)
    as (w4 & failed & -> & Hfiles).
  { intros [im_path im_class] Hin. simpl. apply elem_of_dom.
    rewrite <-Hcodewords, codewords_of_dom, elem_of_list_to_set.
    apply (sort_by_elem_of str_ltb), elem_of_elements, elem_of_list_to_set.
    apply list_elem_of_fmap. by exists (im_path, im_class). }
  cbn beta iota. simpl.
  assert (holds filename (tsv [header]) w4) as Hw4
    by (unfold holds; by rewrite Hfiles).
  set (rows := (λ s : sample, _) <$> omap (image_sample self codewords) images).
  assert (Forall (λ s : sample, is_Some s.1.1) rows) as Hrows.
  { unfold rows. apply Forall_fmap, Forall_forall.
    intros [[label input] output] Hin. simpl.
    apply list_elem_of_omap in Hin as ([im_path im_class] & _ & Hs).
    unfold image_sample in Hs.
    destruct (phenotyper_set _ _); [|done].
    destruct (phenotyper_make _ _); [|done].
    simpl in Hs. destruct (codewords !! im_class); [|done].
    simpl in Hs. injection Hs as <- _ _. done. }
  destruct (write_rows_spec filename rows (tsv [header]) w4 Hrows Hw4)
    as (w5 & -> & Hw5).
  assert (row_of_sample <$> rows = omap (image_row self codewords) images)
    as Hsame.
  { unfold rows. clear. induction images as [|image images IH]; [done|].
    cbn [omap list_omap]. unfold image_row at 1.
    destruct (image_sample self codewords image) as [[[label input] output]|];
      simpl; [|done].
    by rewrite <-IH. }
  rewrite Hsame in Hw5.
  assert (tsv [header] +:+ tsv (omap (image_row self codewords) images)
          = tsv (header :: omap (image_row self codewords) images)) as Htsv
    by by rewrite <-tsv_app.
  rewrite Htsv in Hw5.
  destruct (bool_decide (0 < length failed)); cbn beta.
  - destruct (log_failed_files failed
                (add_log (WARNING, "Some files could not be processed:")
                   (add_log (INFO, "Training data written to " +:+ filename) w5)))
      as (w6 & -> & Hw6). exists w6. split; [done|]. by rewrite Hw6.
  - eexists. split; [done|]. done.
Qed.

Lemma export_raises_after_open_witness :
  let images := [("1.jpg", "Cypripedium"); ("2.jpg", "Paphiopedilum")] in
  let header_data := ["OUTLINE:1.X"; "OUTLINE:1.Y"] in
  let header_out := ["OUT:1"; "OUT:2"] in
  let e := mk_exn RuntimeError "No contour found" in
  let run := @MakeTrainData.export broken_phenotyper true Demo.train_data
               "train.tsv" Demo.world1 in
  @MakeTrainData.export_query broken_phenotyper Demo.train_data
    = Ok (Demo.query, images) ∧
  images ≠ [] ∧
  MakeTrainData.__make_header Demo.config
    (size (list_to_set (images.*2) : gset string))
    = Ok (header_data, header_out) ∧
  can_open_w "train.tsv" Demo.world1 = true ∧
  run = (run.1, Raise e) ∧
  files run.1 !! "train.tsv" = Some (tsv [["ID"] ++ header_data ++ header_out]).
Proof.
  intros images header_data header_out e run.
  assert (@MakeTrainData.export_query broken_phenotyper Demo.train_data
          = Ok (Demo.query, images)) as Hq by reflexivity.
  assert (images ≠ []) as Himages by done.
  assert (MakeTrainData.__make_header Demo.config
            (size (list_to_set (images.*2) : gset string))
          = Ok (header_data, header_out)) as Hheader by (by vm_compute).
  assert (can_open_w "train.tsv" Demo.world1 = true) as Hopen
    by (by vm_compute).
  assert (run = (run.1, Raise e)) as Hrun by (by vm_compute).
  split_and!; [exact Hq|exact Himages|exact Hheader|exact Hopen|exact Hrun|].
  exact (@export_raises_after_open broken_phenotyper true Demo.train_data
           "train.tsv" Demo.query images header_data header_out
           Demo.world1 run.1 e Hq Himages Hheader Hopen Hrun).
Defined.

Lemma export_writes_rows_witness :
  let images := [("1.jpg", "Cypripedium"); ("2.jpg", "Paphiopedilum")] in
  let classes : gset string := list_to_set (images.*2) in
  let header_data := ["OUTLINE:1.X"; "OUTLINE:1.Y"] in
  let header_out := ["OUT:1"; "OUT:2"] in
  let codewords : gmap string (list Qc) :=
    <["Paphiopedilum" := [- 1; 1]%Qc]> {["Cypripedium" := [1; - 1]%Qc]} in
  @MakeTrainData.export_query Demo.externals Demo.train_data
    = Ok (Demo.query, images) ∧
  images ≠ [] ∧
  MakeTrainData.__make_header Demo.config (size classes)
    = Ok (header_data, header_out) ∧
  Common.get_codewords (elements classes) Common.default_neg
    Common.default_pos = Ok codewords ∧
  @phenotypes_made Demo.externals Demo.train_data images ∧
  @phenotypes_fit Demo.externals Demo.train_data images (length header_data) ∧
  can_open_w "train.tsv" Demo.world1 = true ∧
  ∃ w',
    @MakeTrainData.export Demo.externals true Demo.train_data "train.tsv"
      Demo.world1 = (w', Ok ()) ∧
    files w' !! "train.tsv"
    = Some (tsv ((["ID"] ++ header_data ++ header_out)
                 :: omap (@image_row Demo.externals Demo.train_data codewords)
                      images)).
Proof.
  intros images classes header_data header_out codewords.
  assert (@MakeTrainData.export_query Demo.externals Demo.train_data
          = Ok (Demo.query, images)) as Hq by reflexivity.
  assert (images ≠ []) as Himages by done.
  assert (MakeTrainData.__make_header Demo.config (size classes)
          = Ok (header_data, header_out)) as Hheader by (by vm_compute).
  assert (Common.get_codewords (elements classes) Common.default_neg
            Common.default_pos = Ok codewords) as Hcodewords by (by vm_compute).
  assert (@phenotypes_made Demo.externals Demo.train_data images) as Hmade.
  { intros image _ im_path_real _. by eexists. }
  assert (@phenotypes_fit Demo.externals Demo.train_data images
            (length header_data)) as Hfit.
  { intros image phenotype _ im_path_real _ [= <-]. reflexivity. }
  assert (can_open_w "train.tsv" Demo.world1 = true) as Hopen
    by (by vm_compute).
  split_and!;
    [exact Hq|exact Himages|exact Hheader|exact Hcodewords|exact Hmade
    |exact Hfit|exact Hopen|].
  exact (@export_writes_rows Demo.externals true Demo.train_data "train.tsv"
           Demo.query images header_data header_out codewords Demo.world1
           Hq Himages Hheader Hcodewords Hmade Hfit Hopen).
Defined.

(** ** More on [TestAnn.export_results] *)

(** X19.  What [export_results] finds wrong before it opens the file:
    test data that are not set, a query that fails, a query without
    classes.  It raises, and changes nothing. *)
Theorem export_results_raises_before_open `{Externals} (debug : bool)
    (self : TestAnn.t) (filename db_path : string) (error : Qc) (w : world) :
  let run := TestAnn.export_results debug self filename db_path error w in
  match TestAnn.test_data self, TestAnn.results_query self db_path with
  | None, _ => run = (w, Raise (mk_exn RuntimeError "Test data is not set"))
  | Some _, Raise e => run = (w, Raise e)
  | Some _, Ok (class_query, []) =>
      run = (w, Raise (mk_exn RuntimeError
                         ("No classes found for query "
                          +:+ str_of_query class_query)))
  | Some _, Ok (_, _ :: _) => True
  end.
Proof.
  unfold TestAnn.export_results.
  destruct (TestAnn.test_data self) as [data|]; [|done].
  unfold mbind, M_bind, lift.
  destruct (TestAnn.results_query self db_path) as [[class_query classes]|e];
    [|done].
  by destruct classes.
Qed.

(** X20.  When the file cannot be opened [export_results] raises
    [IOError] and changes nothing. *)
Theorem export_results_cannot_open `{Externals} (debug : bool)
    (self : TestAnn.t) (filename db_path : string) (error : Qc)
    (data : list sample) (class_query : class_query) (classes : list string)
    (w : world) :
  TestAnn.test_data self = Some data →
  TestAnn.results_query self db_path = Ok (class_query, classes) →
  classes ≠ [] →
  can_open_w filename w = false →
  ∃ e, TestAnn.export_results debug self filename db_path error w
       = (w, Raise e) ∧
       exn_cls e = IOError.
Proof.
  intros Hdata Hquery Hclasses Hopen.
  unfold TestAnn.export_results. rewrite Hdata.
  unfold mbind, M_bind, lift. rewrite Hquery. cbn beta iota.
  rewrite bool_decide_false by by destruct classes.
  destruct (open_w_raises filename w Hopen) as (e & -> & He). eauto.
Qed.

Lemma export_results_cannot_open_witness :
  let self := TestAnn.mk_t Demo.config (Some "orchids.ann")
                (Some Demo.test_data) in
  let classes := ["Cypripedium"; "Paphiopedilum"] in
  TestAnn.test_data self = Some Demo.test_data ∧
  @TestAnn.results_query Demo.externals self "photos/photos.db"
    = Ok (Demo.query, classes) ∧
  classes ≠ [] ∧
  can_open_w "photos" Demo.world0 = false ∧
  ∃ e, @TestAnn.export_results Demo.externals true self "photos"
         "photos/photos.db" Demo.error Demo.world0 = (Demo.world0, Raise e) ∧
       exn_cls e = IOError.
Proof.
  intros self classes.
  assert (@TestAnn.results_query Demo.externals self "photos/photos.db"
          = Ok (Demo.query, classes)) as Hquery by reflexivity.
  assert (classes ≠ []) as Hclasses by done.
  assert (can_open_w "photos" Demo.world0 = false) as Hopen
    by (by vm_compute).
  split_and!; [reflexivity|exact Hquery|exact Hclasses|exact Hopen|].
  exact (@export_results_cannot_open Demo.externals true self "photos"
           "photos/photos.db" Demo.error Demo.test_data Demo.query classes
           Demo.world0 eq_refl Hquery Hclasses Hopen).
Defined.

(** X21.  Test data whose targets have another length than there are
    classes: at the first sample [export_results] raises
    [RuntimeError], after it has written the header. *)
Theorem export_results_length_mismatch `{Externals} (debug : bool)
    (self : TestAnn.t) (filename db_path : string) (error : Qc)
    (s : sample) (rest : list sample) (class_query : class_query)
    (classes : list string) (codewords : gmap string (list Qc)) (w : world) :
  TestAnn.test_data self = Some (s :: rest) →
  TestAnn.results_query self db_path = Ok (class_query, classes) →
  classes ≠ [] →
  Common.get_codewords classes Common.default_neg Common.default_pos
    = Ok codewords →
  size codewords ≠ length s.2 →
  can_open_w filename w = true →
  ∃ w',
    TestAnn.export_results debug self filename db_path error w
    = (w', Raise (TestAnn.length_mismatch (size codewords) (length s.2))) ∧
    files w' !! filename = Some (tsv [results_header]).
Proof.
  intros Hdata Hquery Hclasses Hcodewords Hsize Hopen.
  destruct s as [[label input] output]. simpl in Hsize.
  unfold TestAnn.export_results. rewrite Hdata.
  unfold mbind, M_bind, lift, fh_write.
  rewrite Hquery. cbn beta iota.
  rewrite bool_decide_false by by destruct classes.
  rewrite (open_w_ok filename w Hopen), Hcodewords.
  cbn [TestAnn.results_loop]. rewrite bool_decide_true by done.
  unfold raise. eexists. split; [done|].
  unfold set_files; cbn [files].
  rewrite lookup_alter_eq, lookup_insert_eq.
  change (tsv [results_header]) with (tsv_line results_header +:+ "").
  by rewrite append_nil_r.
Qed.

Lemma export_results_length_mismatch_witness :
  let s : sample := (Some "1.jpg", [Q2Qc (1 # 2)], [1%Qc]) in
  let self := TestAnn.mk_t Demo.config (Some "orchids.ann") (Some [s]) in
  let classes := ["Cypripedium"; "Paphiopedilum"] in
  let codewords : gmap string (list Qc) :=
    <["Paphiopedilum" := [- 1; 1]%Qc]> {["Cypripedium" := [1; - 1]%Qc]} in
  TestAnn.test_data self = Some [s] ∧
  @TestAnn.results_query Demo.externals self "photos/photos.db"
    = Ok (Demo.query, classes) ∧
  classes ≠ [] ∧
  Common.get_codewords classes Common.default_neg Common.default_pos
    = Ok codewords ∧
  size codewords ≠ length s.2 ∧
  can_open_w "results.tsv" Demo.world0 = true ∧
  ∃ w',
    @TestAnn.export_results Demo.externals true self "results.tsv"
      "photos/photos.db" Demo.error Demo.world0
    = (w', Raise (TestAnn.length_mismatch (size codewords) (length s.2))) ∧
    files w' !! "results.tsv" = Some (tsv [results_header]).
Proof.
  intros s self classes codewords.
  assert (@TestAnn.results_query Demo.externals self "photos/photos.db"
          = Ok (Demo.query, classes)) as Hquery by reflexivity.
  assert (classes ≠ []) as Hclasses by done.
  assert (Common.get_codewords classes Common.default_neg Common.default_pos
          = Ok codewords) as Hcodewords by (by vm_compute).
  assert (size codewords ≠ length s.2) as Hsize by (by vm_compute).
  assert (can_open_w "results.tsv" Demo.world0 = true) as Hopen
    by (by vm_compute).
  split_and!;
    [reflexivity|exact Hquery|exact Hclasses|exact Hcodewords|exact Hsize
    |exact Hopen|].
  exact (@export_results_length_mismatch Demo.externals true self
           "results.tsv" "photos/photos.db" Demo.error s [] Demo.query
           classes codewords Demo.world0 eq_refl Hquery Hclasses Hcodewords
           Hsize Hopen).
Defined.

(** ** More on [main] *)

(** X22.  [main] never returns: it ends with [sys.exit()] or with an
    exception. *)
Theorem main_never_returns `{Externals} (debug : bool) (cmd : Main.command)
    (w : world) :
  ∃ w' e, Main.main debug cmd w = (w', Raise e).
Proof.
  unfold Main.main.
  destruct cmd; unfold mbind, M_bind, try_except, Main.sys_exit, raise, logging;
    destruct (Main.task debug _ w) as [w' [[]|e]]; eauto;
    destruct (is_Exception e); eauto.
Qed.

(** X23.  When the task returns, [main] ends with [sys.exit()]: the
    exit status is 0 and [main] has logged nothing. *)
Theorem main_exit_status `{Externals} (debug : bool) (cmd : Main.command)
    (w w' : world) :
  Main.task debug cmd w = (w', Ok ()) →
  Main.main debug cmd w = (w', Raise (mk_exn SystemExit "")).
Proof.
  intros Htask. unfold Main.main.
  destruct cmd; unfold mbind, M_bind, try_except; by rewrite Htask.
Qed.

Lemma main_exit_status_witness :
  let cmd := Main.cmd_classify "orchids.ann" "trainer.yml" "photos/photos.db"
               Demo.error "3.jpg" in
  let w' := add_log (INFO, "Image is classified as Cypripedium") Demo.world0 in
  @Main.task Demo.externals true cmd Demo.world0 = (w', Ok ()) ∧
  @Main.main Demo.externals true cmd Demo.world0
  = (w', Raise (mk_exn SystemExit "")).
Proof.
  intros cmd w'.
  assert (@Main.task Demo.externals true cmd Demo.world0 = (w', Ok ()))
    as Htask by (by vm_compute).
  split; [exact Htask|].
  exact (@main_exit_status Demo.externals true cmd Demo.world0 w' Htask).
Defined.

(** X24.  [SystemExit] is no [Exception]: when a task raises it, it
    leaves [main] for every subcommand, and [main] logs nothing. *)
Theorem main_system_exit_passes `{Externals} (debug : bool)
    (cmd : Main.command) (w w' : world) (e : exn) :
  Main.task debug cmd w = (w', Raise e) →
  is_Exception e = false →
  Main.main debug cmd w = (w', Raise e).
Proof.
  intros Htask Hexit. unfold Main.main.
  destruct cmd; unfold mbind, M_bind, try_except; rewrite Htask;
    by rewrite ?Hexit.
Qed.

(** Task [test-ann] with [--output] and without [--db]. *)
Lemma main_system_exit_passes_witness :
  let cmd := Main.cmd_test_ann "orchids.ann" None (Some "results.tsv")
               (Some "trainer.yml") Demo.error "test.tsv" in
  let e := mk_exn SystemExit
             "Option --output must be used together with --db" in
  @Main.task Demo.externals true cmd Demo.world0 = (Demo.world0, Raise e) ∧
  is_Exception e = false ∧
  @Main.main Demo.externals true cmd Demo.world0 = (Demo.world0, Raise e).
Proof.
  intros cmd e.
  assert (@Main.task Demo.externals true cmd Demo.world0
          = (Demo.world0, Raise e)) as Htask by (by vm_compute).
  assert (is_Exception e = false) as Hexit by reflexivity.
  split_and!; [exact Htask|exact Hexit|].
  exact (@main_system_exit_passes Demo.externals true cmd Demo.world0
           Demo.world0 e Htask Hexit).
Defined.

(** X25.  Task [ann] logs an exception and drops it: [main] goes on to
    [sys.exit()], and the caller sees exit status 0. *)
Theorem main_ann_swallows `{Externals} (debug : bool)
    (conf : option string) (epochs error : option Qc) (output data : string)
    (w w' : world) (e : exn) :
  Main.task debug (Main.cmd_ann conf epochs error output data) w
    = (w', Raise e) →
  is_Exception e = true →
  Main.main debug (Main.cmd_ann conf epochs error output data) w
  = (add_log (ERROR, exn_msg e) w', Raise (mk_exn SystemExit "")).
Proof. apply main_ann_drops. Qed.

Lemma main_ann_swallows_witness :
  let e := Demo.no_such_file "missing.yml" in
  @Main.task Demo.externals true Demo.ann_missing Demo.world0
    = (Demo.world0, Raise e) ∧
  is_Exception e = true ∧
  @Main.main Demo.externals true Demo.ann_missing Demo.world0
  = (add_log (ERROR, exn_msg e) Demo.world0, Raise (mk_exn SystemExit "")).
Proof.
  intros e.
  assert (@Main.task Demo.externals true Demo.ann_missing Demo.world0
          = (Demo.world0, Raise e)) as Htask by reflexivity.
  assert (is_Exception e = true) as Hexn by reflexivity.
  split_and!; [exact Htask|exact Hexn|].
  exact (@main_ann_swallows Demo.externals true (Some "missing.yml") None None
           "orchids.ann" "train.tsv" Demo.world0 Demo.world0 e Htask Hexn).
Defined.

(** ** The constructors and the queries *)

(** X26.  [set_config] accepts a configuration without an output
    folder, with an empty one or with one that is a directory, and
    changes nothing; for an output folder that is no directory it logs
    the error and raises [IOError]. *)
Theorem set_config_checks_folder (config : Config.config)
    (w : world) :
  match cfg_output_folder config with
  | Some path =>
      if bool_decide (path = "" ∨ path ∈ dirs w)
      then Common.set_config config w = (w, Ok ())
      else Common.set_config config w
           = (add_log (ERROR, "Found a configuration error") w,
              Raise (mk_exn IOError
                       ("Cannot open " +:+ path +:+ " (no such directory)")))
  | None => Common.set_config config w = (w, Ok ())
  end.
Proof.
  unfold Common.set_config.
  destruct (cfg_output_folder config) as [path|]; [|done].
  destruct (decide (path = "")) as [->|Hpath].
  { by rewrite bool_decide_true by by left. }
  rewrite (bool_decide_false (path = "")) by done.
  unfold mbind, M_bind, isdir.
  destruct (decide (path ∈ dirs w)) as [Hin|Hin].
  - rewrite (bool_decide_true (path ∈ dirs w)) by done.
    by rewrite bool_decide_true by by right.
  - rewrite (bool_decide_false (path ∈ dirs w)) by done.
    rewrite bool_decide_false; [done|]. by intros [?|?].
Qed.



(** X28.  A class query without the key [class], or with a key that is
    not known, is refused with [ValueError] before the database is
    asked; any other query is run as it is. *)
Theorem query_checks `{Externals} (db_path : string) (query : class_query) :
  match cq_class query, cq_unknown query with
  | None, _ =>
      Common.query_images_classes db_path query
      = Raise (mk_exn ValueError "The query is missing the 'class' key") ∧
      Common.query_classes db_path query
      = Raise (mk_exn ValueError "The query is missing the 'class' key")
  | Some _, key :: _ =>
      Common.query_images_classes db_path query
      = Raise (mk_exn ValueError ("Unknown key '" +:+ key +:+ "' in query")) ∧
      Common.query_classes db_path query
      = Raise (mk_exn ValueError ("Unknown key '" +:+ key +:+ "' in query"))
  | Some _, [] =>
      Common.query_images_classes db_path query
      = run_images_query db_path query ∧
      Common.query_classes db_path query = run_classes_query db_path query
  end.
Proof.
  unfold Common.query_images_classes, Common.query_classes, Common.check_query.
  destruct (cq_class query); [|done]. by destruct (cq_unknown query).
Qed.
